(** * FTP-ZAN: a shallow embedding of [ftp_ZAN.py]

    The development follows the layout of the source file:
    - Python values, dictionaries and exceptions;
    - a state-and-exception monad for code that mutates [self.results];
    - [FTPChecker] and [SFTPChecker];
    - [BruteForcer.brute_force] and [AdvancedFTPChecker.check_servers];
    - the four report writers of [AdvancedFTPChecker];
    - [read_wordlist] and the configuration stage of [main].

    What lies outside the program is an explicit input of the model: the
    answers of the FTP and SSH client libraries, the clock readings, the
    file system and the order in which the thread pool completes futures. *)

From Stdlib Require Import ZArith List Ascii String DecimalString Permutation.
From stdpp Require Import base option list strings gmap fin_maps.

Local Open Scope string_scope.
Local Open Scope Z_scope.
Local Open Scope list_scope.

(** ** Python values *)

(** A duration produced by [round((time.time() - t0) * 1000, 2)] is kept as
    an integer number of hundredths of a millisecond. *)
Inductive pyval : Type :=
| VNone
| VBool (b : bool)
| VInt (z : Z)
| VFloat (hundredths : Z)
| VStr (s : string)
| VList (l : list string).

#[global] Instance pyval_eq_dec : EqDecision pyval.
Proof. solve_decision. Defined.

(** Python truthiness, as used by [if x:], [and], [or] and [not]. *)
Definition truthy (v : pyval) : bool :=
  match v with
  | VNone => false
  | VBool b => b
  | VInt z => negb (z =? 0)
  | VFloat h => negb (h =? 0)
  | VStr s => negb (String.length s =? 0)%nat
  | VList l => negb (length l =? 0)%nat
  end.

(** A result record, a server record and a combination are Python dicts
    with string keys. *)
Abbreviation dict := (gmap string pyval).

(** ** Exceptions *)

(** The exception classes the source distinguishes in its [except]
    clauses, with the subclass relations of the Python library:
    [socket.timeout] and [socket.gaierror] are [OSError]s,
    [ftplib.error_perm] is an [ftplib.Error],
    [paramiko.AuthenticationException] is a [paramiko.SSHException], and
    [IOError] is [OSError]. *)
Inductive exn_class : Type :=
| FtpErrorPerm
| FtpErrorOther
| OSErrorPlain
| SocketTimeout
| SocketGaierror
| EOFErrorC
| AuthenticationException
| SSHExceptionOther
| KeyErrorC
| TypeErrorC
| ValueErrorC
| OtherException.

(** An exception value: its class and the text [str(e)]. *)
Record exn : Type := Exn { exn_cls : exn_class; exn_str : string }.

Definition is_error_perm (e : exn) : bool :=
  match exn_cls e with FtpErrorPerm => true | _ => false end.

Definition is_OSError (e : exn) : bool :=
  match exn_cls e with
  | OSErrorPlain | SocketTimeout | SocketGaierror => true
  | _ => false
  end.

(** [ftplib.all_errors = (Error, OSError, EOFError)]. *)
Definition is_ftplib_all_errors (e : exn) : bool :=
  match exn_cls e with
  | FtpErrorPerm | FtpErrorOther | EOFErrorC => true
  | _ => is_OSError e
  end.

Definition is_socket_timeout (e : exn) : bool :=
  match exn_cls e with SocketTimeout => true | _ => false end.

Definition is_socket_gaierror (e : exn) : bool :=
  match exn_cls e with SocketGaierror => true | _ => false end.

Definition is_AuthenticationException (e : exn) : bool :=
  match exn_cls e with AuthenticationException => true | _ => false end.

Definition is_SSHException (e : exn) : bool :=
  match exn_cls e with
  | AuthenticationException | SSHExceptionOther => true
  | _ => false
  end.

(** [KeyError(k)]: [str(e)] is the [repr] of the key. *)
Definition KeyError (k : string) : exn := Exn KeyErrorC ("'" +:+ k +:+ "'").

Definition TypeError (msg : string) : exn := Exn TypeErrorC msg.

(** ** Outcomes and the state-and-exception monad *)

Inductive res (A : Type) : Type :=
| Ok (a : A)
| Raise (e : exn).
Arguments Ok {A} a.
Arguments Raise {A} e.

(** A computation over a mutable store [S]: the store survives an
    exception, as the mutations of a Python object do. *)
Definition M (S A : Type) : Type := S → res A * S.

Definition ret {S A} (a : A) : M S A := λ s, (Ok a, s).

Definition bind {S A B} (m : M S A) (k : A → M S B) : M S B :=
  λ s, match m s with
       | (Ok a, s') => k a s'
       | (Raise e, s') => (Raise e, s')
       end.

Definition raise {S A} (e : exn) : M S A := λ s, (Raise e, s).

Definition get {S} : M S S := λ s, (Ok s, s).

Definition modify {S} (f : S → S) : M S unit := λ s, (Ok tt, f s).

(** A call into a library whose outcome the environment fixed. *)
Definition call {S A} (r : res A) : M S A := λ s, (r, s).

(** [try: m except C as e: h e] for one clause; [handles] tells which
    exceptions the class [C] matches. *)
Definition try_except {S A} (m : M S A) (handles : exn → bool)
    (h : exn → M S A) : M S A :=
  λ s, match m s with
       | (Ok a, s') => (Ok a, s')
       | (Raise e, s') => if handles e then h e s' else (Raise e, s')
       end.

(** The clauses of one [try] statement are tried in order and only the
    first that matches runs; what its handler raises is not offered to the
    clauses after it. *)
Fixpoint select_clause {S A} (clauses : list ((exn → bool) * (exn → M S A)))
    (e : exn) : M S A :=
  match clauses with
  | [] => raise e
  | (handles, h) :: rest => if handles e then h e else select_clause rest e
  end.

Definition try_clauses {S A} (m : M S A)
    (clauses : list ((exn → bool) * (exn → M S A))) : M S A :=
  λ s, match m s with
       | (Ok a, s') => (Ok a, s')
       | (Raise e, s') => select_clause clauses e s'
       end.

(** [try: m finally: f]: [f] always runs; if it raises, its exception
    replaces the outcome of [m]. *)
Definition try_finally {S A} (m : M S A) (f : M S unit) : M S A :=
  λ s, match m s with
       | (r, s') =>
           match f s' with
           | (Ok _, s'') => (r, s'')
           | (Raise e, s'') => (Raise e, s'')
           end
       end.

Declare Scope py_scope.
Delimit Scope py_scope with py.
Notation "x <- m ;; k" := (bind m (λ x, k))
  (at level 100, m at next level, right associativity) : py_scope.
Notation "m ;;; k" := (bind m (λ _, k))
  (at level 100, right associativity) : py_scope.
Local Open Scope py_scope.

Definition any_exception (e : exn) : bool := true.

(** ** Dictionary and string primitives *)

(** [d[k]], raising [KeyError] when the key is absent. *)
Definition getitem (d : dict) (k : string) : res pyval :=
  match d !! k with
  | Some v => Ok v
  | None => Raise (KeyError k)
  end.

(** [d.get(k, default)]. *)
Definition dict_get (d : dict) (k : string) (default : pyval) : pyval :=
  match d !! k with
  | Some v => v
  | None => default
  end.

(** [self.results[k] = v]. *)
Definition setitem (k : string) (v : pyval) : M dict unit :=
  modify (λ d, <[k := v]> d).

(** [self.results['errors'].append(msg)]. *)
Definition errors_append (msg : string) : M dict unit :=
  λ d, match d !! "errors" with
       | Some (VList l) => (Ok tt, <["errors" := VList (l ++ [msg])]> d)
       | Some _ => (Raise (TypeError "object has no attribute 'append'"), d)
       | None => (Raise (KeyError "errors"), d)
       end.

(** A string is a sequence of characters with code points below 256: a
    character is an [ascii], read as its Latin-1 code point.  Characters
    beyond that range are not represented. *)

(** Characters [str.strip()] removes: the white space of Python among
    these code points, which is [\t] to [\r], [\x1c] to the space,
    [\x85] and the no-break space [\xa0]. *)
Definition is_space (c : ascii) : bool :=
  let n := nat_of_ascii c in
  ((9 <=? n) && (n <=? 13) || (28 <=? n) && (n <=? 32)
   || (n =? 133) || (n =? 160))%nat.

Fixpoint lstrip (s : string) : string :=
  match s with
  | String c s' => if is_space c then lstrip s' else s
  | EmptyString => EmptyString
  end.

Fixpoint rstrip (s : string) : string :=
  match s with
  | String c s' =>
      match rstrip s' with
      | EmptyString => if is_space c then EmptyString else String c EmptyString
      | t => String c t
      end
  | EmptyString => EmptyString
  end.

Definition strip (s : string) : string := rstrip (lstrip s).

Definition nonempty (s : string) : bool := negb (String.length s =? 0)%nat.

(** [s.split(sep)] for a one-character separator: always at least one
    piece. *)
Fixpoint split_on (sep : ascii) (s : string) : list string :=
  match s with
  | EmptyString => [EmptyString]
  | String c s' =>
      if Ascii.eqb c sep then EmptyString :: split_on sep s'
      else match split_on sep s' with
           | p :: ps => String c p :: ps
           | [] => [String c EmptyString]
           end
  end.

(** [sep.join(l)]. *)
Fixpoint join (sep : string) (l : list string) : string :=
  match l with
  | [] => EmptyString
  | [x] => x
  | x :: xs => x +:+ sep +:+ join sep xs
  end.

(** [l[:-1]] and [l[1:-1]] and [l[-1]]. *)
Definition drop_last {A} (l : list A) : list A := removelast l.
Definition inner {A} (l : list A) : list A := removelast (tail l).
Definition last_piece (l : list string) : string := List.last l EmptyString.

Definition startswith (p s : string) : bool := String.prefix p s.

(** [x in files] on a list of strings. *)
Definition str_in (x : string) (l : list string) : bool :=
  bool_decide (x ∈ l).

(** ** The checkers *)

(** The attributes of a checker instance other than [self.results].
    [host], [username], [password] and [port] are whatever the caller
    passed: the FileZilla parser can hand over [None]. *)
Record checker : Type := Checker {
  host : pyval;
  username : pyval;
  password : pyval;
  port : pyval;
  timeout : Z;
  check_path : option string
}.

(** [if self.check_path:] *)
Definition check_path_requested (self : checker) : option string :=
  match check_path self with
  | Some p => if nonempty p then Some p else None
  | None => None
  end.

(** The dictionary literal of [__init__], shared by both classes up to the
    protocol name; [now] is [datetime.now().isoformat()]. *)
Definition init_results (self : checker) (protocol now : string) : dict :=
  <["host" := host self]> (
  <["port" := port self]> (
  <["username" := username self]> (
  <["protocol" := VStr protocol]> (
  <["timestamp" := VStr now]> (
  <["connection" := VBool false]> (
  <["connection_time" := VNone]> (
  <["authentication" := VBool false]> (
  <["auth_time" := VNone]> (
  <["path_exists" := VNone]> (
  <["path_type" := VNone]> (
  <["path_check_time" := VNone]> (
  <["welcome_message" := VNone]> (
  <["features" := VList []]> (
  <["errors" := VList []]> ∅)))))))))))))).

Module FTPChecker.

(** What the [ftplib.FTP] object answers at each call site of [check],
    and the durations the clock yields. *)
Record lib : Type := Lib {
  FTP_new : res unit;
  connect : res unit;
  getwelcome : res string;
  login : res unit;
  voidcmd_FEAT : res unit;
  sendcmd_FEAT_1 : res string;
  sendcmd_FEAT_2 : res string;
  cwd_path : string → res unit;
  cwd_parent : string → res unit;
  retrlines_NLST : res (list string);
  FTP_exit : res unit;
  connection_time : Z;
  auth_time : Z;
  path_check_time : Z;
  total_time : Z
}.

Definition __init__ (self : checker) (now : string) : dict :=
  init_results self "FTP" now.

(** The FEAT block, lines 142-156. *)
Definition features_block (L : lib) : M dict unit :=
  try_except
    (call (voidcmd_FEAT L);;;
     try_except
       (call (sendcmd_FEAT_1 L);;;
        response <- call (sendcmd_FEAT_2 L);;
        if startswith "211-" response then
          let features := inner (split_on "010" response) in
          setitem "features"
            (VList (map strip (List.filter (λ f, nonempty (strip f)) features)))
        else ret tt)
       any_exception (λ _, ret tt))
    is_error_perm (λ _, ret tt).

(** The path check, lines 159-188. *)
Definition path_block (L : lib) (path : string) : M dict unit :=
  try_finally
    (try_except
       (try_except
          (call (cwd_path L path);;;
           setitem "path_exists" (VBool true);;;
           setitem "path_type" (VStr "directory"))
          is_error_perm
          (λ _,
             let parent_dir :=
               let j := join "/" (drop_last (split_on "/" path)) in
               if nonempty j then j else "/" in
             let filename := last_piece (split_on "/" path) in
             try_except
               (call (cwd_parent L parent_dir);;;
                files <- call (retrlines_NLST L);;
                if str_in filename files then
                  setitem "path_exists" (VBool true);;;
                  setitem "path_type" (VStr "file")
                else
                  setitem "path_exists" (VBool false);;;
                  errors_append ("Path '" +:+ path +:+ "' not found"))
               is_error_perm
               (λ e,
                  setitem "path_exists" (VBool false);;;
                  errors_append
                    ("Error accessing parent directory: " +:+ exn_str e))))
       any_exception
       (λ e,
          setitem "path_exists" (VBool false);;;
          errors_append ("Path check error: " +:+ exn_str e)))
    (setitem "path_check_time" (VFloat (path_check_time L))).

(** The body of [with ftplib.FTP() as ftp:], lines 123-188. *)
Definition session (L : lib) (self : checker) : M dict unit :=
  call (connect L);;;
  setitem "connection_time" (VFloat (connection_time L));;;
  setitem "connection" (VBool true);;;
  try_except
    (w <- call (getwelcome L);; setitem "welcome_message" (VStr w))
    any_exception (λ _, ret tt);;;
  call (login L);;;
  setitem "auth_time" (VFloat (auth_time L));;;
  setitem "authentication" (VBool true);;;
  features_block L;;;
  match check_path_requested self with
  | Some path => path_block L path
  | None => ret tt
  end.

(** [check], lines 117-201, up to its last line: [return self_results]
    stands for [return self.results]. *)
Definition check_then {A} (L : lib) (self : checker) (self_results : M dict A)
    : M dict A :=
  try_clauses
    (call (FTP_new L);;;
     try_finally (session L self) (call (FTP_exit L)))
    [ (is_ftplib_all_errors,
       λ e, errors_append ("FTP error: " +:+ exn_str e));
      (is_socket_timeout,
       λ _, errors_append "Connection timed out");
      (is_socket_gaierror,
       λ _, errors_append "Hostname resolution failed");
      (any_exception,
       λ e, errors_append ("Unexpected error: " +:+ exn_str e)) ];;;
  setitem "total_time" (VFloat (total_time L));;;
  self_results.

(** [check] on the dictionary [self.results] refers to: the value returned
    is that dictionary. *)
Definition check (L : lib) (self : checker) : M dict dict :=
  check_then L self get.

End FTPChecker.

Module SFTPChecker.

(** What [paramiko] answers at each call site of [check]; [stat] yields
    [stat.st_mode], which may be [None]. *)
Record lib : Type := Lib {
  SSHClient_new : res unit;
  set_missing_host_key_policy : res unit;
  connect : res unit;
  open_sftp : res unit;
  stat : string → res (option Z);
  sftp_close : res unit;
  ssh_close : res unit;
  connection_time : Z;
  path_check_time : Z;
  total_time : Z
}.

Definition __init__ (self : checker) (now : string) : dict :=
  init_results self "SFTP" now.

(** The store of [check]: [self.results] and the local variable [ssh],
    [false] while it is still [None]. *)
Record frame : Type := Frame { results : dict; ssh : bool }.

Definition on_results {A} (m : M dict A) : M frame A :=
  λ f, match m (results f) with
       | (r, d) => (r, Frame d (ssh f))
       end.

Definition set_ssh : M frame unit :=
  modify (λ f, Frame (results f) true).

(** The path check, lines 245-263. *)
Definition path_block (L : lib) (path : string) : M frame unit :=
  try_finally
    (try_except
       (call (open_sftp L);;;
        try_finally
          (try_except
             (st_mode <- call (stat L path);;
              on_results (setitem "path_exists" (VBool true));;;
              match st_mode with
              | Some mode =>
                  on_results
                    (setitem "path_type"
                       (VStr (if negb (Z.land mode 16384 =? 0)
                              then "directory" else "file")))
              | None => ret tt
              end)
             is_OSError
             (λ _,
                on_results (setitem "path_exists" (VBool false));;;
                on_results (errors_append ("Path '" +:+ path +:+ "' not found"))))
          (call (sftp_close L)))
       any_exception
       (λ e,
          on_results (setitem "path_exists" (VBool false));;;
          on_results (errors_append ("Path check error: " +:+ exn_str e))))
    (on_results (setitem "path_check_time" (VFloat (path_check_time L)))).

(** The body of the outer [try], lines 235-263. *)
Definition session (L : lib) (self : checker) : M frame unit :=
  call (SSHClient_new L);;;
  set_ssh;;;
  call (set_missing_host_key_policy L);;;
  call (connect L);;;
  on_results (setitem "connection_time" (VFloat (connection_time L)));;;
  on_results (setitem "connection" (VBool true));;;
  on_results (setitem "authentication" (VBool true));;;
  match check_path_requested self with
  | Some path => path_block L path
  | None => ret tt
  end.

(** Lines 231-282 on the frame, up to the last line: [return
    self_results] stands for [return self.results]. *)
Definition check_frame_then {A} (L : lib) (self : checker)
    (self_results : M frame A) : M frame A :=
  try_finally
    (try_clauses (session L self)
       [ (is_AuthenticationException,
          λ _, on_results (errors_append "Authentication failed"));
         (is_SSHException,
          λ e, on_results (errors_append ("SSH error: " +:+ exn_str e)));
         (is_socket_timeout,
          λ _, on_results (errors_append "Connection timed out"));
         (is_socket_gaierror,
          λ _, on_results (errors_append "Hostname resolution failed"));
         (any_exception,
          λ e, on_results (errors_append ("Unexpected error: " +:+ exn_str e))) ])
    (f <- get;; if ssh f then call (ssh_close L) else ret tt);;;
  on_results (setitem "total_time" (VFloat (total_time L)));;;
  ct <- on_results (d <- get;; call (getitem d "connection_time"));;
  on_results (setitem "auth_time" ct);;;
  self_results.

Definition check_frame (L : lib) (self : checker) : M frame dict :=
  check_frame_then L self (on_results get).

(** [check] up to its last line: runs on the dictionary [self.results]
    refers to, with [ssh = None] initially. *)
Definition check_then {A} (L : lib) (self : checker) (self_results : M dict A)
    : M dict A :=
  λ d, match check_frame_then L self (on_results self_results) (Frame d false) with
       | (r, f) => (r, results f)
       end.

(** [check]: the value returned is the dictionary [self.results] refers
    to. *)
Definition check (L : lib) (self : checker) : M dict dict :=
  check_then L self get.

End SFTPChecker.

(** ** The schedulers *)

(** [v == n] for an integer literal [n]. *)
Definition py_eq_int (v : pyval) (n : Z) : bool :=
  match v with
  | VInt z => z =? n
  | VBool b => (if b then 1 else 0) =? n
  | VFloat h => h =? 100 * n
  | _ => false
  end.

(** A line written by [print]: which message it is and the values
    interpolated into it, in order.  Colours and number formatting are
    left to the console. *)
Inductive event : Type :=
| Print (message : string) (fields : list pyval).

(** The object a scheduler method runs on: the list [self.results] and
    what has been printed so far. *)
Record run : Type := Run { results : list dict; stdout : list event }.

Definition results_append (r : dict) : M run unit :=
  modify (λ s, Run (results s ++ [r])%list (stdout s)).

Definition print (message : string) (fields : list pyval) : M run unit :=
  modify (λ s, Run (results s) (stdout s ++ [Print message fields])%list).

(** A submitted future: the descriptor it was stored under in
    [future_to_combo] / [future_to_server] and what [future.result()]
    gives. *)
Record future : Type := Future { descriptor : dict; outcome : res dict }.

(** What the schedulers take from outside: the libraries' answers and the
    constructor's clock reading for the [j]-th submitted checker, the clock
    reading in the [i]-th iteration of the collecting loop, and the order
    in which [as_completed] yields the futures. *)
Record world : Type := World {
  ftp_lib_of : nat → FTPChecker.lib;
  sftp_lib_of : nat → SFTPChecker.lib;
  now_submit : nat → string;
  now_collect : nat → string;
  as_completed : list future → list future
}.

(** [as_completed] yields every future it was given exactly once. *)
Definition fair (W : world) : Prop :=
  ∀ fs, as_completed W fs ≡ₚ fs.

Fixpoint for_each {S A} (l : list A) (body : A → M S unit) : M S unit :=
  match l with
  | [] => ret tt
  | x :: xs => body x;;; for_each xs body
  end.

Definition enumerate {A} (l : list A) : list (nat * A) :=
  zip (seq 0 (length l)) l.

(** [executor.submit(FTPChecker(...).check)]: the instance is built on the
    spot and its [check] runs once, on its own fresh [self.results]. *)
Definition submit_FTP (W : world) (j : nat) (self : checker) : res dict :=
  fst (FTPChecker.check (ftp_lib_of W j) self
         (FTPChecker.__init__ self (now_submit W j))).

Definition submit_SFTP (W : world) (j : nat) (self : checker) : res dict :=
  fst (SFTPChecker.check (sftp_lib_of W j) self
         (SFTPChecker.__init__ self (now_submit W j))).

(** [ThreadPoolExecutor(max_workers=n)] refuses a bound that is not
    positive. *)
Definition ThreadPoolExecutor {S} (max_workers : Z) : M S unit :=
  if max_workers <=? 0
  then raise (Exn ValueErrorC "max_workers must be greater than 0")
  else ret tt.

(** The dictionary built in the [except Exception as e] clause of both
    schedulers, lines 363-372 and 429-438. *)
Definition error_result (d : dict) (now : string) (e : exn) : res dict :=
  match getitem d "host" with Raise x => Raise x | Ok h =>
  match getitem d "port" with Raise x => Raise x | Ok p =>
  match getitem d "username" with Raise x => Raise x | Ok u =>
  match getitem d "protocol" with Raise x => Raise x | Ok proto =>
    Ok (<["host" := h]> (
        <["port" := p]> (
        <["username" := u]> (
        <["protocol" := VStr (if py_eq_int proto 0 then "FTP" else "SFTP")]> (
        <["timestamp" := VStr now]> (
        <["connection" := VBool false]> (
        <["authentication" := VBool false]> (
        <["errors" := VList ["Check failed: " +:+ exn_str e]]> ∅))))))))
  end end end end.

(** [r['connection'] and r['authentication']] used as a condition. *)
Definition connection_and_authentication (r : dict) : res bool :=
  match getitem r "connection" with
  | Raise x => Raise x
  | Ok c =>
      if truthy c then
        match getitem r "authentication" with
        | Raise x => Raise x
        | Ok a => Ok (truthy a)
        end
      else Ok false
  end.

Module BruteForcer.

Record t : Type := Self {
  host : string;
  protocol : Z;
  timeout : Z;
  max_workers : Z;
  check_path : option string
}.

(** Lines 297-298. *)
Definition effective_ports (self : t) (port_list : option (list Z)) : list Z :=
  match port_list with
  | Some (p :: ps) => p :: ps
  | _ => if protocol self =? 0 then [21] else [22]
  end.

Definition combo (self : t) (port : Z) (username password : string) : dict :=
  <["host" := VStr (host self)]> (
  <["port" := VInt port]> (
  <["username" := VStr username]> (
  <["password" := VStr password]> (
  <["protocol" := VInt (protocol self)]> ∅)))).

(** The three nested loops of lines 305-315, each appending to
    [combinations]. *)
Definition combinations (self : t) (username_list password_list : list string)
    (port_list : list Z) : list dict :=
  fold_left (λ acc port,
    fold_left (λ acc username,
      fold_left (λ acc password, (acc ++ [combo self port username password])%list)
        password_list acc)
      username_list acc)
    port_list [].

(** The body of the submitting loop, lines 321-344; [fs] is
    [future_to_combo] so far. *)
Definition submit (W : world) (self : t) (fs : list future) (c : dict)
    : res (list future) :=
  match getitem c "protocol" with Raise x => Raise x | Ok proto =>
  match getitem c "host" with Raise x => Raise x | Ok h =>
  match getitem c "username" with Raise x => Raise x | Ok u =>
  match getitem c "password" with Raise x => Raise x | Ok pw =>
  match getitem c "port" with Raise x => Raise x | Ok p =>
    let inst := Checker h u pw p (timeout self) (check_path self) in
    let j := length fs in
    Ok (fs ++ [Future c (if py_eq_int proto 0
                         then submit_FTP W j inst
                         else submit_SFTP W j inst)])%list
  end end end end end.

Fixpoint submit_all (W : world) (self : t) (fs : list future) (cs : list dict)
    : res (list future) :=
  match cs with
  | [] => Ok fs
  | c :: cs' =>
      match submit W self fs c with
      | Ok fs' => submit_all W self fs' cs'
      | Raise x => Raise x
      end
  end.

(** The body of the collecting loop, lines 347-373. *)
Definition collect (W : world) (total_attempts : nat) (it : nat * future)
    : M run unit :=
  let '(i, f) := it in
  let c := descriptor f in
  try_except
    (result <- call (outcome f);;
     results_append result;;;
     found <- call (connection_and_authentication result);;
     if found then
       u <- call (getitem c "username");;
       pw <- call (getitem c "password");;
       h <- call (getitem c "host");;
       p <- call (getitem c "port");;
       print "FOUND" [u; pw; h; p; VInt (Z.of_nat (i + 1));
                      VInt (Z.of_nat total_attempts)]
     else if (Z.of_nat (i + 1) mod 10 =? 0) then
       print "Progress" [VInt (Z.of_nat (i + 1)); VInt (Z.of_nat total_attempts)]
     else ret tt)
    any_exception
    (λ e,
       r <- call (error_result c (now_collect W i) e);;
       results_append r).

(** [brute_force], lines 294-375; the value returned is [self.results]. *)
Definition brute_force (W : world) (self : t)
    (username_list password_list : list string) (port_list : option (list Z))
    : M run (list dict) :=
  let port_list := effective_ports self port_list in
  let total_attempts :=
    (length username_list * length password_list * length port_list)%nat in
  print "Starting brute force" [VInt (Z.of_nat total_attempts)];;;
  let combinations := combinations self username_list password_list port_list in
  ThreadPoolExecutor (max_workers self);;;
  future_to_combo <- call (submit_all W self [] combinations);;
  for_each (enumerate (as_completed W future_to_combo))
    (collect W total_attempts);;;
  s <- get;;
  ret (results s).

End BruteForcer.

(** ** Formatting *)

Definition nl : string := String "010" EmptyString.

Definition str_of_Z (z : Z) : string := NilZero.string_of_int (Z.to_int z).

(** The text of a duration kept in hundredths: [12.34], [12.3], [12.0]. *)
Definition str_of_hundredths (h : Z) : string :=
  let a := Z.abs h in
  let frac := a mod 100 in
  (if h <? 0 then "-" else EmptyString)
  +:+ str_of_Z (a / 100) +:+ "."
  +:+ (if frac mod 10 =? 0 then str_of_Z (frac / 10)
       else if frac <? 10 then "0" +:+ str_of_Z frac
       else str_of_Z frac).

(** [str(v)], which is also what an f-string interpolates. *)
Definition py_str (v : pyval) : string :=
  match v with
  | VNone => "None"
  | VBool true => "True"
  | VBool false => "False"
  | VInt z => str_of_Z z
  | VFloat h => str_of_hundredths h
  | VStr s => s
  | VList l => "[" +:+ join ", " (map (λ s, "'" +:+ s +:+ "'") l) +:+ "]"
  end.

(** [len(v)]. *)
Definition py_len (v : pyval) : res nat :=
  match v with
  | VStr s => Ok (String.length s)
  | VList l => Ok (length l)
  | _ => Raise (TypeError "object has no len()")
  end.

(** [v[:n]]. *)
Definition py_prefix (n : nat) (v : pyval) : res pyval :=
  match v with
  | VStr s => Ok (VStr (String.substring 0 n s))
  | VList l => Ok (VList (take n l))
  | _ => Raise (TypeError "object is not subscriptable")
  end.

(** [sep.join(v)]. *)
Definition py_join (sep : string) (v : pyval) : res string :=
  match v with
  | VList l => Ok (join sep l)
  | VStr s =>
      Ok (join sep (map (λ c, String c EmptyString) (list_ascii_of_string s)))
  | _ => Raise (TypeError "can only join an iterable")
  end.

(** [sum(1 for r in results if r['connection'] and r['authentication'])]. *)
Fixpoint count_successful (results : list dict) : res nat :=
  match results with
  | [] => Ok 0%nat
  | r :: rest =>
      match connection_and_authentication r with
      | Raise x => Raise x
      | Ok b =>
          match count_successful rest with
          | Raise x => Raise x
          | Ok n => Ok (if b then S n else n)
          end
      end
  end.

(** [for x in v:] over a Python value. *)
Definition iterate (v : pyval) : res (list pyval) :=
  match v with
  | VList l => Ok (map VStr l)
  | VStr s => Ok (map (λ c, VStr (String c EmptyString)) (list_ascii_of_string s))
  | _ => Raise (TypeError "object is not iterable")
  end.

Module AdvancedFTPChecker.

(** The body of the submitting loop, lines 388-412: a server whose
    protocol is neither 0 nor 1 gets no future. *)
Definition submit (W : world) (timeout : Z) (check_path : option string)
    (fs : list future) (server : dict) : res (list future) :=
  match getitem server "protocol" with Raise x => Raise x | Ok proto =>
    if py_eq_int proto 0 then
      match getitem server "host" with Raise x => Raise x | Ok h =>
      match getitem server "username" with Raise x => Raise x | Ok u =>
      match getitem server "password" with Raise x => Raise x | Ok pw =>
      match getitem server "port" with Raise x => Raise x | Ok p =>
        Ok (fs ++ [Future server
                     (submit_FTP W (length fs)
                        (Checker h u pw p timeout check_path))])%list
      end end end end
    else if py_eq_int proto 1 then
      match getitem server "host" with Raise x => Raise x | Ok h =>
      match getitem server "username" with Raise x => Raise x | Ok u =>
      match getitem server "password" with Raise x => Raise x | Ok pw =>
        let p := dict_get server "port" (VInt 22) in
        Ok (fs ++ [Future server
                     (submit_SFTP W (length fs)
                        (Checker h u pw p timeout check_path))])%list
      end end end
    else Ok fs
  end.

Fixpoint submit_all (W : world) (timeout : Z) (check_path : option string)
    (fs : list future) (servers : list dict) : res (list future) :=
  match servers with
  | [] => Ok fs
  | server :: rest =>
      match submit W timeout check_path fs server with
      | Ok fs' => submit_all W timeout check_path fs' rest
      | Raise x => Raise x
      end
  end.

(** The body of the collecting loop, lines 415-440. *)
Definition collect (W : world) (it : nat * future) : M run unit :=
  let '(i, f) := it in
  let server := descriptor f in
  try_except
    (result <- call (outcome f);;
     results_append result;;;
     ok <- call (connection_and_authentication result);;
     if ok then
       u <- call (getitem server "username");;
       pw <- call (getitem server "password");;
       h <- call (getitem server "host");;
       p <- call (getitem server "port");;
       ty <- call (getitem server "type");;
       ct <- call (getitem result "connection_time");;
       at_ <- call (getitem result "auth_time");;
       print "SUCCESS" [u; pw; h; p; ty; ct; at_]
     else
       u <- call (getitem server "username");;
       h <- call (getitem server "host");;
       p <- call (getitem server "port");;
       ty <- call (getitem server "type");;
       print "FAILED" [u; h; p; ty];;;
       errs <- call (getitem result "errors");;
       if truthy errs then
         errors <- call (getitem result "errors");;
         errors <- call (iterate errors);;
         for_each errors (λ error, print "Error" [error])
       else ret tt)
    any_exception
    (λ e,
       r <- call (error_result server (now_collect W i) e);;
       results_append r;;;
       u <- call (getitem server "username");;
       h <- call (getitem server "host");;
       p <- call (getitem server "port");;
       ty <- call (getitem server "type");;
       print "ERROR" [u; h; p; ty; VStr (exn_str e)]).

(** [check_servers], lines 381-442; the value returned is
    [self.results]. *)
Definition check_servers (W : world) (servers : list dict) (max_workers : Z)
    (check_path : option string) (timeout : Z) : M run (list dict) :=
  ThreadPoolExecutor max_workers;;;
  future_to_server <- call (submit_all W timeout check_path [] servers);;
  for_each (enumerate (as_completed W future_to_server)) (collect W);;;
  s <- get;;
  ret (results s).

(** The report writers.  First what each writer builds: the text, the
    element tree, the dictionary and the rows; [now] is the
    [datetime.now().isoformat()] of the call.  Then the writers themselves,
    which serialise what they built and write it to a file. *)

(** [content += s] *)
Definition emit (s : string) : M string unit := modify (λ content, content +:+ s).

(** [content += f" ({result[k]}ms)"] guarded by [if result[k]:]. *)
Definition emit_ms (result : dict) (k : string) : M string unit :=
  t <- call (getitem result k);;
  if truthy t then
    t <- call (getitem result k);;
    emit (" (" +:+ py_str t +:+ "ms)")
  else ret tt.

Definition status (v : pyval) : string :=
  if truthy v then "Success" else "Failed".

(** One iteration of the loop of [_save_txt], lines 469-504. *)
Definition txt_block (it : nat * dict) : M string unit :=
  let '(i, result) := it in
  u <- call (getitem result "username");;
  h <- call (getitem result "host");;
  p <- call (getitem result "port");;
  emit ("Server " +:+ str_of_Z (Z.of_nat i) +:+ ": " +:+ py_str u +:+ "@"
        +:+ py_str h +:+ ":" +:+ py_str p +:+ " ("
        +:+ py_str (dict_get result "protocol" (VStr "Unknown")) +:+ ")" +:+ nl);;;
  c <- call (getitem result "connection");;
  emit ("  Connection: " +:+ status c);;;
  emit_ms result "connection_time";;;
  emit nl;;;
  a <- call (getitem result "authentication");;
  emit ("  Authentication: " +:+ status a);;;
  emit_ms result "auth_time";;;
  emit nl;;;
  pe <- call (getitem result "path_exists");;
  match pe with
  | VNone => ret tt
  | _ =>
      pe <- call (getitem result "path_exists");;
      emit ("  Path check: " +:+ (if truthy pe then "Exists" else "Missing"));;;
      emit_ms result "path_check_time";;;
      pt <- call (getitem result "path_type");;
      (if truthy pt then
         pt <- call (getitem result "path_type");;
         emit (" [Type: " +:+ py_str pt +:+ "]")
       else ret tt);;;
      emit nl
  end;;;
  wm <- call (getitem result "welcome_message");;
  (if truthy wm then
     wm <- call (getitem result "welcome_message");;
     pre <- call (py_prefix 100 wm);;
     emit ("  Welcome: " +:+ py_str pre);;;
     wm <- call (getitem result "welcome_message");;
     n <- call (py_len wm);;
     (if (100 <? n)%nat then emit "..." else ret tt);;;
     emit nl
   else ret tt);;;
  ft <- call (getitem result "features");;
  (if truthy ft then
     ft <- call (getitem result "features");;
     n <- call (py_len ft);;
     emit ("  Features: " +:+ str_of_Z (Z.of_nat n) +:+ " supported" +:+ nl)
   else ret tt);;;
  emit ("  Total time: " +:+ py_str (dict_get result "total_time" (VStr "N/A"))
        +:+ "ms" +:+ nl);;;
  er <- call (getitem result "errors");;
  (if truthy er then
     emit ("  Errors:" +:+ nl);;;
     er <- call (getitem result "errors");;
     errors <- call (iterate er);;
     for_each errors (λ error, emit ("    - " +:+ py_str error +:+ nl))
   else ret tt);;;
  emit nl.

(** The header of [_save_txt], lines 459-466. *)
Definition txt_header (results : list dict) (now : string) : M string unit :=
  emit ("Advanced FTP/SFTP Check Results" +:+ nl);;;
  emit ("==============================" +:+ nl);;;
  emit ("Generated: " +:+ now +:+ nl);;;
  emit ("Total servers: " +:+ str_of_Z (Z.of_nat (length results)) +:+ nl +:+ nl);;;
  successful <- call (count_successful results);;
  emit ("Successful connections: " +:+ str_of_Z (Z.of_nat successful) +:+ nl);;;
  emit ("Failed connections: "
        +:+ str_of_Z (Z.of_nat (length results) - Z.of_nat successful)
        +:+ nl +:+ nl).

(** What [_save_txt] builds, lines 459-504: [content], or the exception
    raised on the way. *)
Definition _save_txt (results : list dict) (now : string) : res string :=
  match (txt_header results now;;;
         for_each (zip (seq 1 (length results)) results) txt_block)
          EmptyString with
  | (Ok _, content) => Ok content
  | (Raise e, _) => Raise e
  end.

(** An [xml.etree] element: tag, [.text] and children. *)
Inductive xml : Type :=
| Element (tag : string) (text : pyval) (children : list xml).

(** [ET.SubElement(parent, tag).text = text]; the store is the list of
    children of [parent]. *)
Definition sub_text (tag : string) (text : pyval) : M (list xml) unit :=
  modify (λ parent, (parent ++ [Element tag text []])%list).

(** [e = ET.SubElement(parent, tag)] followed by code that fills [e]. *)
Definition sub_element (tag : string) (body : M (list xml) unit)
    : M (list xml) unit :=
  λ parent, match body [] with
            | (r, children) => (r, (parent ++ [Element tag VNone children])%list)
            end.

(** [ET.SubElement(parent, tag).text = str(result[k])] guarded by
    [if result[k]:]. *)
Definition sub_ms (result : dict) (k tag : string) : M (list xml) unit :=
  t <- call (getitem result k);;
  if truthy t then
    t <- call (getitem result k);;
    sub_text tag (VStr (py_str t))
  else ret tt.

(** One iteration of the loop of [_save_xml], lines 524-560. *)
Definition xml_server (result : dict) : M (list xml) unit :=
  sub_element "server" (
    h <- call (getitem result "host");;
    sub_text "host" h;;;
    p <- call (getitem result "port");;
    sub_text "port" (VStr (py_str p));;;
    u <- call (getitem result "username");;
    sub_text "username" u;;;
    sub_text "protocol" (dict_get result "protocol" (VStr "Unknown"));;;
    ts <- call (getitem result "timestamp");;
    sub_text "timestamp" ts;;;
    sub_element "status" (
      c <- call (getitem result "connection");;
      sub_text "connection" (VStr (py_str c));;;
      sub_ms result "connection_time" "connection_time_ms";;;
      a <- call (getitem result "authentication");;
      sub_text "authentication" (VStr (py_str a));;;
      sub_ms result "auth_time" "authentication_time_ms");;;
    pe <- call (getitem result "path_exists");;
    match pe with
    | VNone => ret tt
    | _ =>
        sub_element "path_check" (
          pe <- call (getitem result "path_exists");;
          sub_text "exists" (VStr (py_str pe));;;
          pt <- call (getitem result "path_type");;
          (if truthy pt then
             pt <- call (getitem result "path_type");;
             sub_text "type" pt
           else ret tt);;;
          sub_ms result "path_check_time" "check_time_ms")
    end;;;
    wm <- call (getitem result "welcome_message");;
    (if truthy wm then
       wm <- call (getitem result "welcome_message");;
       sub_text "welcome_message" wm
     else ret tt);;;
    ft <- call (getitem result "features");;
    (if truthy ft then
       sub_element "features" (
         ft <- call (getitem result "features");;
         features <- call (iterate ft);;
         for_each features (λ feature, sub_text "feature" feature))
     else ret tt);;;
    sub_text "total_time_ms"
      (VStr (py_str (dict_get result "total_time" (VStr "N/A"))));;;
    er <- call (getitem result "errors");;
    if truthy er then
      sub_element "errors" (
        er <- call (getitem result "errors");;
        errors <- call (iterate er);;
        for_each errors (λ error, sub_text "error" error))
    else ret tt).

(** The header of [_save_xml], lines 515-520. *)
Definition xml_header (results : list dict) (now : string) : M (list xml) unit :=
  sub_text "timestamp" (VStr now);;;
  sub_text "total_servers" (VStr (str_of_Z (Z.of_nat (length results))));;;
  successful <- call (count_successful results);;
  sub_text "successful_connections" (VStr (str_of_Z (Z.of_nat successful)));;;
  sub_text "failed_connections"
    (VStr (str_of_Z (Z.of_nat (length results) - Z.of_nat successful))).

(** What [_save_xml] builds, lines 514-560: the tree [root], or the
    exception raised on the way. *)
Definition _save_xml (results : list dict) (now : string) : res xml :=
  match (xml_header results now;;;
         sub_element "servers" (for_each results xml_server)) [] with
  | (Ok _, children) => Ok (Element "ftp_check_results" VNone children)
  | (Raise e, _) => Raise e
  end.

(** The dictionary [data] of [_save_json], lines 569-575. *)
Record json : Type := Json {
  timestamp : string;
  total_servers : Z;
  successful_connections : Z;
  failed_connections : Z;
  servers : list dict
}.

Definition _save_json (results : list dict) (now : string) : res json :=
  match count_successful results with Raise x => Raise x | Ok s1 =>
  match count_successful results with Raise x => Raise x | Ok s2 =>
    Ok (Json now (Z.of_nat (length results)) (Z.of_nat s1)
          (Z.of_nat (length results) - Z.of_nat s2) results)
  end end.

(** The first row written by [_save_csv], lines 585-589. *)
Definition csv_columns : list pyval :=
  map VStr
    [ "Host"; "Port"; "Username"; "Protocol"; "Connection";
      "Connection Time (ms)"; "Authentication"; "Auth Time (ms)";
      "Path Exists"; "Path Type"; "Path Check Time (ms)";
      "Total Time (ms)"; "Errors" ].

(** One data row of [_save_csv], lines 593-607. *)
Definition csv_row (result : dict) : res (list pyval) :=
  match getitem result "host" with Raise x => Raise x | Ok h =>
  match getitem result "port" with Raise x => Raise x | Ok p =>
  match getitem result "username" with Raise x => Raise x | Ok u =>
  match getitem result "connection" with Raise x => Raise x | Ok c =>
  match getitem result "authentication" with Raise x => Raise x | Ok a =>
  match getitem result "errors" with Raise x => Raise x | Ok er =>
  match (if truthy er then
           match getitem result "errors" with
           | Raise x => Raise x
           | Ok er => py_join "; " er
           end
         else Ok EmptyString) with Raise x => Raise x | Ok errors =>
    Ok [ h; p; u;
         dict_get result "protocol" (VStr "Unknown");
         VStr (status c);
         dict_get result "connection_time" (VStr EmptyString);
         VStr (status a);
         dict_get result "auth_time" (VStr EmptyString);
         VStr (if truthy (dict_get result "path_exists" VNone) then "Yes"
               else match dict_get result "path_exists" VNone with
                    | VNone => "N/A"
                    | _ => "No"
                    end);
         dict_get result "path_type" (VStr EmptyString);
         dict_get result "path_check_time" (VStr EmptyString);
         dict_get result "total_time" (VStr EmptyString);
         VStr errors ]
  end end end end end end end.

Fixpoint csv_rows (results : list dict) : res (list (list pyval)) :=
  match results with
  | [] => Ok []
  | result :: rest =>
      match csv_row result with
      | Raise x => Raise x
      | Ok row =>
          match csv_rows rest with
          | Raise x => Raise x
          | Ok rows => Ok (row :: rows)
          end
      end
  end.

(** The rows [_save_csv] builds, lines 585-607, in the order in which it
    hands them to [writer.writerow], or the exception raised on the way.
    The call takes no clock reading. *)
Definition _save_csv (results : list dict) : res (list (list pyval)) :=
  match csv_rows results with
  | Raise x => Raise x
  | Ok rows => Ok (csv_columns :: rows)
  end.

(** A report that was handed over completely: to its file, or to the
    console when [_save_txt] had no file name. *)
Inductive report : Type :=
| TXT (content : string)
| XML (root : xml)
| JSON (data : json)
| CSV (rows : list (list pyval)).

(** What one call of a writer takes from outside: the outcome of
    [open(filename, 'w')], of [f.write], of leaving the [with] block, of
    [minidom.parseString(ET.tostring(root)).toprettyxml(indent="  ")]
    (line 563), of [json.dump(data, f, indent=2)] and of the [i]-th
    [writer.writerow]. *)
Record files : Type := Files {
  open_w : string → res unit;
  f_write : string → res unit;
  f_exit : res unit;
  toprettyxml : xml → res string;
  json_dump : json → res unit;
  writerow : nat → list pyval → res unit
}.

(** [if filename:] *)
Definition named (filename : option string) : bool :=
  match filename with
  | Some f => nonempty f
  | None => false
  end.

(** [with open(filename, 'w') as f: body]; [open(None, 'w')] raises
    [TypeError]. *)
Definition with_open {S A} (F : files) (filename : option string)
    (body : M S A) : M S A :=
  match filename with
  | Some f => call (open_w F f)
  | None =>
      raise (TypeError
               "expected str, bytes or os.PathLike object, not NoneType")
  end;;;
  try_finally body (call (f_exit F)).

Definition handed_over (r : report) : M (list report) unit :=
  modify (λ written, (written ++ [r])%list).

(** [_save_txt], lines 458-511. *)
Definition save_txt (F : files) (results : list dict) (now : string)
    (filename : option string) : M (list report) unit :=
  content <- call (_save_txt results now);;
  (if named filename
   then with_open F filename (call (f_write F content))
   else ret tt);;;
  handed_over (TXT content).

(** [_save_xml], lines 513-566. *)
Definition save_xml (F : files) (results : list dict) (now : string)
    (filename : option string) : M (list report) unit :=
  root <- call (_save_xml results now);;
  xml_str <- call (toprettyxml F root);;
  with_open F filename (call (f_write F xml_str));;;
  handed_over (XML root).

(** [_save_json], lines 568-579. *)
Definition save_json (F : files) (results : list dict) (now : string)
    (filename : option string) : M (list report) unit :=
  data <- call (_save_json results now);;
  with_open F filename (call (json_dump F data));;;
  handed_over (JSON data).

(** [writer.writerow(row)]; the store is the list of the rows written so
    far. *)
Definition write_row (F : files) (row : list pyval)
    : M (list (list pyval)) unit :=
  rows <- get;;
  call (writerow F (length rows) row);;;
  modify (λ rows, (rows ++ [row])%list).

(** The body of the [with] block of [_save_csv], lines 583-607. *)
Definition csv_body (F : files) (results : list dict)
    : M (list (list pyval)) unit :=
  write_row F csv_columns;;;
  for_each results (λ result, row <- call (csv_row result);; write_row F row).

(** [_save_csv], lines 581-608: the file is opened first, and each row is
    written as soon as it is built. *)
Definition save_csv (F : files) (results : list dict)
    (filename : option string) : M (list report) unit :=
  rows <- (λ written,
             match with_open F filename (csv_body F results;;; get) [] with
             | (r, _) => (r, written)
             end);;
  handed_over (CSV rows).

(** [save_results], lines 444-456; the store is the list of the reports
    handed over so far. *)
Definition save_results (F : files) (results : list dict) (now : string)
    (format_type : string) (filename : option string) : M (list report) unit :=
  (if String.eqb format_type "txt" || negb (named filename)
   then save_txt F results now filename else ret tt);;;
  (if String.eqb format_type "xml"
   then save_xml F results now filename else ret tt);;;
  (if String.eqb format_type "json"
   then save_json F results now filename else ret tt);;;
  (if String.eqb format_type "csv"
   then save_csv F results filename else ret tt).

End AdvancedFTPChecker.

(** ** Word lists and the configuration stage of [main] *)

(** The decimal digits [0] to [9], which [int()] reads. *)
Definition is_digit (c : ascii) : bool :=
  let n := nat_of_ascii c in ((48 <=? n) && (n <=? 57))%nat.

(** The superscript digits [\xb2], [\xb3] and [\xb9]: digits for
    [str.isdigit()], not for [int()]. *)
Definition is_superscript_digit (c : ascii) : bool :=
  let n := nat_of_ascii c in ((n =? 178) || (n =? 179) || (n =? 185))%nat.

(** [s.isdigit()]: not empty, and every character is a digit. *)
Definition isdigit (s : string) : bool :=
  nonempty s
  && forallb (λ c, is_digit c || is_superscript_digit c) (list_ascii_of_string s).


(** The digits of an [int()] literal; single underscores may separate
    digits. *)
Fixpoint digits_value (acc : Z) (after_digit : bool) (s : string) : option Z :=
  match s with
  | EmptyString => if after_digit then Some acc else None
  | String c s' =>
      if is_digit c
      then digits_value (10 * acc + (Z.of_nat (nat_of_ascii c) - 48)) true s'
      else if Ascii.eqb c "_" && after_digit then digits_value acc false s'
      else None
  end.

(** [int(s)], raising [ValueError] on a malformed literal. *)
Definition py_int (s : string) : res Z :=
  let t := strip s in
  let v := match t with
           | String c r =>
               if Ascii.eqb c "+" then digits_value 0 false r
               else if Ascii.eqb c "-" then Z.opp <$> digits_value 0 false r
               else digits_value 0 false t
           | EmptyString => None
           end in
  match v with
  | Some z => Ok z
  | None =>
      Raise (Exn ValueErrorC
               ("invalid literal for int() with base 10: '" +:+ s +:+ "'"))
  end.

(** [[int(p) for p in l]] *)
Fixpoint ints (l : list string) : res (list Z) :=
  match l with
  | [] => Ok []
  | p :: rest =>
      match py_int p with
      | Raise x => Raise x
      | Ok z => match ints rest with
                | Raise x => Raise x
                | Ok zs => Ok (z :: zs)
                end
      end
  end.

(** [":" in s] *)
Fixpoint has_colon (s : string) : bool :=
  match s with
  | EmptyString => false
  | String c s' => Ascii.eqb c ":" || has_colon s'
  end.

(** [s.split(":", 1)] on a string that contains a colon. *)
Fixpoint split_colon_once (s : string) : string * string :=
  match s with
  | EmptyString => (EmptyString, EmptyString)
  | String c s' =>
      if Ascii.eqb c ":" then (EmptyString, s')
      else let '(u, p) := split_colon_once s' in (String c u, p)
  end.

(** What [main] takes from the operating system: the lines of a file as
    iteration over it yields them (or the exception [open] raises),
    [os.path.isfile], the FileZilla parser, and what the writer of each
    kind of report meets when it writes its file. *)
Record os : Type := OS {
  open_lines : string → res (list string);
  isfile : string → bool;
  parse_filezilla_xml : string → res (list dict);
  files : string → AdvancedFTPChecker.files
}.

(** [read_wordlist], lines 610-617. *)
Definition read_wordlist (O : os) (file_path : string) : list string :=
  match open_lines O file_path with
  | Ok lines =>
      map strip
        (List.filter (λ line, nonempty (strip line) && negb (startswith "#" line))
           lines)
  | Raise _ => []
  end.

Module Main.

(** The namespace [argparse] returns. *)
Record args : Type := Args {
  filezilla_xml : option string;
  host : option string;
  brute_force : bool;
  port : option Z;
  username : option string;
  password : option string;
  protocol : Z;
  user_list : option string;
  pass_list : option string;
  combo_list : option string;
  port_list : option string;
  timeout : Z;
  max_workers : Z;
  check_path : option string;
  txt : option string;
  xml : option string;
  json : option string;
  csv : option string
}.

(** Truthiness of an optional string argument. *)
Definition given (o : option string) : option string :=
  match o with
  | Some s => if nonempty s then Some s else None
  | None => None
  end.

(** [args.port if args.port else (21 if args.protocol == 0 else 22)] *)
Definition default_port (A : args) : Z :=
  match port A with
  | Some p => if p =? 0 then (if protocol A =? 0 then 21 else 22) else p
  | None => if protocol A =? 0 then 21 else 22
  end.

(** Lines 669-685. *)
Definition load_usernames (O : os) (A : args) : list string :=
  match given (user_list A), given (username A) with
  | Some f, _ => read_wordlist O f
  | None, Some u => [u]
  | None, None => ["anonymous"; "ftp"; "admin"; "root"; "guest"]
  end.

Definition load_passwords (O : os) (A : args) : list string :=
  match given (pass_list A), given (password A) with
  | Some f, _ => read_wordlist O f
  | None, Some p => [p]
  | None, None =>
      ["anonymous"; "ftp"; "admin"; "root"; "guest"; "123456"; "password";
       EmptyString]
  end.

(** The loop of lines 691-695 over the combo lines, appending to both
    lists. *)
Definition load_combos (combos : list string) : list string * list string :=
  fold_left
    (λ '(usernames, passwords) combo,
       if has_colon combo then
         let '(u, p) := split_colon_once combo in
         ((usernames ++ [strip u])%list, (passwords ++ [strip p])%list)
       else (usernames, passwords))
    combos ([], []).

(** Lines 697-704. *)
Definition load_ports (O : os) (A : args) : res (list Z) :=
  match given (port_list A) with
  | Some pl =>
      if isfile O pl then ints (read_wordlist O pl)
      else ints (List.filter (λ p, isdigit (strip p)) (split_on "," pl))
  | None => Ok [default_port A]
  end.

(** What the configuration stage of [main] decides. *)
Inductive plan : Type :=
| Exit (status : Z)
| Uncaught (e : exn)
| RunBruteForce (brute : BruteForcer.t)
    (usernames passwords : list string) (ports : list Z)
| RunCheckServers (servers : list dict) (max_workers : Z)
    (check_path : option string) (timeout : Z).

(** Lines 663-740 up to the call of the scheduler. *)
Definition configure (O : os) (A : args) : plan :=
  if brute_force A then
    match given (host A) with
    | None => Exit 1
    | Some h =>
        let '(usernames, passwords) :=
          match given (combo_list A) with
          | Some f => load_combos (read_wordlist O f)
          | None => (load_usernames O A, load_passwords O A)
          end in
        match load_ports O A with
        | Raise e => Uncaught e
        | Ok ports =>
            RunBruteForce
              (BruteForcer.Self h (protocol A) (timeout A) (max_workers A)
                 (check_path A))
              usernames passwords ports
        end
    end
  else
    match given (filezilla_xml A) with
    | Some f =>
        match parse_filezilla_xml O f with
        | Raise _ => Exit 1
        | Ok servers =>
            RunCheckServers servers (max_workers A) (check_path A) (timeout A)
        end
    | None =>
        match given (host A) with
        | Some h =>
            match given (username A), given (password A) with
            | Some u, Some p =>
                RunCheckServers
                  [ <["host" := VStr h]> (
                    <["port" := VInt (default_port A)]> (
                    <["protocol" := VInt (protocol A)]> (
                    <["username" := VStr u]> (
                    <["password" := VStr p]> ∅)))) ]
                  (max_workers A) (check_path A) (timeout A)
            | _, _ => Exit 1
            end
        | None => Exit 1
        end
    end.

(** How a run ends: [sys.exit(status)], an uncaught exception (the
    interpreter prints the traceback and exits with status 1), or the end
    of [main]. *)
Inductive ending : Type :=
| Exited (status : Z)
| Crashed (e : exn)
| Finished.

(** The exit status the operator sees. *)
Definition exit_status (e : ending) : Z :=
  match e with
  | Exited n => n
  | Crashed _ => 1
  | Finished => 0
  end.

(** One of the four [if args.<kind>: adv_checker.save_results(...)]. *)
Definition save_kind (O : os) (results : list dict) (now : string → string)
    (kind : string) (arg : option string)
    : M (list AdvancedFTPChecker.report) unit :=
  match given arg with
  | Some f =>
      AdvancedFTPChecker.save_results (files O kind) results (now kind) kind
        (Some f)
  | None => ret tt
  end.

(** Lines 742-752. *)
Definition save_all (O : os) (A : args) (results : list dict)
    (now : string → string) : M (list AdvancedFTPChecker.report) unit :=
  save_kind O results now "txt" (txt A);;;
  save_kind O results now "xml" (xml A);;;
  save_kind O results now "json" (json A);;;
  save_kind O results now "csv" (csv A).

(** [main]: how the run ends, [results] as far as it got, and the reports
    handed over; [now fmt] is the clock reading taken by the writer of
    [fmt]. *)
Definition main (O : os) (W : world) (now : string → string) (A : args)
    : ending * list dict * list AdvancedFTPChecker.report :=
  let scheduled :=
    match configure O A with
    | Exit n => inl (Exited n)
    | Uncaught e => inl (Crashed e)
    | RunBruteForce brute usernames passwords ports =>
        inr (BruteForcer.brute_force W brute usernames passwords (Some ports)
               (Run [] []))
    | RunCheckServers servers max_workers check_path timeout =>
        inr (AdvancedFTPChecker.check_servers W servers max_workers check_path
               timeout (Run [] []))
    end in
  match scheduled with
  | inl e => (e, [], [])
  | inr (Raise e, s) => (Crashed e, results s, [])
  | inr (Ok results, _) =>
      match save_all O A results now [] with
      | (Ok _, written) => (Finished, results, written)
      | (Raise e, written) => (Crashed e, results, written)
      end
  end.

End Main.

(** ** Checker instances as objects

    [check] returns [self.results] itself, not a copy.  To speak about what
    a caller still holds after later calls, instances live in a heap: an
    instance is its attributes and the address of its [results]
    dictionary. *)

Module Object.

Abbreviation heap := (gmap positive dict).

(** An instance: its plain attributes, and the reference its attribute
    [results] holds. *)
Record instance : Type := Instance {
  attrs : checker;
  self_results : positive
}.

(** [FTPChecker(...)] and [SFTPChecker(...)]: a new dictionary at an
    address not in use. *)
Definition FTPChecker_new (a : checker) (now : string) (h : heap)
    : instance * heap :=
  let l := fresh (dom h) in
  (Instance a l, <[l := FTPChecker.__init__ a now]> h).

Definition SFTPChecker_new (a : checker) (now : string) (h : heap)
    : instance * heap :=
  let l := fresh (dom h) in
  (Instance a l, <[l := SFTPChecker.__init__ a now]> h).

(** Code that reads and updates the dictionary [self.results] refers to,
    run on the heap: what it does to the dictionary is done to the object
    at that address. *)
Definition on_self_results {A} (self : instance) (m : M dict A) : M heap A :=
  λ h, match h !! self_results self with
       | Some d =>
           match m d with
           | (r, d') => (r, <[self_results self := d']> h)
           end
       | None => (Raise (Exn OtherException "dangling reference"), h)
       end.

(** The expression [self.results]: the reference the attribute holds. *)
Definition attr_results {S} (self : instance) : M S positive :=
  ret (self_results self).

(** [check] as a method: its statements act on the dictionary behind
    [self.results], and its last line, [return self.results], returns the
    reference. *)
Definition FTPChecker_check (L : FTPChecker.lib) (self : instance)
    : M heap positive :=
  on_self_results self (FTPChecker.check_then L (attrs self) (attr_results self)).

Definition SFTPChecker_check (L : SFTPChecker.lib) (self : instance)
    : M heap positive :=
  on_self_results self (SFTPChecker.check_then L (attrs self) (attr_results self)).

End Object.

(** ** The FileZilla parser *)

Module FileZillaParser.

(** An element of the tree [ET.parse] builds: its tag, its attributes, its
    [.text] ([None] for an element without character data) and its
    children. *)
Inductive element : Type :=
| Element (tag : string) (attrib : gmap string string) (text : option string)
    (children : list element).

Definition tag (e : element) : string :=
  match e with Element t _ _ _ => t end.

Definition attrib (e : element) : gmap string string :=
  match e with Element _ a _ _ => a end.

Definition text (e : element) : pyval :=
  match e with
  | Element _ _ (Some s) _ => VStr s
  | Element _ _ None _ => VNone
  end.

Definition children (e : element) : list element :=
  match e with Element _ _ _ cs => cs end.

(** What the parser takes from the libraries: the root of the tree
    [ET.parse] builds from a file, or the exception it raises, and the
    outcome of [base64.b64decode(s).decode('utf-8')]. *)
Record lib : Type := Lib {
  ET_parse : string → res element;
  b64decode_utf8 : string → res string
}.

(** [elem.iter()]: the element and its descendants, in document order. *)
Fixpoint iter (e : element) : list element :=
  match e with
  | Element _ _ _ cs => e :: flat_map iter cs
  end.

(** [root.findall('.//' + t)]: the descendants of [root] with tag [t], in
    document order; [root] itself is not among them. *)
Definition findall (root : element) (t : string) : list element :=
  List.filter (λ e, String.eqb (tag e) t) (flat_map iter (children root)).

(** [elem.find(t)]: the first child with tag [t], or [None]. *)
Definition find (e : element) (t : string) : option element :=
  List.find (λ c, String.eqb (tag c) t) (children e).

(** [elem.get(k, default)] on the attributes. *)
Definition attrib_get (e : element) (k default : string) : string :=
  match attrib e !! k with
  | Some v => v
  | None => default
  end.

(** [int(v)] for the [.text] of an element: a string is read as an integer
    literal, [None] is a [TypeError]. *)
Definition int_of (v : pyval) : res Z :=
  match v with
  | VStr s => py_int s
  | VInt z => Ok z
  | VBool b => Ok (if b then 1 else 0)
  | VFloat h => Ok (Z.quot h 100)
  | VNone =>
      Raise (TypeError
               ("int() argument must be a string, a bytes-like object or a "
                +:+ "real number, not 'NoneType'"))
  | VList _ =>
      Raise (TypeError
               ("int() argument must be a string, a bytes-like object or a "
                +:+ "real number, not 'list'"))
  end.

(** [base64.b64decode(v).decode('utf-8')]. *)
Definition b64decode (L : lib) (v : pyval) : res string :=
  match v with
  | VStr s => b64decode_utf8 L s
  | _ =>
      Raise (TypeError "argument should be a bytes-like object or ASCII string")
  end.

(** [server_elem.find(t).text if server_elem.find(t) is not None else
    default]. *)
Definition child_text (server_elem : element) (t : string) (default : pyval)
    : pyval :=
  match find server_elem t with
  | Some c => text c
  | None => default
  end.

(** [int(server_elem.find(t).text) if server_elem.find(t) is not None else
    default]. *)
Definition child_int (server_elem : element) (t : string) (default : Z)
    : res Z :=
  match find server_elem t with
  | Some c => int_of (text c)
  | None => Ok default
  end.

(** The body of the loop, lines 53-80, on the dictionary [server]. *)
Definition server_record (L : lib) (server_elem : element) : M dict unit :=
  setitem "host" (child_text server_elem "Host" VNone);;;
  port <- call (child_int server_elem "Port" 21);;
  setitem "port" (VInt port);;;
  protocol <- call (child_int server_elem "Protocol" 0);;
  setitem "protocol" (VInt protocol);;;
  setitem "username" (child_text server_elem "User" VNone);;;
  match find server_elem "Pass" with
  | Some pass_elem =>
      let encoding := attrib_get pass_elem "encoding" EmptyString in
      let password := text pass_elem in
      if String.eqb encoding "base64" && truthy password then
        try_except
          (decoded <- call (b64decode L password);;
           setitem "password" (VStr decoded))
          any_exception
          (λ _, setitem "password" password)
      else setitem "password" password
  | None => setitem "password" VNone
  end;;;
  server <- get;;
  u <- call (getitem server "username");;
  h <- call (getitem server "host");;
  p <- call (getitem server "port");;
  setitem "name" (VStr (py_str u +:+ "@" +:+ py_str h +:+ ":" +:+ py_str p));;;
  server <- get;;
  proto <- call (getitem server "protocol");;
  setitem "type" (VStr (if py_eq_int proto 0 then "FTP" else "SFTP"));;;
  setitem "logontype" (child_text server_elem "Logontype" (VStr "1")).

(** [server = {}] followed by the body. *)
Definition new_server (L : lib) (server_elem : element) : res dict :=
  match server_record L server_elem ∅ with
  | (Ok _, server) => Ok server
  | (Raise e, _) => Raise e
  end.

(** The body of the [try], lines 46-84, on the list [servers]. *)
Definition parse (L : lib) (xml_file : string) : M (list dict) (list dict) :=
  root <- call (ET_parse L xml_file);;
  for_each (findall root "Server")
    (λ server_elem,
       server <- call (new_server L server_elem);;
       modify (λ servers, (servers ++ [server])%list));;;
  get.

(** [parse_filezilla_xml], lines 43-88: whatever the body raises is raised
    again as a plain [Exception] whose text names the cause.  The two lines
    the handler writes to the log and to the console are not part of the
    outcome. *)
Definition parse_filezilla_xml (L : lib) (xml_file : string) : res (list dict) :=
  fst (try_except (parse L xml_file) any_exception
         (λ e, raise (Exn OtherException
                        ("Error parsing FileZilla XML: " +:+ exn_str e)))
         []).

End FileZillaParser.

(** The operating system as [main] sees it when the parser runs on the
    libraries [L]. *)
Definition os_with_parser (L : FileZillaParser.lib)
    (open_lines : string → res (list string)) (isfile : string → bool)
    (files : string → AdvancedFTPChecker.files) : os :=
  OS open_lines isfile (FileZillaParser.parse_filezilla_xml L) files.

(** ** Predicates on records *)

(** The keys [check] assigns to with [self.results[k] = ...]. *)
Definition written (k : string) : bool :=
  bool_decide (k ∈ [ "connection_time"; "connection"; "welcome_message";
                     "auth_time"; "authentication"; "features";
                     "path_exists"; "path_type"; "path_check_time";
                     "total_time" ]).

(** The keys assigned inside the FEAT block and the path check (and, before
    them, the banner). *)
Definition block_written (k : string) : bool :=
  bool_decide (k ∈ [ "welcome_message"; "features"; "path_exists";
                     "path_type"; "path_check_time" ]).

(** [self.results['errors']] is a list. *)
Definition errors_is_list (d : dict) : Prop :=
  ∃ l, d !! "errors" = Some (VList l).

(** The boolean field [k] of a record is [True]. *)
Definition flag (k : string) (d : dict) : Prop := d !! k = Some (VBool true).

(** Either authentication has not succeeded, or both stages have. *)
Definition flags_ok (d : dict) : Prop :=
  d !! "authentication" = Some (VBool false) ∨
  (flag "connection" d ∧ flag "authentication" d).

(** The connection stage has succeeded. *)
Definition connected (d : dict) : Prop :=
  flag "connection" d ∧
  (d !! "authentication" = Some (VBool false) ∨ flag "authentication" d).

(** Both stages have succeeded. *)
Definition both_flags (d : dict) : Prop :=
  flag "connection" d ∧ flag "authentication" d.

(** A failed probe is visible in the record: unless connection and
    authentication both succeeded, [authentication] is [False] and
    [errors] has an entry. *)
Definition captured (r : dict) : Prop :=
  (flag "connection" r ∧ flag "authentication" r) ∨
  (r !! "authentication" = Some (VBool false) ∧
   ∃ l msg, r !! "errors" = Some (VList (l ++ [msg]))).

(** The invariant of the data model. *)
Definition auth_implies_conn (d : dict) : Prop :=
  flag "authentication" d → flag "connection" d.

(** A probe that failed outright, and the record built for an invocation
    that raised: both flags [False] and exactly one entry in [errors]. *)
Definition failed_with_one_error (d : dict) : Prop :=
  d !! "connection" = Some (VBool false) ∧
  d !! "authentication" = Some (VBool false) ∧
  ∃ msg, d !! "errors" = Some (VList [msg]).

(** A property of result records that no assignment to a key accepted by
    [keys] and no [errors.append] can break. *)
Definition update_closed (keys : string → bool) (P : dict → Prop) : Prop :=
  (∀ k v d, keys k = true → P d → P (<[k := v]> d)) ∧
  (∀ msg l d, d !! "errors" = Some (VList l) → P d →
              P (<["errors" := VList (l ++ [msg])]> d)).

(** What holds of the value [check] returns: it is the store itself, its
    flags are consistent and a failure that ended the probe is recorded. *)
Definition returned (r : res dict) (d : dict) : Prop :=
  r = Ok d ∧ errors_is_list d ∧ flags_ok d ∧ captured d
  ∧ is_Some (d !! "total_time").

(** What holds of the outcome of [SFTPChecker.check]: it can only raise
    what [ssh.close()] raised, and what it returns is as for FTP. *)
Definition returned_unless_close (L : SFTPChecker.lib) (r : res dict) (d : dict)
    : Prop :=
  (SFTPChecker.ssh_close L = Ok tt → ∃ a, r = Ok a) ∧
  (∀ a, r = Ok a → returned r d).

(** [errors] holds the entries [es], followed by whatever was appended
    since. *)
Definition errors_extend (es : list string) (d : dict) : Prop :=
  ∃ es', d !! "errors" = Some (VList (es ++ es')).

(** ** Predicates on computations *)

(** [wp m Q s]: running [m] from [s] ends in an outcome and a store the
    postcondition [Q] accepts. *)
Definition wp {S A} (m : M S A) (Q : res A → S → Prop) (s : S) : Prop :=
  Q (m s).1 (m s).2.

(** [preserves P m]: whatever [m] does, and however it ends, it keeps the
    store inside [P]. *)
Definition preserves {S A} (P : S → Prop) (m : M S A) : Prop :=
  ∀ s, P s → P (m s).2.

(** ** Vocabulary of the scheduler statements *)

(** The dictionary has every key of [ks]. *)
Definition has_keys (ks : list string) (d : dict) : Prop :=
  Forall (λ k, is_Some (d !! k)) ks.

(** The keys of a combination built by [brute_force], and those of a server
    record as the FileZilla parser builds it (of which the schedulers read
    these). *)
Definition combo_keys : list string :=
  ["host"; "port"; "username"; "password"; "protocol"].

Definition server_keys : list string :=
  ["host"; "port"; "username"; "password"; "protocol"; "type"].

(** A record in which the collecting loops find what they read. *)
Definition readable (r : dict) : Prop :=
  errors_is_list r ∧
  has_keys ["connection"; "authentication"; "connection_time"; "auth_time"] r.

(** A future whose descriptor has the keys [keys] and whose record, if the
    invocation returned one, is readable. *)
Definition wf_future (keys : list string) (f : future) : Prop :=
  has_keys keys (descriptor f) ∧ ∀ r, outcome f = Ok r → readable r.


(** The record the collecting loop appends in its [i]-th iteration, in
    which [as_completed] yields the future [f]: the record the checker
    returned, or, when the invocation raised, the record built from the
    descriptor in the [except] clause. *)
Definition collected (W : world) (i : nat) (f : future) (r : dict) : Prop :=
  match outcome f with
  | Ok x => r = x
  | Raise e => error_result (descriptor f) (now_collect W i) e = Ok r
  end.

(** The invocation [brute_force] submits as its [j]-th future, for the
    combination of [port], [username] and [password]: [check] on a new
    [FTPChecker] when the protocol is 0, on a new [SFTPChecker]
    otherwise. *)
Definition probe (W : world) (self : BruteForcer.t) (j : nat) (port : Z)
    (username password : string) : res dict :=
  let inst := Checker (VStr (BruteForcer.host self)) (VStr username)
                (VStr password) (VInt port) (BruteForcer.timeout self)
                (BruteForcer.check_path self) in
  if BruteForcer.protocol self =? 0
  then submit_FTP W j inst else submit_SFTP W j inst.

(** The future [f] is the [j]-th that [check_servers] submitted: its
    outcome is that of [check] on a new checker of the protocol, built from
    the fields of its server record. *)
Definition server_probe (W : world) (timeout : Z) (check_path : option string)
    (j : nat) (f : future) : Prop :=
  ∃ h u pw p proto,
    descriptor f !! "host" = Some h ∧ descriptor f !! "username" = Some u
    ∧ descriptor f !! "password" = Some pw ∧ descriptor f !! "port" = Some p
    ∧ descriptor f !! "protocol" = Some proto
    ∧ outcome f = if py_eq_int proto 0
                  then submit_FTP W j (Checker h u pw p timeout check_path)
                  else submit_SFTP W j (Checker h u pw p timeout check_path).

(** How [main] ends after its last stage, the report writers. *)
Definition ending_of (r : res unit) : Main.ending :=
  match r with
  | Ok _ => Main.Finished
  | Raise e => Main.Crashed e
  end.

(** The servers [check_servers] submits: protocol 0 or 1. *)
Definition supported (server : dict) : bool :=
  match server !! "protocol" with
  | Some proto => py_eq_int proto 0 || py_eq_int proto 1
  | None => false
  end.

(** The combinations in the words of the specification: for each port, for
    each username, for each password, one descriptor. *)
Definition cross_product (self : BruteForcer.t) (ports : list Z)
    (usernames passwords : list string) : list dict :=
  flat_map (λ port,
    flat_map (λ username,
      map (λ password, BruteForcer.combo self port username password) passwords)
      usernames)
    ports.

(** ** Shapes of records *)

(** The keys of a record built for a failed invocation, the keys only a
    checker's record has, and the keys of a checker's record. *)
Definition error_keys : gset string :=
  list_to_set ["host"; "port"; "username"; "protocol"; "timestamp";
               "connection"; "authentication"; "errors"].

Definition checker_only_keys : gset string :=
  list_to_set ["connection_time"; "auth_time"; "path_exists"; "path_type";
               "path_check_time"; "welcome_message"; "features"; "total_time"].

Definition checker_keys : gset string := error_keys ∪ checker_only_keys.

(** The keys [__init__] puts in [self.results]: all but [total_time]. *)
Definition init_keys : gset string := checker_keys ∖ {["total_time"]}.

(** The keys of a record are between those of [__init__] and those of a
    finished check. *)
Definition checker_shaped (d : dict) : Prop :=
  init_keys ⊆ dom d ∧ dom d ⊆ checker_keys.

(** The dictionary of an outcome that is known to be [Ok]. *)
Definition result_of (r : res dict) : dict :=
  match r with
  | Ok d => d
  | Raise _ => ∅
  end.

(** ** Vocabulary of the report statements *)

(** A result counts as successful. *)
Definition is_success (r : dict) : bool :=
  truthy (dict_get r "connection" VNone)
  && truthy (dict_get r "authentication" VNone).

(** The header block of the text report, line by line. *)
Definition txt_header_lines (now : string) (total successful : Z) : list string :=
  [ "Advanced FTP/SFTP Check Results" +:+ nl;
    "==============================" +:+ nl;
    "Generated: " +:+ now +:+ nl;
    "Total servers: " +:+ str_of_Z total +:+ nl +:+ nl;
    "Successful connections: " +:+ str_of_Z successful +:+ nl;
    "Failed connections: " +:+ str_of_Z (total - successful) +:+ nl +:+ nl ].

Definition txt_header_text (now : string) (total successful : Z) : string :=
  fold_left String.append (txt_header_lines now total successful) EmptyString.

(** The header block of the XML report: the first children of the root. *)
Definition xml_header_elements (now : string) (total successful : Z)
    : list AdvancedFTPChecker.xml :=
  [ AdvancedFTPChecker.Element "timestamp" (VStr now) [];
    AdvancedFTPChecker.Element "total_servers" (VStr (str_of_Z total)) [];
    AdvancedFTPChecker.Element "successful_connections" (VStr (str_of_Z successful)) [];
    AdvancedFTPChecker.Element "failed_connections" (VStr (str_of_Z (total - successful))) [] ].

(** [needle in hay] for strings. *)
Fixpoint contains (needle hay : string) : bool :=
  String.prefix needle hay
  || match hay with
     | EmptyString => false
     | String _ rest => contains needle rest
     end.

(** Some cell of the CSV rows shows the text [needle]. *)
Definition csv_mentions (needle : string) (rows : list (list pyval)) : bool :=
  existsb (existsb (λ cell, contains needle (py_str cell))) rows.

(** ** Concrete probes, library behaviours and worlds *)

(** An anonymous probe of [ftp.example.test:21], no path to check. *)
Definition anonymous_probe : checker :=
  Checker (VStr "ftp.example.test") (VStr "anonymous") (VStr EmptyString)
    (VInt 21) 10 None.

(** An FTP server that accepts the login and rejects [FEAT] with a
    permanent error. *)
Definition ftp_without_FEAT : FTPChecker.lib :=
  FTPChecker.Lib (Ok tt) (Ok tt) (Ok "220 ready") (Ok tt)
    (Raise (Exn FtpErrorPerm "500 Unknown command")) (Ok EmptyString)
    (Ok EmptyString) (λ _, Ok tt) (λ _, Ok tt) (Ok []) (Ok tt)
    1234 500 0 2000.

(** An unreachable FTP host: [connect] times out. *)
Definition ftp_unreachable : FTPChecker.lib :=
  FTPChecker.Lib (Ok tt) (Raise (Exn SocketTimeout "timed out")) (Ok EmptyString)
    (Ok tt) (Ok tt) (Ok EmptyString) (Ok EmptyString)
    (λ _, Ok tt) (λ _, Ok tt) (Ok []) (Ok tt) 0 0 0 1000000.

(** An SSH server that rejects the password. *)
Definition sftp_wrong_password : SFTPChecker.lib :=
  SFTPChecker.Lib (Ok tt) (Ok tt)
    (Raise (Exn AuthenticationException "Authentication failed."))
    (Ok tt) (λ _, Ok None) (Ok tt) (Ok tt) 0 0 300.

(** An SSH server that accepts the login, after which [ssh.close()]
    raises. *)
Definition sftp_close_raises : SFTPChecker.lib :=
  SFTPChecker.Lib (Ok tt) (Ok tt) (Ok tt) (Ok tt) (λ _, Ok None) (Ok tt)
    (Raise (Exn OSErrorPlain "Socket is closed")) 100 0 300.

(** The record [FTPChecker.check] leaves at [ftp_without_FEAT]. *)
Definition without_FEAT_result : dict :=
  (FTPChecker.check ftp_without_FEAT anonymous_probe
     (FTPChecker.__init__ anonymous_probe "2024-01-01T00:00:00")).2.

(** The record [SFTPChecker.check] leaves at [sftp_wrong_password]. *)
Definition wrong_password_result : dict :=
  (SFTPChecker.check sftp_wrong_password anonymous_probe
     (SFTPChecker.__init__ anonymous_probe "2024-01-01T00:00:00")).2.

(** A world in which every FTP host is unreachable, every SSH server
    rejects the password, and futures complete in the reverse of the
    submission order. *)
Definition reversed_world : world :=
  World (λ _, ftp_unreachable) (λ _, sftp_wrong_password)
    (λ _, "2024-01-01T00:00:00") (λ _, "2024-01-01T00:00:01") reverse.

(** A world in which the first SSH server rejects the password and, on
    every later one, the login succeeds and [ssh.close()] raises. *)
Definition flaky_world : world :=
  World (λ _, ftp_unreachable)
    (λ j, match j with O => sftp_wrong_password | _ => sftp_close_raises end)
    (λ _, "2024-01-01T00:00:00") (λ _, "2024-01-01T00:00:01") reverse.

(** A brute-force search over SFTP. *)
Definition sftp_search : BruteForcer.t :=
  BruteForcer.Self "ftp.example.test" 1 10 5 None.

(** The same, except that every [ssh.close()] raises. *)
Definition closing_world : world :=
  World (λ _, ftp_unreachable) (λ _, sftp_close_raises)
    (λ _, "2024-01-01T00:00:00") (λ _, "2024-01-01T00:00:01") reverse.

(** Scenario D of the specification: one host, FTP, five workers. *)
Definition scenario_D : BruteForcer.t :=
  BruteForcer.Self "ftp.example.test" 0 10 5 None.

(** A FileZilla entry for an implicit-TLS server (protocol 3), as
    [parse_filezilla_xml] builds it. *)
Definition ftps_server : dict :=
  <["host" := VStr "ftps.example.test"]> (
  <["port" := VInt 990]> (
  <["protocol" := VInt 3]> (
  <["username" := VStr "admin"]> (
  <["password" := VStr "secret"]> (
  <["name" := VStr "admin@ftps.example.test:990"]> (
  <["type" := VStr "SFTP"]> (
  <["logontype" := VStr "1"]> ∅))))))).

(** The two records of the search of [sftp_search] for [admin] and [root]
    with the password [1234] in [flaky_world]: the one [SFTPChecker.check]
    returns for [admin], and the one built when the probe of [root]
    raises. *)
Definition wrong_password_admin : dict :=
  (SFTPChecker.check sftp_wrong_password
     (Checker (VStr "ftp.example.test") (VStr "admin") (VStr "1234") (VInt 22)
        10 None)
     (SFTPChecker.__init__
        (Checker (VStr "ftp.example.test") (VStr "admin") (VStr "1234")
           (VInt 22) 10 None)
        "2024-01-01T00:00:00")).2.

Definition root_error_record : dict :=
  <["host" := VStr "ftp.example.test"]> (
  <["port" := VInt 22]> (
  <["username" := VStr "root"]> (
  <["protocol" := VStr "SFTP"]> (
  <["timestamp" := VStr "2024-01-01T00:00:01"]> (
  <["connection" := VBool false]> (
  <["authentication" := VBool false]> (
  <["errors" := VList ["Check failed: Socket is closed"]]> ∅))))))).

(** The record built when the probe of [admin:1234] raises. *)
Definition admin_error_record : dict :=
  result_of (error_result (BruteForcer.combo scenario_D 21 "admin" "1234")
               "2024-01-01T00:00:01" (Exn OSErrorPlain "Socket is closed")).

(** ** Concrete heaps: two checks on one instance *)

(** A first [FTPChecker] in an empty heap, and the heap after one and after
    two calls of its [check] against an unreachable host. *)
Definition first_instance : Object.instance * Object.heap :=
  Object.FTPChecker_new anonymous_probe "2024-01-01T00:00:00" ∅.

Definition after_first_check : res positive * Object.heap :=
  Object.FTPChecker_check ftp_unreachable first_instance.1 first_instance.2.

Definition after_second_check : res positive * Object.heap :=
  Object.FTPChecker_check ftp_unreachable first_instance.1 after_first_check.2.

(** [errors] of the record at an address. *)
Definition errors_at (h : Object.heap) (l : positive) : option pyval :=
  h !! l ≫= λ d, d !! "errors".

(** ** Concrete command lines and file systems *)

(** A directory in which every report can be written: each file
    operation of a writer returns. *)
Definition writable : AdvancedFTPChecker.files :=
  AdvancedFTPChecker.Files (λ _, Ok tt) (λ _, Ok tt) (Ok tt)
    (λ _, Ok EmptyString) (λ _, Ok tt) (λ _ _, Ok tt).

(** A file system without files, in which files can be created. *)
Definition empty_os : os :=
  OS (λ _, Raise (Exn OSErrorPlain "No such file or directory"))
     (λ _, false)
     (λ _, Raise (Exn OSErrorPlain "No such file or directory"))
     (λ _, writable).

(** A file system with one readable file, [combos.txt], of two lines. *)
Definition combo_file_os : os :=
  OS (λ path, if String.eqb path "combos.txt"
              then Ok ["alice:wonderland" +:+ nl; "bob:builder" +:+ nl]
              else Raise (Exn OSErrorPlain "No such file or directory"))
     (λ _, false)
     (λ _, Raise (Exn OSErrorPlain "No such file or directory"))
     (λ _, writable).

(** Every writer reads the same clock value. *)
Definition frozen_clock : string → string := λ _, "2024-01-01T00:01:00".

(** [--brute-force --host ftp.example.test --combo-list combos.txt] *)
Definition combo_list_args : Main.args :=
  Main.Args None (Some "ftp.example.test") true None None None 0
    None None (Some "combos.txt") None 10 5 None None None None None.

(** [--brute-force --host ftp.example.test --protocol 1 --username admin
    --password 1234 --txt report.txt] *)
Definition sftp_txt_args : Main.args :=
  Main.Args None (Some "ftp.example.test") true None (Some "admin")
    (Some "1234") 1 None None None None 10 5 None (Some "report.txt")
    None None None.

(** [--host ftp.example.test --username admin --password secret] *)
Definition single_host_args : Main.args :=
  Main.Args None (Some "ftp.example.test") false None (Some "admin")
    (Some "secret") 0 None None None None 10 5 None None None None None.





(** ** Vocabulary of the configuration statements *)




(** ** Vocabulary of the parser statements *)

(** The keys of a server record as the parser builds it. *)
Definition parser_keys : gset string :=
  list_to_set ["host"; "port"; "protocol"; "username"; "password"; "name";
               "type"; "logontype"].

(** The [Port] and the [Protocol] child of a [Server] element, where
    present, hold integer literals. *)
Definition numeric (e : FileZillaParser.element) : bool :=
  match FileZillaParser.child_int e "Port" 21,
        FileZillaParser.child_int e "Protocol" 0 with
  | Ok _, Ok _ => true
  | _, _ => false
  end.

(** A value that is a string or [None]. *)
Definition str_or_None (v : pyval) : bool :=
  match v with
  | VStr _ | VNone => true
  | _ => false
  end.

(** The shape of a server record: the eight keys, integers for the port and
    the protocol, the type derived from the protocol, the name put together
    from the record's own fields, and strings or [None] elsewhere. *)
Definition parsed_record (r : dict) : Prop :=
  dom r = parser_keys
  ∧ (∃ h u pw lt,
       r !! "host" = Some h ∧ r !! "username" = Some u
       ∧ r !! "password" = Some pw ∧ r !! "logontype" = Some lt
       ∧ str_or_None h = true ∧ str_or_None u = true
       ∧ str_or_None pw = true ∧ str_or_None lt = true
       ∧ ∃ p q,
           r !! "port" = Some (VInt p) ∧ r !! "protocol" = Some (VInt q)
           ∧ r !! "type" = Some (VStr (if q =? 0 then "FTP" else "SFTP"))
           ∧ r !! "name"
             = Some (VStr (py_str u +:+ "@" +:+ py_str h +:+ ":" +:+ str_of_Z p))).

(** ** A FileZilla export *)

(** An element with text and nothing else. *)
Definition leaf (tag text : string) : FileZillaParser.element :=
  FileZillaParser.Element tag ∅ (Some text) [].

(** The tree of a file [sites.xml] with two sites: an FTP site with a
    base64 password, and, in a folder, an SFTP site without a [Port]. *)
Definition sites_xml : FileZillaParser.element :=
  FileZillaParser.Element "FileZilla3" ∅ None
    [ FileZillaParser.Element "Servers" ∅ None
        [ FileZillaParser.Element "Server" ∅ None
            [ leaf "Host" "ftp.example.test";
              leaf "Port" "21";
              leaf "Protocol" "0";
              leaf "User" "admin";
              FileZillaParser.Element "Pass" {[ "encoding" := "base64" ]}
                (Some "c2VjcmV0") [];
              leaf "Logontype" "1" ];
          FileZillaParser.Element "Folder" ∅ (Some "backup")
            [ FileZillaParser.Element "Server" ∅ None
                [ leaf "Host" "sftp.example.test";
                  leaf "Protocol" "1";
                  leaf "User" "root";
                  leaf "Pass" "toor" ] ] ] ].

(** The libraries over a file system that holds [sites.xml] only. *)
Definition sites_lib : FileZillaParser.lib :=
  FileZillaParser.Lib
    (λ f, if String.eqb f "sites.xml" then Ok sites_xml
          else Raise (Exn OSErrorPlain
                        ("[Errno 2] No such file or directory: '" +:+ f +:+ "'")))
    (λ s, if String.eqb s "c2VjcmV0" then Ok "secret"
          else Raise (Exn ValueErrorC "Incorrect padding")).

(** The second site of [sites.xml]. *)
Definition sftp_site : FileZillaParser.element :=
  FileZillaParser.Element "Server" ∅ None
    [ leaf "Host" "sftp.example.test";
      leaf "Protocol" "1";
      leaf "User" "root";
      leaf "Pass" "toor" ].

(** [--filezilla-xml sites.xml] *)
Definition sites_args : Main.args :=
  Main.Args (Some "sites.xml") None false None None None 0
    None None None None 10 5 None None None None None.

(** ** Vocabulary of the path check *)

(** [parent_dir] and [filename] as lines 169-170 compute them from
    [self.check_path]. *)
Definition parent_dir (check_path : string) : string :=
  let j := join "/" (drop_last (split_on "/" check_path)) in
  if nonempty j then j else "/".

Definition filename (check_path : string) : string :=
  last_piece (split_on "/" check_path).

(** [c in s] for a character. *)
Fixpoint has_char (c : ascii) (s : string) : bool :=
  match s with
  | EmptyString => false
  | String c' s' => Ascii.eqb c' c || has_char c s'
  end.

(** The three path fields are as [__init__] left them. *)
Definition path_untouched (d : dict) : Prop :=
  d !! "path_exists" = Some VNone ∧ d !! "path_type" = Some VNone
  ∧ d !! "path_check_time" = Some VNone.

(** The path check has run: a verdict and a duration are recorded, and a
    negative verdict comes with an entry in [errors]. *)
Definition path_checked (d : dict) : Prop :=
  ∃ b t, d !! "path_exists" = Some (VBool b)
         ∧ d !! "path_check_time" = Some (VFloat t)
         ∧ (b = false → ∃ l msg, d !! "errors" = Some (VList (l ++ [msg]))).

(** [path_type] is set exactly when the path was found. *)
Definition type_follows_verdict (d : dict) : Prop :=
  (d !! "path_exists" = Some (VBool true)
   ∧ (d !! "path_type" = Some (VStr "directory")
      ∨ d !! "path_type" = Some (VStr "file")))
  ∨ (d !! "path_exists" ≠ Some (VBool true) ∧ d !! "path_type" = Some VNone).

(** What holds of the path fields of a record, for the checker [self]:
    they are untouched, or a check path was requested, both stages
    succeeded and the check has run. *)
Definition path_fields_ok (self : checker) (d : dict) : Prop :=
  path_untouched d
  ∨ (is_Some (check_path_requested self) ∧ both_flags d ∧ path_checked d).

(** The keys [check] assigns to outside the path check. *)
Definition written_outside_path_check (k : string) : bool :=
  bool_decide (k ∈ [ "connection_time"; "connection"; "welcome_message";
                     "auth_time"; "authentication"; "features";
                     "total_time" ]).

(** A probe of [ftp.example.test] that checks the path [/pub]. *)
Definition pub_probe : checker :=
  Checker (VStr "ftp.example.test") (VStr "anonymous") (VStr EmptyString)
    (VInt 21) 10 (Some "/pub").

(** The keys [check] assigns to after the session. *)
Definition written_after_session (k : string) : bool :=
  bool_decide (k ∈ ["total_time"; "auth_time"]).

(** The record [FTPChecker.check] leaves for [pub_probe] on a server where
    [/pub] is a directory. *)
Definition pub_result : dict :=
  (FTPChecker.check ftp_without_FEAT pub_probe
     (FTPChecker.__init__ pub_probe "2024-01-01T00:00:00")).2.

(** An SSH server that accepts the login and knows every path as a
    directory. *)
Definition sftp_with_directories : SFTPChecker.lib :=
  SFTPChecker.Lib (Ok tt) (Ok tt) (Ok tt) (Ok tt) (λ _, Ok (Some 16877))
    (Ok tt) (Ok tt) 100 20 300.

(** The record [SFTPChecker.check] leaves for [pub_probe] there. *)
Definition sftp_pub_result : dict :=
  (SFTPChecker.check sftp_with_directories pub_probe
     (SFTPChecker.__init__ pub_probe "2024-01-01T00:00:00")).2.

(** Connection and authentication are both [False] or both [True]. *)
Definition stages_agree (d : dict) : Prop :=
  (d !! "connection" = Some (VBool false)
   ∧ d !! "authentication" = Some (VBool false))
  ∨ both_flags d.

(** ** Vocabulary of the record types *)

Definition is_bool (v : pyval) : bool :=
  match v with VBool _ => true | _ => false end.

(** A duration, or [None] where none was taken. *)
Definition is_duration (v : pyval) : bool :=
  match v with VFloat _ | VNone => true | _ => false end.

Definition bool_or_None (v : pyval) : bool :=
  match v with VBool _ | VNone => true | _ => false end.

Definition is_list (v : pyval) : bool :=
  match v with VList _ => true | _ => false end.

(** The type of each field of a checker's record; [host], [port] and
    [username] are whatever the caller passed. *)
Definition field_type (k : string) : pyval → bool :=
  if bool_decide (k ∈ ["connection"; "authentication"]) then is_bool
  else if bool_decide (k ∈ ["connection_time"; "auth_time"; "path_check_time";
                            "total_time"]) then is_duration
  else if bool_decide (k = "path_exists") then bool_or_None
  else if bool_decide (k ∈ ["path_type"; "welcome_message"; "protocol";
                            "timestamp"]) then str_or_None
  else if bool_decide (k ∈ ["features"; "errors"]) then is_list
  else λ _, true.

(** Every field the record has is of its type. *)
Definition well_typed (d : dict) : Prop :=
  ∀ k v, d !! k = Some v → field_type k v = true.

(** A record as a checker returns it: all sixteen keys, each of its type. *)
Definition complete (r : dict) : Prop :=
  dom r = checker_keys ∧ well_typed r.

(** The entries of [features] are non-empty and carry no white space
    around them. *)
Definition features_clean (d : dict) : Prop :=
  ∃ l, d !! "features" = Some (VList l)
       ∧ Forall (λ f, f ≠ EmptyString ∧ strip f = f) l.





(** Every file operation a writer calls returns. *)
Definition files_return (F : AdvancedFTPChecker.files) : Prop :=
  (∀ f, AdvancedFTPChecker.open_w F f = Ok tt)
  ∧ (∀ s, AdvancedFTPChecker.f_write F s = Ok tt)
  ∧ AdvancedFTPChecker.f_exit F = Ok tt
  ∧ (∀ root, ∃ s, AdvancedFTPChecker.toprettyxml F root = Ok s)
  ∧ (∀ data, AdvancedFTPChecker.json_dump F data = Ok tt)
  ∧ (∀ i row, AdvancedFTPChecker.writerow F i row = Ok tt).


(** [succeeds m]: from every store, [m] returns. *)
Definition succeeds {S A} (m : M S A) : Prop :=
  ∀ s, ∃ a s', m s = (Ok a, s').


(** * Reasoning about monadic code *)

Section Logic.
Context {S : Type}.
Implicit Types (P : S → Prop) (s : S).

Lemma wp_mono {A} (m : M S A) (Q Q' : res A → S → Prop) s :
  wp m Q s → (∀ r s', Q r s' → Q' r s') → wp m Q' s.
Proof. unfold wp. auto. Qed.

Lemma wp_bind {A B} (m : M S A) (k : A → M S B) Q s :
  wp m (λ r s', match r with
                | Ok a => wp (k a) Q s'
                | Raise e => Q (Raise e) s'
                end) s →
  wp (bind m k) Q s.
Proof. unfold wp, bind. destruct (m s) as [[a|e] s']; auto. Qed.

Lemma wp_try_except {A} (m : M S A) (handles : exn → bool) (h : exn → M S A) Q s :
  wp m (λ r s', match r with
                | Ok a => Q (Ok a) s'
                | Raise e => if handles e then wp (h e) Q s' else Q (Raise e) s'
                end) s →
  wp (try_except m handles h) Q s.
Proof.
  unfold wp, try_except. destruct (m s) as [[a|e] s']; simpl; auto.
  destruct (handles e); auto.
Qed.

Lemma wp_try_clauses {A} (m : M S A)
    (clauses : list ((exn → bool) * (exn → M S A))) Q s :
  wp m (λ r s', match r with
                | Ok a => Q (Ok a) s'
                | Raise e => wp (select_clause clauses e) Q s'
                end) s →
  wp (try_clauses m clauses) Q s.
Proof. unfold wp, try_clauses. destruct (m s) as [[a|e] s']; auto. Qed.

Lemma wp_try_finally {A} (m : M S A) (f : M S unit) Q s :
  wp m (λ r s', wp f (λ rf s'', match rf with
                                | Ok _ => Q r s''
                                | Raise e => Q (Raise e) s''
                                end) s') s →
  wp (try_finally m f) Q s.
Proof.
  unfold wp, try_finally. destruct (m s) as [r s']; simpl.
  destruct (f s') as [[u|e] s'']; auto.
Qed.

Lemma wp_preserved {A} P (m : M S A) (Q : res A → S → Prop) s :
  preserves P m → P s → (∀ r s', P s' → Q r s') → wp m Q s.
Proof. unfold wp, preserves. auto. Qed.

Lemma preserves_ret {A} P (a : A) : preserves P (ret a).
Proof. intros s H; exact H. Qed.

Lemma preserves_raise {A} P e : preserves P (raise (A:=A) e).
Proof. intros s H; exact H. Qed.

Lemma preserves_call {A} P (r : res A) : preserves P (call r).
Proof. intros s H; exact H. Qed.

Lemma preserves_get P : preserves P get.
Proof. intros s H; exact H. Qed.

Lemma preserves_modify P (f : S → S) :
  (∀ s, P s → P (f s)) → preserves P (modify f).
Proof. intros Hf s H. apply Hf, H. Qed.

Lemma preserves_bind {A B} P (m : M S A) (k : A → M S B) :
  preserves P m → (∀ a, preserves P (k a)) → preserves P (bind m k).
Proof.
  intros Hm Hk s H. unfold bind. specialize (Hm s H).
  destruct (m s) as [[a|e] s']; simpl in *; [apply Hk|]; done.
Qed.

Lemma preserves_try_except {A} P (m : M S A) (handles : exn → bool)
    (h : exn → M S A) :
  preserves P m → (∀ e, preserves P (h e)) →
  preserves P (try_except m handles h).
Proof.
  intros Hm Hh s H. unfold try_except. specialize (Hm s H).
  destruct (m s) as [[a|e] s']; simpl in *; [done|].
  destruct (handles e); [apply Hh|]; done.
Qed.

Lemma preserves_select_clause {A} P
    (clauses : list ((exn → bool) * (exn → M S A))) e :
  Forall (λ c, ∀ e, preserves P (c.2 e)) clauses →
  preserves P (select_clause clauses e).
Proof.
  induction 1 as [|[handles h] rest Hh _ IH]; simpl.
  - apply preserves_raise.
  - destruct (handles e); [apply Hh | apply IH].
Qed.

Lemma preserves_try_clauses {A} P (m : M S A)
    (clauses : list ((exn → bool) * (exn → M S A))) :
  preserves P m →
  Forall (λ c, ∀ e, preserves P (c.2 e)) clauses →
  preserves P (try_clauses m clauses).
Proof.
  intros Hm Hc s H. unfold try_clauses. specialize (Hm s H).
  destruct (m s) as [[a|e] s']; simpl in *; [done|].
  by apply preserves_select_clause.
Qed.

Lemma preserves_try_finally {A} P (m : M S A) (f : M S unit) :
  preserves P m → preserves P f → preserves P (try_finally m f).
Proof.
  intros Hm Hf s H. unfold try_finally. specialize (Hm s H).
  destruct (m s) as [r s']; simpl in *. specialize (Hf s' Hm).
  destruct (f s') as [[u|e] s'']; done.
Qed.

Lemma preserves_for_each {A} P (l : list A) (body : A → M S unit) :
  (∀ x, preserves P (body x)) → preserves P (for_each l body).
Proof.
  intros Hb. induction l as [|x l IH]; simpl.
  - apply preserves_ret.
  - apply preserves_bind; [apply Hb | intros _; apply IH].
Qed.

Lemma preserves_if {A} P (b : bool) (m1 m2 : M S A) :
  preserves P m1 → preserves P m2 → preserves P (if b then m1 else m2).
Proof. by destruct b. Qed.

End Logic.

(** Decompose a [preserves] goal along the structure of the code; [leaf]
    closes the goals about single store updates. *)
Ltac preserve leaf :=
  repeat first
    [ leaf
    | apply preserves_ret | apply preserves_call | apply preserves_get
    | apply preserves_raise
    | apply preserves_bind; [|intros ?]
    | apply preserves_try_except; [|intros ?]
    | apply preserves_try_finally
    | apply preserves_try_clauses; [|repeat constructor; simpl; intros ?]
    | apply preserves_for_each; intros ?
    | apply preserves_if
    | match goal with
      | |- preserves _ (match ?x with _ => _ end) => destruct x
      end ].

(** * Facts about the checkers *)

Lemma preserves_setitem (P : dict → Prop) k v :
  (∀ d, P d → P (<[k := v]> d)) → preserves P (setitem k v).
Proof. intros H. apply preserves_modify, H. Qed.

Lemma preserves_errors_append (P : dict → Prop) msg :
  (∀ d l, d !! "errors" = Some (VList l) → P d →
          P (<["errors" := VList (l ++ [msg])]> d)) →
  preserves P (errors_append msg).
Proof.
  intros H d Hd. unfold errors_append.
  destruct (d !! "errors") as [[]|] eqn:E; simpl; auto.
Qed.

Lemma errors_append_ok (d : dict) l msg :
  d !! "errors" = Some (VList l) →
  errors_append msg d = (Ok tt, <["errors" := VList (l ++ [msg])]> d).
Proof. intros H. unfold errors_append. by rewrite H. Qed.

Lemma update_closed_weaken (keys keys' : string → bool) P :
  (∀ k, keys' k = true → keys k = true) →
  update_closed keys P → update_closed keys' P.
Proof. intros Hk [H1 H2]. split; eauto. Qed.

Ltac closed_leaf HP :=
  first
    [ apply preserves_setitem; intros ? ?; apply (proj1 HP); [reflexivity|assumption]
    | apply preserves_errors_append; intros ? ? ? ?; by apply (proj2 HP) ].

(** Closure of a property that only reads keys outside [keys]. *)
Ltac closed_by_lookup :=
  split;
  [ intros k v d Hk HP | intros msg l d Hl HP ];
  repeat match goal with
         | H : _ ∧ _ |- _ => destruct H
         | H : ∃ _, _ |- _ => destruct H
         end;
  repeat split; try eexists;
  rewrite ?lookup_insert_eq, ?lookup_insert_ne;
  eauto; try discriminate;
  try (intros ->;
       match goal with
       | H : _ = true |- _ => vm_compute in H; discriminate
       end).

Lemma block_written_written k : block_written k = true → written k = true.
Proof.
  unfold block_written, written. rewrite !bool_decide_eq_true.
  rewrite !elem_of_cons. intros H.
  repeat (destruct H as [->|H]; [auto 15|]). by apply elem_of_nil in H.
Qed.

Lemma FTP_features_block_preserves P L :
  update_closed block_written P → preserves P (FTPChecker.features_block L).
Proof. intros HP. unfold FTPChecker.features_block. preserve ltac:(closed_leaf HP). Qed.

Lemma FTP_path_block_preserves P L path :
  update_closed block_written P → preserves P (FTPChecker.path_block L path).
Proof. intros HP. unfold FTPChecker.path_block. preserve ltac:(closed_leaf HP). Qed.

Lemma FTP_session_preserves P L self :
  update_closed written P → preserves P (FTPChecker.session L self).
Proof.
  intros HP.
  pose proof (update_closed_weaken _ _ _ block_written_written HP) as HB.
  unfold FTPChecker.session.
  preserve ltac:(first [ closed_leaf HP
                       | by apply FTP_features_block_preserves
                       | by apply FTP_path_block_preserves ]).
Qed.

Lemma FTP_check_preserves P L self :
  update_closed written P → preserves P (FTPChecker.check L self).
Proof.
  intros HP. unfold FTPChecker.check, FTPChecker.check_then.
  preserve ltac:(first [ closed_leaf HP | by apply FTP_session_preserves ]).
Qed.

Lemma preserves_on_results {A} (P : dict → Prop) (m : M dict A) :
  preserves P m →
  preserves (λ f, P (SFTPChecker.results f)) (SFTPChecker.on_results m).
Proof.
  intros Hm f Hf. unfold SFTPChecker.on_results.
  specialize (Hm _ Hf). by destruct (m (SFTPChecker.results f)).
Qed.

Ltac frame_leaf HP :=
  first
    [ apply preserves_on_results; preserve ltac:(closed_leaf HP)
    | apply preserves_modify; intros ? ?; assumption ].

Lemma SFTP_path_block_preserves P L path :
  update_closed block_written P →
  preserves (λ f, P (SFTPChecker.results f)) (SFTPChecker.path_block L path).
Proof. intros HP. unfold SFTPChecker.path_block. preserve ltac:(frame_leaf HP). Qed.

Lemma SFTP_session_preserves P L self :
  update_closed written P →
  preserves (λ f, P (SFTPChecker.results f)) (SFTPChecker.session L self).
Proof.
  intros HP.
  pose proof (update_closed_weaken _ _ _ block_written_written HP) as HB.
  unfold SFTPChecker.session, SFTPChecker.set_ssh.
  preserve ltac:(first [ frame_leaf HP | by apply SFTP_path_block_preserves ]).
Qed.

Lemma SFTP_check_frame_preserves P L self :
  update_closed written P →
  preserves (λ f, P (SFTPChecker.results f)) (SFTPChecker.check_frame L self).
Proof.
  intros HP. unfold SFTPChecker.check_frame, SFTPChecker.check_frame_then.
  preserve ltac:(first [ frame_leaf HP | by apply SFTP_session_preserves ]).
Qed.

Lemma SFTP_check_unfold L self d :
  SFTPChecker.check L self d
  = match SFTPChecker.check_frame L self (SFTPChecker.Frame d false) with
    | (r, f) => (r, SFTPChecker.results f)
    end.
Proof. reflexivity. Qed.

Lemma SFTP_check_preserves P L self :
  update_closed written P → preserves P (SFTPChecker.check L self).
Proof.
  intros HP d Hd. rewrite SFTP_check_unfold.
  pose proof (SFTP_check_frame_preserves P L self HP (SFTPChecker.Frame d false) Hd).
  by destruct (SFTPChecker.check_frame L self (SFTPChecker.Frame d false)).
Qed.

Lemma errors_is_list_closed : update_closed written errors_is_list.
Proof. unfold errors_is_list. closed_by_lookup. Qed.

Lemma wp_conj {S A} (m : M S A) (Q1 Q2 : res A → S → Prop) s :
  wp m Q1 s → wp m Q2 s → wp m (λ r s', Q1 r s' ∧ Q2 r s') s.
Proof. unfold wp. auto. Qed.

Lemma wp_call {S A} (r : res A) (Q : res A → S → Prop) s :
  Q r s → wp (call r) Q s.
Proof. done. Qed.

Lemma wp_setitem k v (Q : res unit → dict → Prop) d :
  Q (Ok tt) (<[k := v]> d) → wp (setitem k v) Q d.
Proof. done. Qed.

Lemma wp_ret {S A} (a : A) (Q : res A → S → Prop) s :
  Q (Ok a) s → wp (ret a) Q s.
Proof. done. Qed.

Lemma flags_ok_init self protocol now : flags_ok (init_results self protocol now).
Proof. by left. Qed.

Lemma errors_is_list_init self protocol now :
  errors_is_list (init_results self protocol now).
Proof. by exists []. Qed.

Lemma flags_ok_auth_implies_conn d : flags_ok d → auth_implies_conn d.
Proof.
  intros [H|[H1 H2]] Ha; [|done]. unfold flag in Ha. congruence.
Qed.

Lemma both_flags_closed : update_closed block_written both_flags.
Proof. unfold both_flags, flag. closed_by_lookup. Qed.

Lemma connected_closed : update_closed block_written connected.
Proof.
  unfold connected, flag. split.
  - intros k v d Hk [H1 H2].
    rewrite !lookup_insert_ne; [done| |];
      intros ->; vm_compute in Hk; discriminate.
  - intros msg l d _ [H1 H2]. by rewrite !lookup_insert_ne.
Qed.

(** What a session leaves behind: the flags stay consistent, and a session
    that ends normally has set both. *)
Lemma FTP_session_flags L self d :
  flags_ok d →
  wp (FTPChecker.session L self)
     (λ r d', flags_ok d' ∧ (∀ a, r = Ok a → both_flags d')) d.
Proof.
  intros Hd. unfold FTPChecker.session.
  apply wp_bind, wp_call. destruct (FTPChecker.connect L) as [[]|e]; [|done].
  apply wp_bind, wp_setitem. apply wp_bind, wp_setitem; cbv beta iota.
  set (d2 := <["connection" := _]> _).
  assert (H2 : connected d2).
  { subst d2. unfold connected, flag. rewrite lookup_insert_eq, !lookup_insert_ne by done.
    destruct Hd as [?|[? ?]]; auto. }
  clearbody d2. clear Hd d.
  apply wp_bind.
  apply (wp_preserved connected);
    [preserve ltac:(closed_leaf connected_closed) | exact H2 |].
  intros r d3 H3. assert (Hf : flags_ok d3).
  { destruct H3 as [? [?|?]]; [by left|by right]. }
  destruct r as [[]|e]; [|done].
  apply wp_bind, wp_call. destruct (FTPChecker.login L) as [[]|e]; [|done].
  apply wp_bind, wp_setitem. apply wp_bind, wp_setitem; cbv beta iota.
  set (d5 := <["authentication" := _]> _).
  assert (H5 : both_flags d5).
  { subst d5. unfold both_flags, flag.
    rewrite lookup_insert_eq, !lookup_insert_ne by done.
    split; [apply H3|done]. }
  clearbody d5.
  apply (wp_preserved both_flags);
    [preserve ltac:(closed_leaf both_flags_closed) | exact H5 |].
  intros r d6 H6. split; [by right|done].
Qed.

Lemma flags_ok_insert k v d :
  k ≠ "connection" → k ≠ "authentication" → flags_ok d → flags_ok (<[k := v]> d).
Proof.
  intros H1 H2. unfold flags_ok, flag. by rewrite !lookup_insert_ne.
Qed.

Lemma errors_is_list_insert k v d :
  k ≠ "errors" → errors_is_list d → errors_is_list (<[k := v]> d).
Proof. intros H. unfold errors_is_list. by rewrite lookup_insert_ne. Qed.

(** The record after the closing assignments, when an [except] clause has
    appended [msg]. *)
Lemma captured_after_error d l msg t :
  flags_ok d →
  captured (<["total_time" := t]> (<["errors" := VList (l ++ [msg])]> d)).
Proof.
  intros [H|[H1 H2]]; [right|left]; unfold flag in *.
  - rewrite !lookup_insert_ne by done. split; [done|].
    exists l, msg. by rewrite lookup_insert_eq.
  - by rewrite !lookup_insert_ne.
Qed.

Lemma FTP_body_flags L self d :
  errors_is_list d → flags_ok d →
  wp (call (FTPChecker.FTP_new L);;;
      try_finally (FTPChecker.session L self) (call (FTPChecker.FTP_exit L)))
     (λ r d', (errors_is_list d' ∧ flags_ok d') ∧
              (∀ a, r = Ok a → both_flags d')) d.
Proof.
  intros He Hf. apply wp_conj.
  - apply wp_conj.
    + apply (wp_preserved errors_is_list); [|done|done].
      preserve ltac:(closed_leaf errors_is_list_closed).
    + apply wp_bind, wp_call. destruct (FTPChecker.FTP_new L) as [[]|e]; [|done].
      apply wp_try_finally.
      eapply wp_mono; [by apply FTP_session_flags|].
      intros r d' [H _]. apply wp_call.
      by destruct (FTPChecker.FTP_exit L).
  - apply wp_bind, wp_call. destruct (FTPChecker.FTP_new L) as [[]|e]; [|done].
    apply wp_try_finally.
    eapply wp_mono; [by apply FTP_session_flags|].
    intros r d' [_ H]. apply wp_call.
    by destruct (FTPChecker.FTP_exit L).
Qed.

Lemma wp_errors_append msg l (Q : res unit → dict → Prop) d :
  d !! "errors" = Some (VList l) →
  Q (Ok tt) (<["errors" := VList (l ++ [msg])]> d) →
  wp (errors_append msg) Q d.
Proof. intros H HQ. unfold wp. by rewrite (errors_append_ok _ l). Qed.

Lemma wp_get {S} (Q : res S → S → Prop) s : Q (Ok s) s → wp get Q s.
Proof. done. Qed.

Lemma returned_ok d t :
  errors_is_list d → flags_ok d → both_flags d →
  returned (Ok (<["total_time" := t]> d)) (<["total_time" := t]> d).
Proof.
  intros He Hf [H1 H2]. split; [done|]. split; [|split; [|split]].
  - by apply errors_is_list_insert.
  - by apply flags_ok_insert.
  - left. unfold flag in *. by rewrite !lookup_insert_ne.
  - by rewrite lookup_insert_eq.
Qed.

Lemma returned_error d l msg t :
  flags_ok d →
  let d' := <["total_time" := t]> (<["errors" := VList (l ++ [msg])]> d) in
  returned (Ok d') d'.
Proof.
  intros Hf d'. split; [done|]. split; [|split; [|split]].
  - apply errors_is_list_insert; [done|]. eexists. apply lookup_insert_eq.
  - apply flags_ok_insert; [done..|]. by apply flags_ok_insert.
  - by apply captured_after_error.
  - subst d'. by rewrite lookup_insert_eq.
Qed.

(** [FTPChecker.check] always returns [self.results], with consistent flags
    and every failure that ended the probe recorded. *)
Lemma FTP_check_wp L self d :
  errors_is_list d → flags_ok d → wp (FTPChecker.check L self) returned d.
Proof.
  intros He Hf. unfold FTPChecker.check, FTPChecker.check_then.
  apply wp_bind, wp_try_clauses.
  eapply wp_mono; [by apply FTP_body_flags|].
  intros r d' [[[l Hl] Hf'] Hboth]. destruct r as [[]|e].
  - apply wp_bind, wp_setitem, wp_get.
    apply returned_ok; [by exists l|done|by apply (Hboth tt)].
  - simpl select_clause.
    repeat case_match;
      (eapply wp_errors_append; [done|]);
      apply wp_bind, wp_setitem, wp_get; by apply returned_error.
Qed.

Lemma FTP_check_spec L self d :
  errors_is_list d → flags_ok d →
  ∃ r, FTPChecker.check L self d = (Ok r, r)
       ∧ errors_is_list r ∧ flags_ok r ∧ captured r
       ∧ is_Some (r !! "total_time").
Proof.
  intros He Hf. pose proof (FTP_check_wp L self d He Hf) as H.
  unfold wp, returned in H.
  destruct (FTPChecker.check L self d) as [r d']; simpl in H.
  destruct H as (-> & H). by exists d'.
Qed.

(** ** The SFTP checker *)

Lemma wp_on_results_setitem k v (Q : res unit → SFTPChecker.frame → Prop) f :
  Q (Ok tt) (SFTPChecker.Frame (<[k := v]> (SFTPChecker.results f))
               (SFTPChecker.ssh f)) →
  wp (SFTPChecker.on_results (setitem k v)) Q f.
Proof. done. Qed.

Lemma wp_on_results_errors_append msg l
    (Q : res unit → SFTPChecker.frame → Prop) f :
  SFTPChecker.results f !! "errors" = Some (VList l) →
  Q (Ok tt) (SFTPChecker.Frame
               (<["errors" := VList (l ++ [msg])]> (SFTPChecker.results f))
               (SFTPChecker.ssh f)) →
  wp (SFTPChecker.on_results (errors_append msg)) Q f.
Proof.
  intros H HQ. unfold wp, SFTPChecker.on_results.
  by rewrite (errors_append_ok _ l).
Qed.

Lemma wp_modify {S} (g : S → S) (Q : res unit → S → Prop) s :
  Q (Ok tt) (g s) → wp (modify g) Q s.
Proof. done. Qed.

Lemma has_connection_time_closed :
  update_closed written (λ d, is_Some (d !! "connection_time")).
Proof.
  split.
  - intros k v d _ H. destruct (decide (k = "connection_time")) as [->|Hne].
    + by rewrite lookup_insert_eq.
    + by rewrite lookup_insert_ne.
  - intros msg l d _ H. by rewrite lookup_insert_ne.
Qed.

Lemma SFTP_session_flags L self f :
  wp (SFTPChecker.session L self)
     (λ r f', ∀ a, r = Ok a → both_flags (SFTPChecker.results f')) f.
Proof.
  unfold SFTPChecker.session, SFTPChecker.set_ssh.
  apply wp_bind, wp_call.
  destruct (SFTPChecker.SSHClient_new L) as [[]|e]; [|done].
  apply wp_bind, wp_modify.
  apply wp_bind, wp_call.
  destruct (SFTPChecker.set_missing_host_key_policy L) as [[]|e]; [|done].
  apply wp_bind, wp_call.
  destruct (SFTPChecker.connect L) as [[]|e]; [|done].
  apply wp_bind, wp_on_results_setitem.
  apply wp_bind, wp_on_results_setitem.
  apply wp_bind, wp_on_results_setitem; cbv beta iota.
  match goal with |- wp _ _ ?f0 => set (f3 := f0) end.
  assert (H3 : both_flags (SFTPChecker.results f3)).
  { subst f3. unfold both_flags, flag. simpl. split; by simplify_map_eq. }
  clearbody f3.
  apply (wp_preserved (λ f, both_flags (SFTPChecker.results f)));
    [|exact H3|done].
  preserve ltac:(first [ frame_leaf both_flags_closed
                       | by apply SFTP_path_block_preserves, both_flags_closed ]).
Qed.

(** The session only ever moves the flags from "not authenticated" to
    "both set". *)
Lemma SFTP_session_flags_ok L self :
  preserves (λ f, flags_ok (SFTPChecker.results f)) (SFTPChecker.session L self).
Proof.
  intros f Hf.
  change (wp (SFTPChecker.session L self)
            (λ _ f', flags_ok (SFTPChecker.results f')) f).
  unfold SFTPChecker.session, SFTPChecker.set_ssh.
  apply wp_bind, wp_call.
  destruct (SFTPChecker.SSHClient_new L) as [[]|e]; [|done].
  apply wp_bind, wp_modify.
  apply wp_bind, wp_call.
  destruct (SFTPChecker.set_missing_host_key_policy L) as [[]|e]; [|done].
  apply wp_bind, wp_call.
  destruct (SFTPChecker.connect L) as [[]|e]; [|done].
  apply wp_bind, wp_on_results_setitem.
  apply wp_bind, wp_on_results_setitem.
  apply wp_bind, wp_on_results_setitem; cbv beta iota.
  match goal with |- wp _ _ ?f0 => set (f3 := f0) end.
  assert (H3 : both_flags (SFTPChecker.results f3)).
  { subst f3. unfold both_flags, flag. simpl. split; by simplify_map_eq. }
  clearbody f3.
  apply (wp_preserved (λ f, both_flags (SFTPChecker.results f)));
    [|exact H3|by right].
  preserve ltac:(first [ frame_leaf both_flags_closed
                       | by apply SFTP_path_block_preserves, both_flags_closed ]).
Qed.

Lemma captured_insert k v d :
  k ≠ "connection" → k ≠ "authentication" → k ≠ "errors" →
  captured d → captured (<[k := v]> d).
Proof.
  intros H1 H2 H3. unfold captured, flag. by rewrite !lookup_insert_ne.
Qed.

Lemma preserves_and {S A} (P1 P2 : S → Prop) (m : M S A) :
  preserves P1 m → preserves P2 m → preserves (λ s, P1 s ∧ P2 s) m.
Proof. intros H1 H2 s [? ?]. split; auto. Qed.

Lemma wp_close_ssh L (Q : res unit → SFTPChecker.frame → Prop) f :
  Q (Ok tt) f →
  (∀ e, SFTPChecker.ssh_close L = Raise e → Q (Raise e) f) →
  wp (f <- get;; if SFTPChecker.ssh f then call (SFTPChecker.ssh_close L)
                 else ret tt) Q f.
Proof.
  intros Hok Hraise. apply wp_bind, wp_get.
  destruct (SFTPChecker.ssh f).
  - apply wp_call. destruct (SFTPChecker.ssh_close L) as [[]|e] eqn:E; eauto.
  - by apply wp_ret.
Qed.

(** Lines 279-282. *)
Lemma SFTP_closing_wp L f :
  errors_is_list (SFTPChecker.results f) →
  flags_ok (SFTPChecker.results f) →
  is_Some (SFTPChecker.results f !! "connection_time") →
  captured (SFTPChecker.results f) →
  wp (SFTPChecker.on_results
        (setitem "total_time" (VFloat (SFTPChecker.total_time L)));;;
      ct <- SFTPChecker.on_results
              (d <- get;; call (getitem d "connection_time"));;
      SFTPChecker.on_results (setitem "auth_time" ct);;;
      SFTPChecker.on_results get)
     (λ r f', returned r (SFTPChecker.results f')) f.
Proof.
  intros He Hf [ct Hct] Hc. destruct f as [d b]; simpl in *.
  unfold wp, bind, SFTPChecker.on_results, setitem, modify, get, call, getitem.
  simpl. rewrite lookup_insert_ne by done. rewrite Hct. simpl.
  split; [done|]. split; [|split; [|split]].
  - by do 2 (apply errors_is_list_insert; [done|]).
  - by do 2 (apply flags_ok_insert; [done..|]).
  - by do 2 (apply captured_insert; [done..|]).
  - by rewrite lookup_insert_ne, lookup_insert_eq.
Qed.

Lemma returned_unless_close_ok L r d :
  returned r d → returned_unless_close L r d.
Proof. intros H. split; [|done]. destruct H as [-> _]. eauto. Qed.

Lemma returned_unless_close_raise L e d :
  SFTPChecker.ssh_close L = Raise e → returned_unless_close L (Raise e) d.
Proof. intros H. split; [by rewrite H|done]. Qed.

Lemma SFTP_check_frame_wp L self f :
  errors_is_list (SFTPChecker.results f) →
  flags_ok (SFTPChecker.results f) →
  is_Some (SFTPChecker.results f !! "connection_time") →
  wp (SFTPChecker.check_frame L self)
     (λ r f', returned_unless_close L r (SFTPChecker.results f')) f.
Proof.
  intros He Hf Hct. unfold SFTPChecker.check_frame, SFTPChecker.check_frame_then.
  apply wp_bind, wp_try_finally, wp_try_clauses.
  eapply wp_mono.
  { apply wp_conj; [apply SFTP_session_flags|].
    apply (wp_preserved
             (λ f, (errors_is_list (SFTPChecker.results f) ∧
                    is_Some (SFTPChecker.results f !! "connection_time")) ∧
                   flags_ok (SFTPChecker.results f))).
    - apply preserves_and; [apply preserves_and|].
      + apply (SFTP_session_preserves errors_is_list), errors_is_list_closed.
      + apply (SFTP_session_preserves (λ d, is_Some (d !! "connection_time"))),
          has_connection_time_closed.
      + apply SFTP_session_flags_ok.
    - done.
    - intros r f' H. exact H. }
  cbv beta. intros r f' [Hboth [[[l Hl] Hct'] Hf']]. destruct r as [[]|e].
  - apply wp_close_ssh; [|intros; by apply returned_unless_close_raise].
    eapply wp_mono; [|intros ? ?; apply returned_unless_close_ok].
    apply SFTP_closing_wp; [by exists l|done..|].
    left. apply (Hboth tt eq_refl).
  - simpl select_clause.
    repeat case_match;
      (eapply wp_on_results_errors_append; [done|]);
      (apply wp_close_ssh; [|intros; by apply returned_unless_close_raise]);
      (eapply wp_mono; [|intros ? ?; apply returned_unless_close_ok]);
      (apply SFTP_closing_wp; simpl;
       [ eexists; apply lookup_insert_eq
       | by apply flags_ok_insert
       | by rewrite lookup_insert_ne
       | destruct Hf' as [Ha|Hb];
         [ right; rewrite lookup_insert_ne by done; split; [done|];
           eexists _, _; apply lookup_insert_eq
         | left; unfold both_flags, flag in *; by rewrite !lookup_insert_ne ] ]).
Qed.

(** [SFTPChecker.check] on a record in good shape: whatever it returns is
    [self.results] in good shape, and it returns when [ssh.close()] does. *)
Lemma SFTP_check_spec L self d :
  errors_is_list d → flags_ok d → is_Some (d !! "connection_time") →
  (SFTPChecker.ssh_close L = Ok tt →
   ∃ r, SFTPChecker.check L self d = (Ok r, r)) ∧
  (∀ r d', SFTPChecker.check L self d = (Ok r, d') →
     r = d' ∧ errors_is_list r ∧ flags_ok r ∧ captured r
     ∧ is_Some (r !! "total_time")).
Proof.
  intros He Hf Hct.
  pose proof (SFTP_check_frame_wp L self (SFTPChecker.Frame d false) He Hf Hct) as H.
  unfold wp, returned_unless_close, returned in H. rewrite SFTP_check_unfold.
  destruct (SFTPChecker.check_frame L self (SFTPChecker.Frame d false)) as [r f'].
  simpl in H. destruct H as [H1 H2]. split.
  - intros Hc. destruct (H1 Hc) as [a ->].
    destruct (H2 a eq_refl) as ([= ->] & _). eauto.
  - intros r0 d' [= -> <-]. destruct (H2 r0 eq_refl) as ([= ->] & H). done.
Qed.

(** ** A probe that fails before or at the connection stage *)

Lemma FTP_connect_failure L self now :
  (∃ e, FTPChecker.FTP_new L = Raise e) ∨ (∃ e, FTPChecker.connect L = Raise e) →
  failed_with_one_error (FTPChecker.check L self (FTPChecker.__init__ self now)).2.
Proof.
  intros H.
  assert (∃ e, (call (FTPChecker.FTP_new L);;;
                try_finally (FTPChecker.session L self)
                  (call (FTPChecker.FTP_exit L)))
                 (FTPChecker.__init__ self now)
               = (Raise e, FTPChecker.__init__ self now)) as [e He].
  { unfold bind at 1. unfold call at 1.
    destruct (FTPChecker.FTP_new L) as [[]|e0]; [|by eexists].
    destruct H as [[e H]|[e H]]; [done|].
    unfold try_finally, FTPChecker.session, bind at 1, call at 1 2.
    rewrite H. destruct (FTPChecker.FTP_exit L); by eexists. }
  unfold FTPChecker.check, FTPChecker.check_then, bind at 1, try_clauses. rewrite He.
  simpl select_clause.
  destruct (is_ftplib_all_errors e), (is_socket_timeout e), (is_socket_gaierror e);
    cbv beta iota; rewrite (errors_append_ok _ []) by reflexivity;
    (split; [reflexivity|split; [reflexivity|eexists; reflexivity]]).
Qed.

Lemma SFTP_connect_failure L self now :
  SFTPChecker.ssh_close L = Ok tt →
  (∃ e, SFTPChecker.SSHClient_new L = Raise e)
  ∨ (∃ e, SFTPChecker.set_missing_host_key_policy L = Raise e)
  ∨ (∃ e, SFTPChecker.connect L = Raise e) →
  failed_with_one_error (SFTPChecker.check L self (SFTPChecker.__init__ self now)).2.
Proof.
  destruct L as [new policy conn open stat sclose close t1 t2 t3].
  simpl. intros -> H.
  destruct new as [[]|[c0 m0]];
    [destruct policy as [[]|[c1 m1]];
       [destruct conn as [[]|[c2 m2]];
          [exfalso; destruct H as [[? ?]|[[? ?]|[? ?]]]; done|]|]|].
  - destruct c2; vm_compute; (split; [done|split; [done|by eexists]]).
  - destruct c1; vm_compute; (split; [done|split; [done|by eexists]]).
  - destruct c0; vm_compute; (split; [done|split; [done|by eexists]]).
Qed.

(** * The checkers: what they return and what they record *)

Lemma FTP_check_fresh L self now :
  ∃ r, FTPChecker.check L self (FTPChecker.__init__ self now) = (Ok r, r)
       ∧ errors_is_list r ∧ flags_ok r ∧ captured r
       ∧ is_Some (r !! "total_time").
Proof.
  exact (FTP_check_spec L self _ (errors_is_list_init self "FTP" now)
           (flags_ok_init self "FTP" now)).
Qed.

Lemma SFTP_check_fresh L self now :
  (SFTPChecker.ssh_close L = Ok tt →
   ∃ r, SFTPChecker.check L self (SFTPChecker.__init__ self now) = (Ok r, r)) ∧
  (∀ r d', SFTPChecker.check L self (SFTPChecker.__init__ self now) = (Ok r, d') →
     r = d' ∧ errors_is_list r ∧ flags_ok r ∧ captured r
     ∧ is_Some (r !! "total_time")).
Proof.
  exact (SFTP_check_spec L self _ (errors_is_list_init self "SFTP" now)
           (flags_ok_init self "SFTP" now) (mk_is_Some _ _ eq_refl)).
Qed.

(** What the two methods do guarantee.  [FTPChecker.check] never raises
    an [Exception]: it returns its result record.  [SFTPChecker.check]
    returns its result record whenever the closing [ssh.close()] returns.
    In the record returned, either connection and authentication are both
    [True], or authentication is [False] and [errors] has at least one
    entry; and when the client could not be created or [connect] raised,
    connection and authentication are both [False] and [errors] has exactly
    one entry. *)
Lemma check_returns_record_with_failure (self : checker) (now : string) :
  (∀ L : FTPChecker.lib,
     ∃ r, FTPChecker.check L self (FTPChecker.__init__ self now) = (Ok r, r)
          ∧ captured r
          ∧ ((∃ e, FTPChecker.FTP_new L = Raise e)
             ∨ (∃ e, FTPChecker.connect L = Raise e) → failed_with_one_error r))
  ∧ (∀ L : SFTPChecker.lib,
       SFTPChecker.ssh_close L = Ok tt →
       ∃ r, SFTPChecker.check L self (SFTPChecker.__init__ self now) = (Ok r, r)
            ∧ captured r
            ∧ ((∃ e, SFTPChecker.SSHClient_new L = Raise e)
               ∨ (∃ e, SFTPChecker.set_missing_host_key_policy L = Raise e)
               ∨ (∃ e, SFTPChecker.connect L = Raise e) → failed_with_one_error r)).
Proof.
  split.
  - intros L. destruct (FTP_check_fresh L self now) as (r & Hr & _ & _ & Hc & _).
    exists r. split; [done|]. split; [done|].
    intros H. pose proof (FTP_connect_failure L self now H) as Hs.
    by rewrite Hr in Hs.
  - intros L Hclose. destruct (SFTP_check_fresh L self now) as [H1 H2].
    destruct (H1 Hclose) as [r Hr]. exists r. split; [done|].
    destruct (H2 r r Hr) as (_ & _ & _ & Hc & _). split; [done|].
    intros H. pose proof (SFTP_connect_failure L self now Hclose H) as Hs.
    by rewrite Hr in Hs.
Qed.

(** Scenario A of the specification: the server accepts the anonymous
    login and rejects [FEAT]; the probe succeeds and [errors] stays
    empty. *)
Example FEAT_failure_leaves_no_error :
  FTPChecker.voidcmd_FEAT ftp_without_FEAT
    = Raise (Exn FtpErrorPerm "500 Unknown command")
  ∧ FTPChecker.check ftp_without_FEAT anonymous_probe
      (FTPChecker.__init__ anonymous_probe "2024-01-01T00:00:00")
    = (Ok without_FEAT_result, without_FEAT_result)
  ∧ without_FEAT_result !! "errors" = Some (VList []).
Proof.
  split; [reflexivity|]. split; [|vm_compute; reflexivity].
  unfold without_FEAT_result.
  destruct (FTP_check_fresh ftp_without_FEAT anonymous_probe
              "2024-01-01T00:00:00") as (r & -> & _).
  reflexivity.
Qed.

Lemma preserves_ssh_on_results {A} (m : M dict A) :
  preserves (λ f, SFTPChecker.ssh f = true) (SFTPChecker.on_results m).
Proof.
  intros f Hf. unfold SFTPChecker.on_results.
  by destruct (m (SFTPChecker.results f)).
Qed.

(** C2 (the code departs from it).  [SFTPChecker.check] calls
    [ssh.close()] in the [finally] clause of its outer [try], where no
    [except] clause covers it: whenever the client object was created and
    [ssh.close()] raises, [check] raises that exception instead of returning
    the record, whatever else happened in the probe and whatever the record
    holds. *)
Theorem SFTP_check_raises_when_close_raises (L : SFTPChecker.lib)
    (self : checker) (d : dict) (e : exn) :
  SFTPChecker.SSHClient_new L = Ok tt →
  SFTPChecker.ssh_close L = Raise e →
  (SFTPChecker.check L self d).1 = Raise e.
Proof.
  intros Hnew Hclose.
  assert (Hfin : ∀ f,
            SFTPChecker.ssh f = true →
            wp (f <- get;; if SFTPChecker.ssh f
                           then call (SFTPChecker.ssh_close L) else ret tt)
               (λ rf _, match rf with
                        | Ok _ => False
                        | Raise e' => Raise (A:=dict) e' = Raise e
                        end) f).
  { intros f Hf. unfold wp, bind, get, call. by rewrite Hf, Hclose. }
  assert (H : wp (SFTPChecker.check_frame L self) (λ r _, r = Raise e)
                (SFTPChecker.Frame d false)).
  { unfold SFTPChecker.check_frame, SFTPChecker.check_frame_then.
    apply wp_bind, wp_try_finally, wp_try_clauses.
    unfold SFTPChecker.session.
    apply wp_bind, wp_call. rewrite Hnew.
    apply wp_bind. unfold SFTPChecker.set_ssh. apply wp_modify.
    apply (wp_preserved (λ f, SFTPChecker.ssh f = true)); [|done|].
    { unfold SFTPChecker.path_block.
      preserve ltac:(apply preserves_ssh_on_results). }
    intros r f Hf. destruct r as [[]|e'].
    - eapply wp_mono; [apply (Hfin f Hf)|].
      by intros [[]|e''] f'.
    - apply (wp_preserved (λ f, SFTPChecker.ssh f = true)); [|done|].
      { apply preserves_select_clause. repeat constructor; simpl; intros ?;
          apply preserves_ssh_on_results. }
      intros r f' Hf'. eapply wp_mono; [apply (Hfin f' Hf')|].
      by intros [[]|e''] f''. }
  rewrite SFTP_check_unfold. unfold wp in H.
  by destruct (SFTPChecker.check_frame L self (SFTPChecker.Frame d false)).
Qed.

(** The theorem at a server that accepts the login, after which
    [ssh.close()] raises. *)
Lemma SFTP_check_raises_when_close_raises_witness :
  (SFTPChecker.check sftp_close_raises anonymous_probe
     (SFTPChecker.__init__ anonymous_probe "2024-01-01T00:00:00")).1
  = Raise (Exn OSErrorPlain "Socket is closed").
Proof.
  apply (SFTP_check_raises_when_close_raises sftp_close_raises anonymous_probe
           (SFTPChecker.__init__ anonymous_probe "2024-01-01T00:00:00")
           (Exn OSErrorPlain "Socket is closed"));
    reflexivity.
Defined.

(** The record the schedulers build for a failed invocation, spelled
    out. *)
Lemma error_result_inv d now e r :
  error_result d now e = Ok r →
  ∃ h p u proto,
    (d !! "host" = Some h ∧ d !! "port" = Some p ∧ d !! "username" = Some u
     ∧ d !! "protocol" = Some proto) ∧
    r = <["host" := h]> (
        <["port" := p]> (
        <["username" := u]> (
        <["protocol" := VStr (if py_eq_int proto 0 then "FTP" else "SFTP")]> (
        <["timestamp" := VStr now]> (
        <["connection" := VBool false]> (
        <["authentication" := VBool false]> (
        <["errors" := VList ["Check failed: " +:+ exn_str e]]> ∅))))))).
Proof.
  unfold error_result, getitem.
  destruct (d !! "host") as [h|]; [|done].
  destruct (d !! "port") as [p|]; [|done].
  destruct (d !! "username") as [u|]; [|done].
  destruct (d !! "protocol") as [proto|]; [|done].
  intros [= <-]. by exists h, p, u, proto.
Qed.

(** C3.  In every record a checker returns from a fresh instance, and in
    every record the schedulers build for a failed invocation, a true
    [authentication] comes with a true [connection]. *)
Theorem authentication_implies_connection :
  (∀ L self now r d',
     FTPChecker.check L self (FTPChecker.__init__ self now) = (Ok r, d') →
     auth_implies_conn r)
  ∧ (∀ L self now r d',
       SFTPChecker.check L self (SFTPChecker.__init__ self now) = (Ok r, d') →
       auth_implies_conn r)
  ∧ (∀ d now e r, error_result d now e = Ok r → auth_implies_conn r).
Proof.
  split; [|split].
  - intros L self now r d' H.
    destruct (FTP_check_fresh L self now) as (r0 & Hr & _ & Hf & _).
    rewrite Hr in H. injection H as <- _. by apply flags_ok_auth_implies_conn.
  - intros L self now r d' H.
    destruct (SFTP_check_fresh L self now) as [_ H2].
    destruct (H2 r d' H) as (_ & _ & Hf & _).
    by apply flags_ok_auth_implies_conn.
  - intros d now e r H.
    destruct (error_result_inv d now e r H) as (h & p & u & proto & _ & ->).
    intros Ha. by vm_compute in Ha.
Qed.

(** The theorem at the SFTP server that rejects the password. *)
Lemma authentication_implies_connection_witness :
  auth_implies_conn wrong_password_result.
Proof.
  assert (H : SFTPChecker.check sftp_wrong_password anonymous_probe
                (SFTPChecker.__init__ anonymous_probe "2024-01-01T00:00:00")
              = (Ok wrong_password_result, wrong_password_result)).
  { unfold wrong_password_result.
    destruct (proj1 (SFTP_check_fresh sftp_wrong_password anonymous_probe
                       "2024-01-01T00:00:00") eq_refl) as [r ->].
    reflexivity. }
  exact (proj1 (proj2 authentication_implies_connection)
           sftp_wrong_password anonymous_probe "2024-01-01T00:00:00"
           wrong_password_result wrong_password_result H).
Defined.

(** * The schedulers *)

Lemma has_key_closed k : update_closed written (λ d, is_Some (d !! k)).
Proof.
  split.
  - intros k' v d _ H. destruct (decide (k' = k)) as [->|Hne].
    + by rewrite lookup_insert_eq.
    + by rewrite lookup_insert_ne.
  - intros msg l d Hl H. destruct (decide ("errors" = k)) as [<-|Hne].
    + by rewrite lookup_insert_eq.
    + by rewrite lookup_insert_ne.
Qed.

Lemma readable_init self protocol now : readable (init_results self protocol now).
Proof. split; [by exists []|]. repeat constructor; by eexists. Qed.

Lemma readable_closed : update_closed written readable.
Proof.
  destruct errors_is_list_closed as [E1 E2].
  split.
  - intros k v d Hk [He Hks]. split; [by apply E1|].
    eapply Forall_impl; [exact Hks|]. intros k' Hk'.
    by apply (proj1 (has_key_closed k')).
  - intros msg l d Hl [He Hks]. split; [by apply E2|].
    eapply Forall_impl; [exact Hks|]. intros k' Hk'.
    by apply (proj2 (has_key_closed k')).
Qed.

Lemma submit_FTP_readable W j self r : submit_FTP W j self = Ok r → readable r.
Proof.
  unfold submit_FTP. intros H.
  destruct (FTP_check_fresh (ftp_lib_of W j) self (now_submit W j))
    as (r0 & Hr & _).
  pose proof (FTP_check_preserves readable (ftp_lib_of W j) self readable_closed
                _ (readable_init self "FTP" (now_submit W j))) as Hp.
  unfold FTPChecker.__init__ in *. rewrite Hr in H, Hp. simpl in *. congruence.
Qed.

Lemma submit_SFTP_readable W j self r : submit_SFTP W j self = Ok r → readable r.
Proof.
  unfold submit_SFTP. intros H.
  pose proof (SFTP_check_preserves readable (sftp_lib_of W j) self readable_closed
                _ (readable_init self "SFTP" (now_submit W j))) as Hp.
  destruct (SFTP_check_fresh (sftp_lib_of W j) self (now_submit W j)) as [_ H2].
  unfold SFTPChecker.__init__ in *.
  destruct (SFTPChecker.check (sftp_lib_of W j) self
              (init_results self "SFTP" (now_submit W j))) as [r1 d1].
  simpl in *. subst r1. by destruct (H2 r d1 eq_refl) as [-> _].
Qed.

Lemma error_result_ok keys d now e :
  has_keys keys d →
  (∀ k, k ∈ ["host"; "port"; "username"; "protocol"] → k ∈ keys) →
  ∃ r, error_result d now e = Ok r.
Proof.
  intros Hd Hk. unfold has_keys in Hd. rewrite Forall_forall in Hd.
  assert (∀ k, k ∈ ["host"; "port"; "username"; "protocol"] → is_Some (d !! k))
    as H by (intros; apply Hd, Hk; done).
  unfold error_result, getitem.
  destruct (H "host") as [? ->]; [set_solver|].
  destruct (H "port") as [? ->]; [set_solver|].
  destruct (H "username") as [? ->]; [set_solver|].
  destruct (H "protocol") as [? ->]; [set_solver|].
  by eexists.
Qed.

Lemma error_result_synthetic d now e r :
  error_result d now e = Ok r → failed_with_one_error r.
Proof.
  intros H. destruct (error_result_inv d now e r H) as (h & p & u & proto & _ & ->).
  split; [reflexivity|split; [reflexivity|eexists; reflexivity]].
Qed.

Lemma has_keys_getitem ks d k :
  has_keys ks d → k ∈ ks → ∃ v, getitem d k = Ok v.
Proof.
  unfold has_keys. rewrite Forall_forall. intros H Hk.
  destruct (H k Hk) as [v Hv]. exists v. unfold getitem. by rewrite Hv.
Qed.

Lemma connection_and_authentication_ok r :
  readable r → ∃ b, connection_and_authentication r = Ok b.
Proof.
  intros [_ Hk]. unfold connection_and_authentication.
  destruct (has_keys_getitem _ r "connection" Hk) as [c ->]; [set_solver|].
  destruct (has_keys_getitem _ r "authentication" Hk) as [a ->]; [set_solver|].
  destruct (truthy c); eauto.
Qed.

(** One iteration of the collecting loop of [brute_force] appends exactly
    one record and does not raise. *)
Lemma BruteForcer_collect_at W total i f s :
  wf_future combo_keys f →
  ∃ r out, BruteForcer.collect W total (i, f) s
             = (Ok tt, Run (results s ++ [r]) out)
           ∧ collected W i f r.
Proof.
  intros [Hk Hr]. unfold collected.
  destruct (has_keys_getitem _ _ "username" Hk) as [u Hu]; [set_solver|].
  destruct (has_keys_getitem _ _ "password" Hk) as [pw Hpw]; [set_solver|].
  destruct (has_keys_getitem _ _ "host" Hk) as [h Hh]; [set_solver|].
  destruct (has_keys_getitem _ _ "port" Hk) as [p Hp]; [set_solver|].
  unfold BruteForcer.collect, try_except, bind, call, results_append, print,
    modify, ret.
  destruct (outcome f) as [result|e] eqn:E; simpl.
  - destruct (connection_and_authentication_ok result (Hr _ eq_refl)) as [b ->].
    destruct b.
    + rewrite Hu, Hpw, Hh, Hp. simpl. by eexists _, _.
    + destruct (Z.of_nat (i + 1) mod 10 =? 0); simpl; by eexists _, _.
  - destruct (error_result_ok combo_keys (descriptor f) (now_collect W i) e Hk)
      as [r Hre]; [set_solver|].
    rewrite Hre. simpl. by eexists _, _.
Qed.



(** The record of an invocation that raised. *)
Lemma collected_synthetic W i f r e :
  outcome f = Raise e → collected W i f r →
  failed_with_one_error r
  ∧ r !! "errors" = Some (VList ["Check failed: " +:+ exn_str e]).
Proof.
  unfold collected. intros -> H.
  destruct (error_result_inv _ _ _ _ H) as (h & p & u & proto & _ & ->).
  split; [|reflexivity].
  split; [reflexivity|split; [reflexivity|eexists; reflexivity]].
Qed.

Lemma for_each_collect_at {A} (body : nat * A → M run unit) (ok : A → Prop)
    (rel : nat → A → dict → Prop) (l : list A) :
  (∀ i x s, ok x →
     ∃ r out, body (i, x) s = (Ok tt, Run (results s ++ [r]) out) ∧ rel i x r) →
  Forall ok l →
  ∀ n s, ∃ rs out,
    for_each (zip (seq n (length l)) l) body s
      = (Ok tt, Run (results s ++ rs) out)
    ∧ length rs = length l
    ∧ ∀ i x, l !! i = Some x → ∃ r, rs !! i = Some r ∧ rel (n + i)%nat x r.
Proof.
  intros Hbody. induction 1 as [|x l Hx Hl IH]; intros n s.
  - exists [], (stdout s). simpl. rewrite app_nil_r.
    split; [by destruct s|]. split; [done|]. intros i x. by rewrite lookup_nil.
  - simpl. unfold bind.
    destruct (Hbody n x s Hx) as (r & out & -> & Hr).
    destruct (IH (S n) (Run (results s ++ [r]) out))
      as (rs & out' & -> & Hlen & Hrs).
    exists (r :: rs), out'. simpl. rewrite <- app_assoc. simpl.
    split; [done|]. split; [by rewrite Hlen|].
    intros [|i] x'; simpl.
    + intros [= <-]. exists r. by rewrite Nat.add_0_r.
    + intros Hi. destruct (Hrs i x' Hi) as (r' & Hr' & Hrel).
      exists r'. split; [done|]. by rewrite Nat.add_succ_r.
Qed.


(** ** The combinations of [brute_force] *)

Lemma fold_left_append {A B} (step : list A → B → list A) (f : B → list A) :
  (∀ acc x, step acc x = acc ++ f x) →
  ∀ l acc, fold_left step l acc = acc ++ flat_map f l.
Proof.
  intros Hstep. induction l as [|x l IH]; intros acc; simpl.
  - by rewrite app_nil_r.
  - rewrite IH, Hstep. by rewrite <- app_assoc.
Qed.

Lemma flat_map_singleton {A B} (g : A → B) (l : list A) :
  flat_map (λ x, [g x]) l = map g l.
Proof. induction l as [|x l IH]; simpl; [done|by rewrite IH]. Qed.

(** The nested loops build the cross product, ports outermost and passwords
    innermost. *)
Lemma combinations_cross_product self usernames passwords ports :
  BruteForcer.combinations self usernames passwords ports
  = cross_product self ports usernames passwords.
Proof.
  unfold BruteForcer.combinations, cross_product.
  rewrite (fold_left_append _
             (λ port, flat_map (λ username,
                map (λ password, BruteForcer.combo self port username password)
                  passwords) usernames)); [done|].
  intros acc port.
  rewrite (fold_left_append _
             (λ username,
                map (λ password, BruteForcer.combo self port username password)
                  passwords)); [done|].
  intros acc' username.
  rewrite (fold_left_append _
             (λ password, [BruteForcer.combo self port username password]));
    [|done].
  by rewrite flat_map_singleton.
Qed.

Lemma length_flat_map_uniform {A B} (f : A → list B) (n : nat) (l : list A) :
  (∀ x, length (f x) = n) → length (flat_map f l) = (length l * n)%nat.
Proof.
  intros Hf. induction l as [|x l IH]; simpl; [done|].
  rewrite length_app, IH, Hf. done.
Qed.

Lemma length_cross_product self ports usernames passwords :
  length (cross_product self ports usernames passwords)
  = (length ports * length usernames * length passwords)%nat.
Proof.
  unfold cross_product.
  rewrite (length_flat_map_uniform _ (length usernames * length passwords)).
  - lia.
  - intros port.
    apply length_flat_map_uniform. intros u. apply length_map.
Qed.

Lemma lookup_flat_map_uniform {A B} (f : A → list B) (n : nat) (l : list A)
    (i j : nat) (x : A) :
  (∀ x, length (f x) = n) → l !! i = Some x → (j < n)%nat →
  flat_map f l !! (i * n + j)%nat = f x !! j.
Proof.
  intros Hf. revert i. induction l as [|a l IH]; intros i Hi Hj; [done|].
  destruct i as [|i]; simpl in *.
  - injection Hi as ->. apply lookup_app_l. by rewrite Hf.
  - rewrite lookup_app_r by (rewrite Hf; lia).
    rewrite Hf. replace (n + i * n + j - n)%nat with (i * n + j)%nat by lia.
    by apply IH.
Qed.

(** The place of each descriptor in the sequence. *)
Lemma lookup_cross_product self ports usernames passwords i j k port u p :
  ports !! i = Some port → usernames !! j = Some u → passwords !! k = Some p →
  cross_product self ports usernames passwords
    !! ((i * length usernames + j) * length passwords + k)%nat
  = Some (BruteForcer.combo self port u p).
Proof.
  intros Hi Hj Hk. unfold cross_product.
  pose proof (lookup_lt_Some _ _ _ Hj) as Hjlt.
  pose proof (lookup_lt_Some _ _ _ Hk) as Hklt.
  replace ((i * length usernames + j) * length passwords + k)%nat
    with (i * (length usernames * length passwords)
          + (j * length passwords + k))%nat by lia.
  rewrite (lookup_flat_map_uniform _ (length usernames * length passwords)
             ports i _ port); [| |done|nia].
  - rewrite (lookup_flat_map_uniform _ (length passwords) usernames j k u);
      [|intros; apply length_map|done|done].
    by rewrite list_lookup_fmap, Hk.
  - intros x. apply length_flat_map_uniform. intros y. apply length_map.
Qed.

Lemma combo_lookups self port u p :
  BruteForcer.combo self port u p !! "port" = Some (VInt port) ∧
  BruteForcer.combo self port u p !! "username" = Some (VStr u) ∧
  BruteForcer.combo self port u p !! "password" = Some (VStr p) ∧
  BruteForcer.combo self port u p !! "host" = Some (VStr (BruteForcer.host self)) ∧
  BruteForcer.combo self port u p !! "protocol"
    = Some (VInt (BruteForcer.protocol self)).
Proof. repeat split; reflexivity. Qed.

Lemma combo_inj self port u p port' u' p' :
  BruteForcer.combo self port u p = BruteForcer.combo self port' u' p' →
  port = port' ∧ u = u' ∧ p = p'.
Proof.
  intros H.
  destruct (combo_lookups self port u p) as (H1 & H2 & H3 & _).
  rewrite H in H1, H2, H3.
  destruct (combo_lookups self port' u' p') as (H1' & H2' & H3' & _).
  rewrite H1' in H1. rewrite H2' in H2. rewrite H3' in H3.
  by injection H1 as ->; injection H2 as ->; injection H3 as ->.
Qed.

Lemma elem_of_cross_product self ports usernames passwords c :
  c ∈ cross_product self ports usernames passwords ↔
  ∃ port u p, c = BruteForcer.combo self port u p
              ∧ port ∈ ports ∧ u ∈ usernames ∧ p ∈ passwords.
Proof.
  unfold cross_product. rewrite list_elem_of_In, in_flat_map. split.
  - intros (port & Hport & Hc). apply in_flat_map in Hc as (u & Hu & Hc).
    apply in_map_iff in Hc as (p & <- & Hp).
    exists port, u, p. by rewrite !list_elem_of_In.
  - intros (port & u & p & -> & Hport & Hu & Hp).
    apply list_elem_of_In in Hport. apply list_elem_of_In in Hu.
    apply list_elem_of_In in Hp.
    exists port. split; [done|]. apply in_flat_map. exists u. split; [done|].
    apply in_map_iff. by exists p.
Qed.

Lemma NoDup_flat_map {A B} (f : A → list B) (l : list A) :
  NoDup l → (∀ x, x ∈ l → NoDup (f x)) →
  (∀ x y z, x ∈ l → y ∈ l → z ∈ f x → z ∈ f y → x = y) →
  NoDup (flat_map f l).
Proof.
  induction 1 as [|a l Ha Hl IH]; intros Hf Hdisj; simpl; [constructor|].
  apply NoDup_app. split; [apply Hf; left|]. split.
  - intros z Hz Hz'. rewrite list_elem_of_In in Hz'.
    apply in_flat_map in Hz' as (y & Hy & Hzy).
    rewrite <- !list_elem_of_In in *.
    assert (a = y) as -> by (eapply Hdisj; [left|by right|done|done]).
    done.
  - apply IH.
    + intros x Hx. apply Hf. by right.
    + intros x y z Hx Hy. apply Hdisj; by right.
Qed.

Lemma NoDup_cross_product self ports usernames passwords :
  NoDup ports → NoDup usernames → NoDup passwords →
  NoDup (cross_product self ports usernames passwords).
Proof.
  intros Hports Hu Hp. unfold cross_product.
  apply NoDup_flat_map; [done| |].
  - intros port _. apply NoDup_flat_map; [done| |].
    + intros u _. apply NoDup_fmap_2_strong; [|done].
      intros p p' _ _ H. by apply combo_inj in H as (_ & _ & ->).
    + intros u u' c _ _ Hc Hc'.
      apply list_elem_of_fmap in Hc as (p & -> & _).
      apply list_elem_of_fmap in Hc' as (p' & H & _).
      by apply combo_inj in H as (_ & -> & _).
  - intros port port' c _ _ Hc Hc'.
    rewrite list_elem_of_In in Hc, Hc'.
    apply in_flat_map in Hc as (u & _ & Hc).
    apply in_flat_map in Hc' as (u' & _ & Hc').
    apply in_map_iff in Hc as (p & <- & _).
    apply in_map_iff in Hc' as (p' & H & _).
    by apply combo_inj in H as (-> & _ & _).
Qed.

(** ** [brute_force] *)

Lemma combo_has_keys self port u p :
  has_keys combo_keys (BruteForcer.combo self port u p).
Proof. repeat constructor; by eexists. Qed.

Lemma cross_product_has_keys self ports usernames passwords :
  Forall (has_keys combo_keys) (cross_product self ports usernames passwords).
Proof.
  apply Forall_forall. intros c Hc.
  apply elem_of_cross_product in Hc as (port & u & p & -> & _).
  apply combo_has_keys.
Qed.

Lemma BruteForcer_submit W self fs c :
  has_keys combo_keys c →
  ∃ f, BruteForcer.submit W self fs c = Ok (fs ++ [f])
       ∧ descriptor f = c ∧ wf_future combo_keys f.
Proof.
  intros Hk. unfold BruteForcer.submit.
  destruct (has_keys_getitem _ _ "protocol" Hk) as [proto ->]; [set_solver|].
  destruct (has_keys_getitem _ _ "host" Hk) as [h ->]; [set_solver|].
  destruct (has_keys_getitem _ _ "username" Hk) as [u ->]; [set_solver|].
  destruct (has_keys_getitem _ _ "password" Hk) as [pw ->]; [set_solver|].
  destruct (has_keys_getitem _ _ "port" Hk) as [p ->]; [set_solver|].
  eexists. split; [reflexivity|]. split; [done|]. split; [done|].
  simpl. intros r. destruct (py_eq_int proto 0).
  - apply submit_FTP_readable.
  - apply submit_SFTP_readable.
Qed.

Lemma BruteForcer_submit_all W self cs :
  Forall (has_keys combo_keys) cs →
  ∀ fs, ∃ fs', BruteForcer.submit_all W self fs cs = Ok (fs ++ fs')
               ∧ map descriptor fs' = cs
               ∧ Forall (wf_future combo_keys) fs'.
Proof.
  induction 1 as [|c cs Hc Hcs IH]; intros fs; simpl.
  - exists []. by rewrite app_nil_r.
  - destruct (BruteForcer_submit W self fs c Hc) as (f & -> & Hd & Hf).
    destruct (IH (fs ++ [f])) as (fs' & -> & Hds & Hfs).
    exists (f :: fs'). rewrite <- app_assoc. simpl.
    split; [done|]. split; [by rewrite Hd, Hds|by constructor].
Qed.

Lemma Forall2_length_eq {A B} (R : A → B → Prop) l k :
  Forall2 R l k → length l = length k.
Proof. induction 1; simpl; congruence. Qed.

(** What the submitting loop makes of a combination. *)
Lemma BruteForcer_submit_combo W self fs port u p :
  BruteForcer.submit W self fs (BruteForcer.combo self port u p)
  = Ok (fs ++ [Future (BruteForcer.combo self port u p)
                 (probe W self (length fs) port u p)]).
Proof. reflexivity. Qed.

Lemma probe_readable W self j port u p r :
  probe W self j port u p = Ok r → readable r.
Proof.
  unfold probe. destruct (BruteForcer.protocol self =? 0).
  - apply submit_FTP_readable.
  - apply submit_SFTP_readable.
Qed.

Lemma BruteForcer_submit_all_at W self cs :
  Forall (λ c, ∃ port u p, c = BruteForcer.combo self port u p) cs →
  ∀ fs, ∃ fs',
    BruteForcer.submit_all W self fs cs = Ok (fs ++ fs')
    ∧ map descriptor fs' = cs
    ∧ Forall (wf_future combo_keys) fs'
    ∧ ∀ j f, fs' !! j = Some f →
        ∃ port u p,
          f = Future (BruteForcer.combo self port u p)
                (probe W self (length fs + j) port u p).
Proof.
  induction 1 as [|c cs (port & u & p & ->) Hcs IH]; intros fs; simpl.
  - exists []. rewrite app_nil_r. repeat split; done.
  - rewrite BruteForcer_submit_combo.
    destruct (IH (fs ++ [Future (BruteForcer.combo self port u p)
                           (probe W self (length fs) port u p)]))
      as (fs' & -> & Hd & Hwf & Hat).
    eexists (_ :: fs'). rewrite <- app_assoc. simpl.
    split; [done|]. split; [by rewrite Hd|]. split.
    + constructor; [|done]. split; [apply combo_has_keys|].
      simpl. apply probe_readable.
    + intros [|j] f; simpl.
      * intros [= <-]. exists port, u, p. by rewrite Nat.add_0_r.
      * intros Hj. destruct (Hat j f Hj) as (port' & u' & p' & ->).
        exists port', u', p'. rewrite length_app. simpl.
        by rewrite <- Nat.add_assoc.
Qed.

(** A run of [brute_force] with a pool: the futures it submits, and one
    record for each of them, in the order of completion. *)
Lemma brute_force_run W self usernames passwords port_list s :
  fair W → 0 < BruteForcer.max_workers self →
  ∃ fs rs out,
    BruteForcer.submit_all W self []
      (BruteForcer.combinations self usernames passwords
         (BruteForcer.effective_ports self port_list)) = Ok fs
    ∧ map descriptor fs
      = BruteForcer.combinations self usernames passwords
          (BruteForcer.effective_ports self port_list)
    ∧ (∀ j f, fs !! j = Some f →
         ∃ port u p,
           f = Future (BruteForcer.combo self port u p)
                 (probe W self j port u p))
    ∧ BruteForcer.brute_force W self usernames passwords port_list s
      = (Ok (results s ++ rs), Run (results s ++ rs) out)
    ∧ length rs = length fs
    ∧ (∀ i f, as_completed W fs !! i = Some f →
         ∃ r, rs !! i = Some r ∧ collected W i f r).
Proof.
  intros Hfair Hw. unfold BruteForcer.brute_force.
  set (cs := BruteForcer.combinations _ _ _ _).
  assert (Hcs : Forall (λ c, ∃ port u p, c = BruteForcer.combo self port u p) cs).
  { subst cs. rewrite combinations_cross_product. apply Forall_forall.
    intros c Hc. apply elem_of_cross_product in Hc as (port & u & p & -> & _).
    by exists port, u, p. }
  destruct (BruteForcer_submit_all_at W self cs Hcs [])
    as (fs & Hsub & Hd & Hwf & Hat).
  simpl in Hsub.
  assert (Hwf' : Forall (wf_future combo_keys) (as_completed W fs)).
  { by rewrite (Hfair fs). }
  unfold bind at 1. unfold print at 1, modify. cbv beta iota.
  unfold bind at 1. unfold ThreadPoolExecutor.
  replace (BruteForcer.max_workers self <=? 0) with false
    by (symmetry; apply Z.leb_gt; lia).
  unfold ret at 1. cbv beta iota.
  unfold bind at 1, call at 1. rewrite Hsub. cbv beta iota.
  unfold bind at 1, enumerate.
  match goal with
  | |- context [for_each _ ?body ?s0] =>
      destruct (for_each_collect_at body (wf_future combo_keys) (collected W)
                  (as_completed W fs)
                  (λ i f s, BruteForcer_collect_at W _ i f s) Hwf' 0%nat s0)
        as (rs & out & -> & Hlen & Hrs)
  end.
  exists fs, rs, out. split; [done|]. split; [done|]. split; [exact Hat|].
  split; [done|]. split; [|exact Hrs].
  rewrite Hlen. apply Permutation_length, Hfair.
Qed.

(** ** [check_servers] *)

Lemma for_each_print message (l : list pyval) s :
  ∃ out, for_each l (λ x, print message [x]) s = (Ok tt, Run (results s) out).
Proof.
  revert s. induction l as [|x l IH]; intros s; simpl.
  - exists (stdout s). by destruct s.
  - unfold bind, print at 1, modify. simpl.
    destruct (IH (Run (results s) (stdout s ++ [Print message [x]])))
      as [out ->]. by exists out.
Qed.

Lemma readable_errors r :
  readable r → ∃ l, getitem r "errors" = Ok (VList l).
Proof. intros [[l Hl] _]. exists l. unfold getitem. by rewrite Hl. Qed.

(** One iteration of the collecting loop of [check_servers], for a server
    record that has the keys the loop reads: exactly one record is
    appended and nothing is raised. *)
Lemma AdvancedFTPChecker_collect W i f s :
  wf_future server_keys f →
  ∃ r out, AdvancedFTPChecker.collect W (i, f) s
             = (Ok tt, Run (results s ++ [r]) out)
           ∧ collected W i f r.
Proof.
  intros [Hk Hr]. unfold collected.
  destruct (has_keys_getitem _ _ "username" Hk) as [u Hu]; [set_solver|].
  destruct (has_keys_getitem _ _ "password" Hk) as [pw Hpw]; [set_solver|].
  destruct (has_keys_getitem _ _ "host" Hk) as [h Hh]; [set_solver|].
  destruct (has_keys_getitem _ _ "port" Hk) as [p Hp]; [set_solver|].
  destruct (has_keys_getitem _ _ "type" Hk) as [ty Hty]; [set_solver|].
  unfold AdvancedFTPChecker.collect, try_except, bind, call, results_append,
    modify, ret.
  destruct (outcome f) as [result|e] eqn:E; simpl.
  - pose proof (Hr _ eq_refl) as Hread.
    destruct (connection_and_authentication_ok result Hread) as [b ->].
    destruct (has_keys_getitem _ _ "connection_time" (proj2 Hread))
      as [ct Hct]; [set_solver|].
    destruct (has_keys_getitem _ _ "auth_time" (proj2 Hread))
      as [at_ Hat]; [set_solver|].
    destruct (readable_errors result Hread) as [l Hl].
    rewrite Hu, Hh, Hp, Hty. destruct b.
    + rewrite Hpw, Hct, Hat. simpl. by eexists _, _.
    + simpl. rewrite Hl. destruct (truthy (VList l)); simpl.
      * destruct (for_each_print "Error" (map VStr l)
                    (Run (results s ++ [result])
                       (stdout s ++ [Print "FAILED" [u; h; p; ty]])))
          as [out ->].
        by eexists _, _.
      * by eexists _, _.
  - destruct (error_result_ok server_keys (descriptor f) (now_collect W i) e Hk)
      as [r Hre]; [set_solver|].
    rewrite Hre. simpl. rewrite Hu, Hh, Hp, Hty. simpl.
    by eexists _, _.
Qed.

Lemma AdvancedFTPChecker_submit W timeout check_path fs server :
  has_keys server_keys server →
  ∃ fs', AdvancedFTPChecker.submit W timeout check_path fs server
           = Ok (fs ++ fs')
         ∧ map descriptor fs' = (if supported server then [server] else [])
         ∧ Forall (wf_future server_keys) fs'
         ∧ Forall (server_probe W timeout check_path (length fs)) fs'.
Proof.
  intros Hk. unfold AdvancedFTPChecker.submit, supported, dict_get.
  destruct (has_keys_getitem _ _ "protocol" Hk) as [proto Hproto]; [set_solver|].
  destruct (has_keys_getitem _ _ "host" Hk) as [h Hh]; [set_solver|].
  destruct (has_keys_getitem _ _ "username" Hk) as [u Hu]; [set_solver|].
  destruct (has_keys_getitem _ _ "password" Hk) as [pw Hpw]; [set_solver|].
  destruct (has_keys_getitem _ _ "port" Hk) as [p Hp]; [set_solver|].
  rewrite Hproto, Hh, Hu, Hpw, Hp. unfold getitem in *.
  destruct (server !! "protocol") as [proto'|] eqn:Eproto; [|done].
  destruct (server !! "host") as [h'|] eqn:Eh; [|done].
  destruct (server !! "username") as [u'|] eqn:Eu; [|done].
  destruct (server !! "password") as [pw'|] eqn:Epw; [|done].
  destruct (server !! "port") as [p'|] eqn:Ep; [|done].
  injection Hproto as ->. injection Hh as ->. injection Hu as ->.
  injection Hpw as ->. injection Hp as ->.
  destruct (py_eq_int proto 0) eqn:E0; simpl.
  - eexists [_]. split; [reflexivity|]. split; [done|]. split.
    + constructor; [|constructor]. split; [done|]. apply submit_FTP_readable.
    + constructor; [|constructor]. exists h, u, pw, p, proto. simpl.
      by rewrite E0.
  - destruct (py_eq_int proto 1).
    + eexists [_]. split; [reflexivity|]. split; [done|]. split.
      * constructor; [|constructor]. split; [done|]. apply submit_SFTP_readable.
      * constructor; [|constructor]. exists h, u, pw, p, proto. simpl.
        by rewrite E0.
    + exists []. by rewrite app_nil_r.
Qed.

Lemma AdvancedFTPChecker_submit_all W timeout check_path servers :
  Forall (has_keys server_keys) servers →
  ∀ fs, ∃ fs', AdvancedFTPChecker.submit_all W timeout check_path fs servers
                 = Ok (fs ++ fs')
               ∧ map descriptor fs' = List.filter supported servers
               ∧ Forall (wf_future server_keys) fs'
               ∧ ∀ j f, fs' !! j = Some f →
                   server_probe W timeout check_path (length fs + j) f.
Proof.
  induction 1 as [|c cs Hc Hcs IH]; intros fs; simpl.
  - exists []. rewrite app_nil_r. repeat split; done.
  - destruct (AdvancedFTPChecker_submit W timeout check_path fs c Hc)
      as (f1 & -> & Hd & Hf & Hp1).
    destruct (IH (fs ++ f1)) as (fs' & -> & Hds & Hfs & Hat).
    exists (f1 ++ fs'). rewrite <- app_assoc.
    split; [done|]. split; [|split; [by apply Forall_app|]].
    { rewrite map_app, Hd, Hds. by destruct (supported c). }
    intros j f Hj. rewrite length_app in Hat.
    destruct f1 as [|f0 [|f2 f1]].
    + simpl in *. specialize (Hat j f Hj). by rewrite Nat.add_0_r in Hat.
    + destruct j as [|j]; simpl in Hj.
      * injection Hj as <-. apply Forall_inv in Hp1.
        by rewrite Nat.add_0_r.
      * specialize (Hat j f Hj). simpl in Hat.
        by rewrite <- Nat.add_assoc in Hat.
    + destruct (supported c); simpl in Hd; discriminate.
Qed.

(** A run of [check_servers] with a pool, on server records that have the
    keys the loops read: the futures it submits, one for each server with
    protocol 0 or 1, and one record for each of them, in the order of
    completion. *)
Lemma check_servers_run W servers max_workers check_path timeout s :
  fair W → 0 < max_workers → Forall (has_keys server_keys) servers →
  ∃ fs rs out,
    AdvancedFTPChecker.submit_all W timeout check_path [] servers = Ok fs
    ∧ map descriptor fs = List.filter supported servers
    ∧ (∀ j f, fs !! j = Some f → server_probe W timeout check_path j f)
    ∧ AdvancedFTPChecker.check_servers W servers max_workers check_path timeout s
      = (Ok (results s ++ rs), Run (results s ++ rs) out)
    ∧ length rs = length fs
    ∧ (∀ i f, as_completed W fs !! i = Some f →
         ∃ r, rs !! i = Some r ∧ collected W i f r).
Proof.
  intros Hfair Hw Hk. unfold AdvancedFTPChecker.check_servers.
  destruct (AdvancedFTPChecker_submit_all W timeout check_path servers Hk [])
    as (fs & Hsub & Hd & Hwf & Hat).
  simpl in Hsub.
  assert (Hwf' : Forall (wf_future server_keys) (as_completed W fs))
    by (by rewrite (Hfair fs)).
  unfold bind at 1. unfold ThreadPoolExecutor.
  replace (max_workers <=? 0) with false by (symmetry; apply Z.leb_gt; lia).
  unfold ret at 1. cbv beta iota.
  unfold bind at 1, call at 1. rewrite Hsub. cbv beta iota.
  unfold bind at 1, enumerate.
  match goal with
  | |- context [for_each _ ?body ?s0] =>
      destruct (for_each_collect_at body (wf_future server_keys) (collected W)
                  (as_completed W fs)
                  (λ i f s, AdvancedFTPChecker_collect W i f s) Hwf' 0%nat s0)
        as (rs & out & -> & Hlen & Hrs)
  end.
  exists fs, rs, out. split; [done|]. split; [done|]. split; [exact Hat|].
  split; [done|]. split; [|exact Hrs].
  rewrite Hlen. apply Permutation_length, Hfair.
Qed.

Lemma reversed_world_fair : fair reversed_world.
Proof. intros fs. apply reverse_Permutation. Qed.

Lemma flaky_world_fair : fair flaky_world.
Proof. intros fs. apply reverse_Permutation. Qed.

(** C1 (as amended).  When [as_completed] yields every future once and the
    pool can be created.  [brute_force] submits one future per combination,
    whose outcome is that of [check] on a new checker for the combination;
    it appends exactly one record per future, in the order of completion,
    and returns.  [check_servers], on server records that carry the keys it
    reads, does the same for the servers whose protocol is 0 or 1 and
    submits nothing for the others.  The record appended for a future is
    the one its invocation returned, and for an invocation that raised it is
    the one built in the [except] clause: connection [False],
    authentication [False], and the one entry ["Check failed: ..."] with
    the text of the exception in [errors]; the loop goes on to the next
    future. *)
Theorem one_record_per_submitted_descriptor (W : world) :
  fair W →
  (∀ self usernames passwords port_list s,
     0 < BruteForcer.max_workers self →
     ∃ fs rs out,
       BruteForcer.submit_all W self []
         (BruteForcer.combinations self usernames passwords
            (BruteForcer.effective_ports self port_list)) = Ok fs
       ∧ map descriptor fs
         = BruteForcer.combinations self usernames passwords
             (BruteForcer.effective_ports self port_list)
       ∧ (∀ j f, fs !! j = Some f →
            ∃ port u p,
              f = Future (BruteForcer.combo self port u p)
                    (probe W self j port u p))
       ∧ BruteForcer.brute_force W self usernames passwords port_list s
         = (Ok (results s ++ rs), Run (results s ++ rs) out)
       ∧ length rs
         = length (BruteForcer.combinations self usernames passwords
                     (BruteForcer.effective_ports self port_list))
       ∧ (∀ i f, as_completed W fs !! i = Some f →
            ∃ r, rs !! i = Some r ∧ collected W i f r))
  ∧ (∀ servers max_workers check_path timeout s,
       0 < max_workers → Forall (has_keys server_keys) servers →
       ∃ fs rs out,
         AdvancedFTPChecker.submit_all W timeout check_path [] servers = Ok fs
         ∧ map descriptor fs = List.filter supported servers
         ∧ (∀ j f, fs !! j = Some f → server_probe W timeout check_path j f)
         ∧ AdvancedFTPChecker.check_servers W servers max_workers check_path
             timeout s
           = (Ok (results s ++ rs), Run (results s ++ rs) out)
         ∧ length rs = length (List.filter supported servers)
         ∧ (∀ i f, as_completed W fs !! i = Some f →
              ∃ r, rs !! i = Some r ∧ collected W i f r))
  ∧ (∀ i f r e,
       outcome f = Raise e → collected W i f r →
       failed_with_one_error r
       ∧ r !! "errors" = Some (VList ["Check failed: " +:+ exn_str e])).
Proof.
  intros Hfair. split; [|split].
  - intros self usernames passwords port_list s Hw.
    destruct (brute_force_run W self usernames passwords port_list s Hfair Hw)
      as (fs & rs & out & Hsub & Hd & Hat & Hrun & Hlen & Hrs).
    exists fs, rs, out. repeat (split; [done|]). split; [|done].
    by rewrite Hlen, <- Hd, length_map.
  - intros servers max_workers check_path timeout s Hw Hk.
    destruct (check_servers_run W servers max_workers check_path timeout s
                Hfair Hw Hk)
      as (fs & rs & out & Hsub & Hd & Hat & Hrun & Hlen & Hrs).
    exists fs, rs, out. repeat (split; [done|]). split; [|done].
    by rewrite Hlen, <- Hd, length_map.
  - intros i f r e. apply collected_synthetic.
Qed.

(** The theorem at a search over SFTP for two users, in which the probe
    of the first returns its record and the probe of the second raises:
    the run returns two records, the second user's being the one built in
    the [except] clause. *)
Lemma one_record_per_submitted_descriptor_witness :
  (∃ fs rs out,
     BruteForcer.submit_all flaky_world sftp_search []
       (BruteForcer.combinations sftp_search ["admin"; "root"] ["1234"]
          (BruteForcer.effective_ports sftp_search (Some [22]))) = Ok fs
     ∧ map descriptor fs
       = BruteForcer.combinations sftp_search ["admin"; "root"] ["1234"]
           (BruteForcer.effective_ports sftp_search (Some [22]))
     ∧ (∀ j f, fs !! j = Some f →
          ∃ port u p,
            f = Future (BruteForcer.combo sftp_search port u p)
                  (probe flaky_world sftp_search j port u p))
     ∧ BruteForcer.brute_force flaky_world sftp_search ["admin"; "root"]
         ["1234"] (Some [22]) (Run [] [])
       = (Ok ([] ++ rs), Run ([] ++ rs) out)
     ∧ length rs
       = length (BruteForcer.combinations sftp_search ["admin"; "root"]
                   ["1234"]
                   (BruteForcer.effective_ports sftp_search (Some [22])))
     ∧ (∀ i f, as_completed flaky_world fs !! i = Some f →
          ∃ r, rs !! i = Some r ∧ collected flaky_world i f r))
  ∧ probe flaky_world sftp_search 0 22 "admin" "1234" = Ok wrong_password_admin
  ∧ probe flaky_world sftp_search 1 22 "root" "1234"
    = Raise (Exn OSErrorPlain "Socket is closed")
  ∧ (BruteForcer.brute_force flaky_world sftp_search ["admin"; "root"]
       ["1234"] (Some [22]) (Run [] [])).1
    = Ok [root_error_record; wrong_password_admin].
Proof.
  split; [|split; [|split]].
  - exact (proj1 (one_record_per_submitted_descriptor flaky_world
                    flaky_world_fair)
             sftp_search ["admin"; "root"] ["1234"] (Some [22]) (Run [] [])
             eq_refl).
  - vm_compute. reflexivity.
  - vm_compute. reflexivity.
  - vm_compute. reflexivity.
Defined.

(** C1 as stated fails for [check_servers]: a server whose protocol is
    neither 0 nor 1 is submitted to it and gets no record. *)
Lemma unsupported_protocol_gets_no_record :
  length [ftps_server] = 1%nat
  ∧ (AdvancedFTPChecker.check_servers reversed_world [ftps_server] 5 None 10
       (Run [] [])).1 = Ok [].
Proof. split; [reflexivity|]. vm_compute. reflexivity. Qed.

(** In single-host mode the server record has no ['type'] key, which both
    branches of the collecting loop of [check_servers] print: the checker's
    record is appended, the [print] raises [KeyError], the [except] clause
    appends a second record and its own [print] raises again, which ends
    [check_servers] and the run. *)
Example single_host_mode_ends_in_KeyError :
  (Main.main empty_os reversed_world frozen_clock single_host_args).1.1
  = Main.Crashed (KeyError "type")
  ∧ length (Main.main empty_os reversed_world frozen_clock single_host_args).1.2
    = 2%nat.
Proof. split; vm_compute; reflexivity. Qed.

(** ** What [brute_force] reports first *)

Lemma preserves_stdout_prefix_print pre message fields :
  preserves (λ s, ∃ out, stdout s = pre ++ out) (print message fields).
Proof.
  apply preserves_modify. intros s [out H]. simpl. rewrite H.
  exists (out ++ [Print message fields]). by rewrite app_assoc.
Qed.

Lemma preserves_stdout_prefix_append pre r :
  preserves (λ s, ∃ out, stdout s = pre ++ out) (results_append r).
Proof. apply preserves_modify. intros s [out H]. simpl. eauto. Qed.

Lemma BruteForcer_collect_stdout W total it pre :
  preserves (λ s, ∃ out, stdout s = pre ++ out) (BruteForcer.collect W total it).
Proof.
  destruct it as [i f]. unfold BruteForcer.collect.
  preserve ltac:(first [ apply preserves_stdout_prefix_print
                       | apply preserves_stdout_prefix_append ]).
Qed.

Lemma brute_force_reports_first W self usernames passwords port_list s :
  ∃ out,
    stdout (BruteForcer.brute_force W self usernames passwords port_list s).2
    = stdout s
      ++ Print "Starting brute force"
           [VInt (Z.of_nat (length (BruteForcer.combinations self usernames
                                      passwords
                                      (BruteForcer.effective_ports self
                                         port_list))))]
      :: out.
Proof.
  rewrite combinations_cross_product, length_cross_product.
  unfold BruteForcer.brute_force.
  set (total := (length usernames * length passwords * _)%nat).
  replace (length _ * length usernames * length passwords)%nat with total
    by (subst total; lia).
  unfold bind at 1, print at 1, modify. cbv beta iota.
  match goal with
  | |- ∃ out, stdout (?m ?s1).2 = _ =>
      assert (Hp : preserves (λ s', ∃ out, stdout s' = stdout s1 ++ out) m)
  end.
  { preserve ltac:(apply BruteForcer_collect_stdout). }
  match goal with
  | |- ∃ out, stdout (?m ?s1).2 = _ =>
      destruct (Hp s1) as [out Hout]; [by exists []; rewrite app_nil_r|]
  end.
  exists out. rewrite Hout. simpl. by rewrite <- app_assoc.
Qed.

(** C5 (as amended).  The ports [brute_force] uses are the given list
    when it is not empty, and the default port of the protocol alone, 21
    for protocol 0 and 22 otherwise, when the list is empty or absent.  With
    pairwise distinct usernames, passwords and ports, [brute_force]
    generates the cross product of these ports, the usernames and the
    passwords: that many descriptors, no duplicates, ports outermost, then
    usernames, passwords innermost; and the first thing it prints, before
    the pool exists, is that count. *)
Theorem combinations_are_the_cross_product (self : BruteForcer.t)
    (usernames passwords : list string) (port_list : option (list Z)) :
  NoDup usernames → NoDup passwords →
  (∀ l, port_list = Some l → NoDup l) →
  let ports := BruteForcer.effective_ports self port_list in
  let cs := BruteForcer.combinations self usernames passwords ports in
  (∀ p ps, port_list = Some (p :: ps) → ports = p :: ps)
  ∧ (port_list = Some [] ∨ port_list = None →
     ports = [if BruteForcer.protocol self =? 0 then 21 else 22])
  ∧ cs = cross_product self ports usernames passwords
  ∧ length cs = (length ports * length usernames * length passwords)%nat
  ∧ NoDup cs
  ∧ (∀ i j k port u p,
       ports !! i = Some port → usernames !! j = Some u →
       passwords !! k = Some p →
       cs !! ((i * length usernames + j) * length passwords + k)%nat
       = Some (BruteForcer.combo self port u p))
  ∧ (∀ W s, ∃ out,
       stdout (BruteForcer.brute_force W self usernames passwords port_list s).2
       = stdout s
         ++ Print "Starting brute force" [VInt (Z.of_nat (length cs))] :: out).
Proof.
  intros Hu Hp Hports ports cs.
  assert (Hnd : NoDup ports).
  { subst ports. unfold BruteForcer.effective_ports.
    destruct port_list as [[|p ps]|]; [| by apply Hports |];
      destruct (BruteForcer.protocol self =? 0); apply NoDup_singleton. }
  split; [by intros p ps ->|].
  split.
  { subst ports. unfold BruteForcer.effective_ports.
    intros [-> | ->]; by destruct (BruteForcer.protocol self =? 0). }
  subst cs. rewrite combinations_cross_product.
  split; [done|]. split; [apply length_cross_product|].
  split; [by apply NoDup_cross_product|].
  split; [intros; by apply lookup_cross_product|].
  intros W s. rewrite <- combinations_cross_product.
  apply brute_force_reports_first.
Qed.

(** The theorem at a search over SFTP for two users with an empty port
    list: the one port is 22, and two attempts are generated and
    announced. *)
Lemma combinations_are_the_cross_product_witness :
  let ports := BruteForcer.effective_ports sftp_search (Some []) in
  let cs := BruteForcer.combinations sftp_search ["admin"; "root"] ["1234"] ports in
  ports = [22]
  ∧ cs = cross_product sftp_search [22] ["admin"; "root"] ["1234"]
  ∧ length cs = 2%nat
  ∧ NoDup cs
  ∧ cs !! 1%nat = Some (BruteForcer.combo sftp_search 22 "root" "1234")
  ∧ (∀ W s, ∃ out,
       stdout (BruteForcer.brute_force W sftp_search ["admin"; "root"] ["1234"]
                 (Some []) s).2
       = stdout s ++ Print "Starting brute force" [VInt 2] :: out).
Proof.
  destruct (combinations_are_the_cross_product sftp_search ["admin"; "root"]
              ["1234"] (Some []))
    as (_ & Hports & Hcs & Hlen & Hnd & Hat & Hout);
    [compute_done | compute_done | intros l [= <-]; constructor |].
  split; [exact (Hports (or_introl eq_refl))|].
  split; [exact Hcs|]. split; [exact Hlen|]. split; [exact Hnd|].
  split; [exact (Hat 0%nat 1%nat 0%nat 22 "root" "1234" eq_refl eq_refl eq_refl)|].
  exact Hout.
Defined.

(** C5 as stated fails on an empty port list: [|ports|] is 0, yet
    [brute_force] announces one attempt and makes it, on the default
    port. *)
Lemma empty_port_list_still_probes :
  (length ([] : list Z) * length ["admin"] * length ["1234"] = 0)%nat
  ∧ head (stdout (BruteForcer.brute_force reversed_world scenario_D ["admin"]
                    ["1234"] (Some []) (Run [] [])).2)
    = Some (Print "Starting brute force" [VInt 1])
  ∧ length (BruteForcer.combinations scenario_D ["admin"] ["1234"]
              (BruteForcer.effective_ports scenario_D (Some []))) = 1%nat
  ∧ length (results (BruteForcer.brute_force reversed_world scenario_D
                       ["admin"] ["1234"] (Some []) (Run [] [])).2) = 1%nat.
Proof. repeat split; vm_compute; reflexivity. Qed.

(** * The shape of the records *)

Lemma dom_error_result d now e r :
  error_result d now e = Ok r → dom r = error_keys.
Proof.
  intros H. destruct (error_result_inv d now e r H) as (h & p & u & proto & _ & ->).
  rewrite !dom_insert_L, dom_empty_L. unfold error_keys. simpl. set_solver.
Qed.

Lemma dom_init_results self protocol now :
  dom (init_results self protocol now) = init_keys.
Proof.
  unfold init_results. rewrite !dom_insert_L, dom_empty_L.
  apply set_eq. intros k. unfold init_keys, checker_keys, error_keys,
    checker_only_keys. simpl.
  rewrite elem_of_difference, !elem_of_union, !elem_of_singleton.
  rewrite elem_of_empty. split.
  - intros H. split; [tauto|].
    intros ->. repeat destruct H as [H|H]; done.
  - tauto.
Qed.

Lemma written_checker_keys k : written k = true → k ∈ checker_keys.
Proof.
  unfold written. rewrite bool_decide_eq_true, !elem_of_cons.
  unfold checker_keys, error_keys, checker_only_keys. simpl.
  rewrite !elem_of_union, !elem_of_singleton, elem_of_empty.
  intros H. rewrite elem_of_nil in H. tauto.
Qed.

Lemma checker_shaped_closed : update_closed written checker_shaped.
Proof.
  unfold checker_shaped. split.
  - intros k v d Hk [H1 H2]. rewrite dom_insert_L.
    apply written_checker_keys in Hk. split.
    + intros x Hx. apply elem_of_union. right. by apply H1.
    + intros x Hx. apply elem_of_union in Hx as [Hx|Hx]; [|by apply H2].
      by apply elem_of_singleton in Hx as ->.
  - intros msg l d Hl [H1 H2]. rewrite dom_insert_L.
    assert (He : "errors" ∈ dom d) by (apply elem_of_dom; eauto). split.
    + intros x Hx. apply elem_of_union. right. by apply H1.
    + intros x Hx. apply elem_of_union in Hx as [Hx|Hx]; [|by apply H2].
      apply elem_of_singleton in Hx as ->. by apply H2.
Qed.

Lemma init_keys_shaped : init_keys ⊆ init_keys ∧ init_keys ⊆ checker_keys.
Proof.
  split; [done|]. intros x Hx. unfold init_keys in Hx.
  by apply elem_of_difference in Hx as [Hx _].
Qed.

Lemma checker_shaped_finished d :
  checker_shaped d → is_Some (d !! "total_time") → dom d = checker_keys.
Proof.
  intros [H1 H2] Ht. apply elem_of_dom in Ht.
  apply set_eq. intros k. split; [apply H2|]. intros Hk.
  destruct (decide (k = "total_time")) as [->|Hne]; [done|].
  apply H1. unfold init_keys. apply elem_of_difference. split; [done|].
  by rewrite elem_of_singleton.
Qed.

Lemma error_keys_not_checker_keys : error_keys ≠ checker_keys.
Proof.
  intros H. assert (Hin : "total_time" ∈ checker_keys) by compute_done.
  rewrite <- H in Hin. revert Hin. compute_done.
Qed.

Lemma dom_FTP_check L self now r d' :
  FTPChecker.check L self (FTPChecker.__init__ self now) = (Ok r, d') →
  dom r = checker_keys.
Proof.
  intros H.
  destruct (FTP_check_fresh L self now) as (r0 & Hr & _ & _ & _ & Ht).
  pose proof (FTP_check_preserves checker_shaped L self checker_shaped_closed
                (FTPChecker.__init__ self now)) as Hp.
  rewrite Hr in H, Hp. injection H as <- _. simpl in Hp.
  apply checker_shaped_finished; [|done]. apply Hp.
  unfold checker_shaped, FTPChecker.__init__. rewrite dom_init_results.
  apply init_keys_shaped.
Qed.

Lemma dom_SFTP_check L self now r d' :
  SFTPChecker.check L self (SFTPChecker.__init__ self now) = (Ok r, d') →
  dom r = checker_keys.
Proof.
  intros H.
  destruct (SFTP_check_fresh L self now) as [_ H2].
  destruct (H2 r d' H) as (-> & _ & _ & _ & Ht).
  pose proof (SFTP_check_preserves checker_shaped L self checker_shaped_closed
                (SFTPChecker.__init__ self now)) as Hp.
  rewrite H in Hp. simpl in Hp.
  apply checker_shaped_finished; [|done]. apply Hp.
  unfold checker_shaped, SFTPChecker.__init__. rewrite dom_init_results.
  apply init_keys_shaped.
Qed.

(** C10.  A record built for a failed invocation has exactly the keys host,
    port, username, protocol, timestamp, connection, authentication and
    errors, and none of the other eight; a record returned by a checker
    has all sixteen, so the two shapes differ. *)
Theorem synthetic_record_shape (d : dict) (now : string) (e : exn) (r : dict) :
  error_result d now e = Ok r →
  dom r = error_keys
  ∧ (∀ k, k ∈ checker_only_keys → r !! k = None)
  ∧ (∀ L self now' r' d',
       FTPChecker.check L self (FTPChecker.__init__ self now') = (Ok r', d') →
       dom r' = error_keys ∪ checker_only_keys ∧ dom r' ≠ dom r)
  ∧ (∀ L self now' r' d',
       SFTPChecker.check L self (SFTPChecker.__init__ self now') = (Ok r', d') →
       dom r' = error_keys ∪ checker_only_keys ∧ dom r' ≠ dom r).
Proof.
  intros H. pose proof (dom_error_result d now e r H) as Hd.
  split; [done|]. split; [|split].
  - assert (Hdisj : error_keys ## checker_only_keys) by compute_done.
    intros k Hk. apply not_elem_of_dom. rewrite Hd. intros Hc.
    exact (proj1 (elem_of_disjoint _ _) Hdisj k Hc Hk).
  - intros L self now' r' d' Hr. rewrite (dom_FTP_check L self now' r' d' Hr), Hd.
    split; [done|]. intros Heq. by apply error_keys_not_checker_keys.
  - intros L self now' r' d' Hr. rewrite (dom_SFTP_check L self now' r' d' Hr), Hd.
    split; [done|]. intros Heq. by apply error_keys_not_checker_keys.
Qed.

(** The theorem at the record built when the probe of [admin:1234]
    raises. *)
Lemma synthetic_record_shape_witness :
  dom admin_error_record = error_keys
  ∧ (∀ k, k ∈ checker_only_keys → admin_error_record !! k = None)
  ∧ (∀ L self now' r' d',
       FTPChecker.check L self (FTPChecker.__init__ self now') = (Ok r', d') →
       dom r' = error_keys ∪ checker_only_keys ∧ dom r' ≠ dom admin_error_record)
  ∧ (∀ L self now' r' d',
       SFTPChecker.check L self (SFTPChecker.__init__ self now') = (Ok r', d') →
       dom r' = error_keys ∪ checker_only_keys ∧ dom r' ≠ dom admin_error_record).
Proof.
  apply (synthetic_record_shape (BruteForcer.combo scenario_D 21 "admin" "1234")
           "2024-01-01T00:00:01" (Exn OSErrorPlain "Socket is closed")).
  unfold admin_error_record.
  destruct (error_result_ok combo_keys
              (BruteForcer.combo scenario_D 21 "admin" "1234")
              "2024-01-01T00:00:01" (Exn OSErrorPlain "Socket is closed")
              (combo_has_keys _ _ _ _)) as [r ->]; [|reflexivity].
  intros k Hk. unfold combo_keys. rewrite !elem_of_cons in Hk.
  rewrite !elem_of_cons. tauto.
Defined.

(** * The combo list *)

(** C4 (the code departs from it).  With a combo file of two lines,
    [main] hands [brute_force] the two usernames and the two passwords as
    independent lists, and [brute_force] pairs every username with every
    password: four attempts on the one port, among them alice with bob's
    password. *)
Theorem combo_list_is_cross_multiplied :
  Main.configure combo_file_os combo_list_args
  = Main.RunBruteForce scenario_D ["alice"; "bob"] ["wonderland"; "builder"] [21]
  ∧ BruteForcer.combinations scenario_D ["alice"; "bob"]
      ["wonderland"; "builder"] [21]
    = [ BruteForcer.combo scenario_D 21 "alice" "wonderland";
        BruteForcer.combo scenario_D 21 "alice" "builder";
        BruteForcer.combo scenario_D 21 "bob" "wonderland";
        BruteForcer.combo scenario_D 21 "bob" "builder" ]
  ∧ length (BruteForcer.combinations scenario_D ["alice"; "bob"]
              ["wonderland"; "builder"] [21])
    = (length [21] * (2 * 2))%nat.
Proof.
  split; [vm_compute; reflexivity|].
  rewrite combinations_cross_product. split; reflexivity.
Qed.

(** In general the number of attempts is quadratic in the number of combo
    lines. *)
Lemma load_combos_lengths combos :
  length (Main.load_combos combos).1 = length (List.filter has_colon combos)
  ∧ length (Main.load_combos combos).2 = length (List.filter has_colon combos).
Proof.
  unfold Main.load_combos.
  assert (∀ us ps,
            length (fold_left
                      (λ '(usernames, passwords) combo,
                         if has_colon combo
                         then let '(u, p) := split_colon_once combo in
                              (usernames ++ [strip u], passwords ++ [strip p])
                         else (usernames, passwords)) combos (us, ps)).1
            = (length us + length (List.filter has_colon combos))%nat
            ∧ length (fold_left
                        (λ '(usernames, passwords) combo,
                           if has_colon combo
                           then let '(u, p) := split_colon_once combo in
                                (usernames ++ [strip u], passwords ++ [strip p])
                           else (usernames, passwords)) combos (us, ps)).2
              = (length ps + length (List.filter has_colon combos))%nat) as H.
  { induction combos as [|c cs IH]; intros us ps; simpl; [lia|].
    destruct (has_colon c); [|apply IH].
    destruct (split_colon_once c) as [u p].
    destruct (IH (us ++ [strip u]) (ps ++ [strip p])) as [-> ->].
    rewrite !length_app. simpl. lia. }
  destruct (H [] []) as [-> ->]. done.
Qed.

(** * Records and the instances that own them *)

(** [check] is its statements followed by its [return]. *)
Lemma FTP_check_then_ok {A} L self (k : M dict A) d r d' :
  FTPChecker.check L self d = (Ok r, d') →
  FTPChecker.check_then L self k d = k d'.
Proof.
  unfold FTPChecker.check, FTPChecker.check_then, bind, setitem, modify, get.
  destruct (try_clauses _ _ d) as [[[]|e] d1]; [|done].
  by intros [= _ <-].
Qed.

Lemma FTP_check_then_raise {A} L self (k : M dict A) d e d' :
  FTPChecker.check L self d = (Raise e, d') →
  FTPChecker.check_then L self k d = (Raise e, d').
Proof.
  unfold FTPChecker.check, FTPChecker.check_then, bind, setitem, modify, get.
  destruct (try_clauses _ _ d) as [[[]|e0] d1]; [done|].
  by intros [= <- <-].
Qed.

Lemma SFTP_check_frame_then_bind {A} L self (K : M SFTPChecker.frame A) f :
  SFTPChecker.check_frame_then L self K f
  = (SFTPChecker.check_frame_then L self (ret tt);;; K) f.
Proof.
  unfold SFTPChecker.check_frame_then, bind, SFTPChecker.on_results, setitem,
    modify, get, call, ret.
  destruct (try_finally _ _ f) as [[[]|e] [d1 b1]]; [|done]. simpl.
  by destruct (getitem (<["total_time" := _]> d1) "connection_time").
Qed.

Lemma SFTP_check_then_cases L self d :
  (∃ d', (∀ B (k' : M dict B), SFTPChecker.check_then L self k' d = k' d'))
  ∨ (∃ e d', (∀ B (k' : M dict B),
                SFTPChecker.check_then L self k' d = (Raise e, d'))).
Proof.
  destruct (SFTPChecker.check_frame_then L self (ret tt)
              (SFTPChecker.Frame d false)) as [[[]|e] [d1 b1]] eqn:E.
  - left. exists d1. intros B k'. unfold SFTPChecker.check_then.
    rewrite SFTP_check_frame_then_bind. unfold bind. rewrite E.
    unfold SFTPChecker.on_results. simpl. by destruct (k' d1).
  - right. exists e, d1. intros B k'. unfold SFTPChecker.check_then.
    rewrite SFTP_check_frame_then_bind. unfold bind. by rewrite E.
Qed.

Lemma SFTP_check_then_ok {A} L self (k : M dict A) d r d' :
  SFTPChecker.check L self d = (Ok r, d') →
  SFTPChecker.check_then L self k d = k d'.
Proof.
  unfold SFTPChecker.check.
  destruct (SFTP_check_then_cases L self d) as [[d1 H]|(e & d1 & H)];
    rewrite !H; [|done].
  by intros [= _ <-].
Qed.

Lemma SFTP_check_then_raise {A} L self (k : M dict A) d e d' :
  SFTPChecker.check L self d = (Raise e, d') →
  SFTPChecker.check_then L self k d = (Raise e, d').
Proof.
  unfold SFTPChecker.check.
  destruct (SFTP_check_then_cases L self d) as [[d1 H]|(e1 & d1 & H)];
    rewrite !H; [done|].
  by intros [= <- <-].
Qed.

(** The method on the heap, from what [check] does to the dictionary. *)
Lemma FTPChecker_check_heap L self (h : Object.heap) d :
  h !! Object.self_results self = Some d →
  Object.FTPChecker_check L self h
  = match FTPChecker.check L (Object.attrs self) d with
    | (Ok _, d') =>
        (Ok (Object.self_results self), <[Object.self_results self := d']> h)
    | (Raise e, d') => (Raise e, <[Object.self_results self := d']> h)
    end.
Proof.
  intros Hd. unfold Object.FTPChecker_check, Object.on_self_results. rewrite Hd.
  destruct (FTPChecker.check L (Object.attrs self) d) as [[r|e] d'] eqn:E.
  - by rewrite (FTP_check_then_ok _ _ _ _ _ _ E).
  - by rewrite (FTP_check_then_raise _ _ _ _ _ _ E).
Qed.

Lemma SFTPChecker_check_heap L self (h : Object.heap) d :
  h !! Object.self_results self = Some d →
  Object.SFTPChecker_check L self h
  = match SFTPChecker.check L (Object.attrs self) d with
    | (Ok _, d') =>
        (Ok (Object.self_results self), <[Object.self_results self := d']> h)
    | (Raise e, d') => (Raise e, <[Object.self_results self := d']> h)
    end.
Proof.
  intros Hd. unfold Object.SFTPChecker_check, Object.on_self_results. rewrite Hd.
  destruct (SFTPChecker.check L (Object.attrs self) d) as [[r|e] d'] eqn:E.
  - by rewrite (SFTP_check_then_ok _ _ _ _ _ _ E).
  - by rewrite (SFTP_check_then_raise _ _ _ _ _ _ E).
Qed.

Lemma on_self_results_frame {A} self (m : M dict A) (h : Object.heap) l :
  l ≠ Object.self_results self →
  (Object.on_self_results self m h).2 !! l = h !! l.
Proof.
  intros Hl. unfold Object.on_self_results.
  destruct (h !! Object.self_results self) as [d|]; [|done].
  destruct (m d) as [r d']. simpl. by rewrite lookup_insert_ne.
Qed.

Lemma new_is_fresh (h : Object.heap) (d : dict) :
  fresh (dom h) ∉ dom h ∧
  ∀ l, l ∈ dom h → <[fresh (dom h) := d]> h !! l = h !! l.
Proof.
  split; [apply is_fresh|]. intros l Hl.
  apply lookup_insert_ne. intros <-. by apply (is_fresh (dom h)).
Qed.

(** [errors] only grows: what a record held is a prefix of what it holds
    after a further [check]. *)
Lemma errors_extend_closed es :
  update_closed written (errors_extend es).
Proof.
  split.
  - intros k v d Hk [es' H]. exists es'. rewrite lookup_insert_ne; [done|].
    intros ->. by vm_compute in Hk.
  - intros msg l d Hl [es' H]. exists (es' ++ [msg]).
    rewrite lookup_insert_eq. rewrite H in Hl. injection Hl as <-.
    by rewrite <- app_assoc.
Qed.

Lemma errors_extend_refl d es :
  d !! "errors" = Some (VList es) → errors_extend es d.
Proof. intros H. exists []. by rewrite app_nil_r. Qed.

Lemma FTP_check_total_time L self d r d' :
  FTPChecker.check L self d = (Ok r, d') →
  r !! "total_time" = Some (VFloat (FTPChecker.total_time L)).
Proof.
  unfold FTPChecker.check, FTPChecker.check_then, bind, setitem, modify, get.
  destruct (try_clauses _ _ d) as [[[]|e] d1]; [|done].
  intros [= <- _]. apply lookup_insert_eq.
Qed.

Lemma SFTP_check_total_time L self d r d' :
  SFTPChecker.check L self d = (Ok r, d') →
  r !! "total_time" = Some (VFloat (SFTPChecker.total_time L)).
Proof.
  unfold SFTPChecker.check, SFTPChecker.check_then, SFTPChecker.check_frame_then.
  unfold bind at 1.
  destruct (try_finally _ _ (SFTPChecker.Frame d false)) as [[[]|e] [d1 b1]];
    [|done].
  unfold bind, SFTPChecker.on_results, setitem, modify, get, call. simpl.
  destruct (getitem (<["total_time" := _]> d1) "connection_time") as [ct|e];
    [|done].
  simpl. intros [= <- _]. by rewrite lookup_insert_ne, lookup_insert_eq.
Qed.

(** A probe that fails before or at the connection stage appends exactly
    one entry to [errors], whatever the record held before. *)
Lemma FTP_connect_failure_appends L self d es :
  d !! "errors" = Some (VList es) →
  (∃ e, FTPChecker.FTP_new L = Raise e) ∨ (∃ e, FTPChecker.connect L = Raise e) →
  ∃ msg, (FTPChecker.check L self d).2 !! "errors" = Some (VList (es ++ [msg])).
Proof.
  intros Hes H.
  assert (∃ e, (call (FTPChecker.FTP_new L);;;
                try_finally (FTPChecker.session L self)
                  (call (FTPChecker.FTP_exit L))) d
               = (Raise e, d)) as [e He].
  { unfold bind at 1. unfold call at 1.
    destruct (FTPChecker.FTP_new L) as [[]|e0]; [|by eexists].
    destruct H as [[e H]|[e H]]; [done|].
    unfold try_finally, FTPChecker.session, bind at 1, call at 1 2.
    rewrite H. destruct (FTPChecker.FTP_exit L); by eexists. }
  unfold FTPChecker.check, FTPChecker.check_then, bind at 1, try_clauses.
  rewrite He. simpl select_clause.
  destruct (is_ftplib_all_errors e), (is_socket_timeout e), (is_socket_gaierror e);
    cbv beta iota; rewrite (errors_append_ok _ es) by done;
    eexists; simpl; by rewrite lookup_insert_ne, lookup_insert_eq.
Qed.

(** C9 (as amended).  [check] returns the reference its instance holds in
    [self.results], not a copy.  For an instance newly created in any heap:
    its record is at an address not in use, and creating it changes no other
    record; [check] returns that address; a further [check] on the same
    instance returns the same address again and has changed the record
    there, in place: the entries [errors] held are kept and what the second
    probe appends follows them (exactly one entry when the second probe
    cannot connect), and [total_time] is overwritten.  A [check] on an
    instance changes no record but its own. *)
Theorem returned_record_belongs_to_its_instance (a : checker) (now : string)
    (h0 : Object.heap) :
  (let self := (Object.FTPChecker_new a now h0).1 in
   let h := (Object.FTPChecker_new a now h0).2 in
   let l := Object.self_results self in
   l ∉ dom h0
   ∧ (∀ l', l' ∈ dom h0 → h !! l' = h0 !! l')
   ∧ ∀ L1, ∃ d1 es1,
       Object.FTPChecker_check L1 self h = (Ok l, <[l := d1]> h)
       ∧ d1 !! "errors" = Some (VList es1)
       ∧ ∀ L2, ∃ d2 es2,
           Object.FTPChecker_check L2 self (<[l := d1]> h)
           = (Ok l, <[l := d2]> h)
           ∧ d2 !! "errors" = Some (VList (es1 ++ es2))
           ∧ d2 !! "total_time" = Some (VFloat (FTPChecker.total_time L2))
           ∧ ((∃ e, FTPChecker.FTP_new L2 = Raise e)
              ∨ (∃ e, FTPChecker.connect L2 = Raise e) → length es2 = 1%nat))
  ∧ (let self := (Object.SFTPChecker_new a now h0).1 in
     let h := (Object.SFTPChecker_new a now h0).2 in
     let l := Object.self_results self in
     l ∉ dom h0
     ∧ (∀ l', l' ∈ dom h0 → h !! l' = h0 !! l')
     ∧ ∀ L1, SFTPChecker.ssh_close L1 = Ok tt →
         ∃ d1 es1,
           Object.SFTPChecker_check L1 self h = (Ok l, <[l := d1]> h)
           ∧ d1 !! "errors" = Some (VList es1)
           ∧ ∀ L2, SFTPChecker.ssh_close L2 = Ok tt →
               ∃ d2 es2,
                 Object.SFTPChecker_check L2 self (<[l := d1]> h)
                 = (Ok l, <[l := d2]> h)
                 ∧ d2 !! "errors" = Some (VList (es1 ++ es2))
                 ∧ d2 !! "total_time"
                   = Some (VFloat (SFTPChecker.total_time L2)))
  ∧ (∀ self (h : Object.heap) L l,
       ((Object.FTPChecker_check L self h).1 = Ok l →
        l = Object.self_results self)
       ∧ (l ≠ Object.self_results self →
          (Object.FTPChecker_check L self h).2 !! l = h !! l))
  ∧ (∀ self (h : Object.heap) L l,
       ((Object.SFTPChecker_check L self h).1 = Ok l →
        l = Object.self_results self)
       ∧ (l ≠ Object.self_results self →
          (Object.SFTPChecker_check L self h).2 !! l = h !! l)).
Proof.
  split; [|split; [|split]].
  - simpl. set (l := fresh (dom h0)).
    split; [apply is_fresh|]. split; [by apply new_is_fresh|].
    intros L1.
    destruct (FTP_check_fresh L1 a now) as (d1 & Hd1 & [es1 He1] & Hf1 & _).
    exists d1, es1. split; [|split; [done|]].
    { rewrite (FTPChecker_check_heap L1 (Object.Instance a l) _
                 (FTPChecker.__init__ a now)) by apply lookup_insert_eq.
      simpl. rewrite Hd1. by rewrite insert_insert_eq. }
    intros L2.
    destruct (FTP_check_spec L2 a d1 (ex_intro _ es1 He1) Hf1)
      as (d2 & Hd2 & _).
    pose proof (FTP_check_preserves _ L2 a (errors_extend_closed es1) d1
                  (errors_extend_refl d1 es1 He1)) as [es2 He2].
    rewrite Hd2 in He2. simpl in He2.
    exists d2, es2. split; [|split; [done|split]].
    + rewrite (FTPChecker_check_heap L2 (Object.Instance a l) _ d1)
        by apply lookup_insert_eq.
      simpl. rewrite Hd2. by rewrite !insert_insert_eq.
    + by apply (FTP_check_total_time L2 a d1 d2 d2).
    + intros H.
      destruct (FTP_connect_failure_appends L2 a d1 es1 He1 H) as [msg Hm].
      rewrite Hd2 in Hm. simpl in Hm. rewrite He2 in Hm.
      injection Hm as Hm. apply app_inv_head in Hm. by subst es2.
  - simpl. set (l := fresh (dom h0)).
    split; [apply is_fresh|]. split; [by apply new_is_fresh|].
    intros L1 Hc1.
    destruct (SFTP_check_fresh L1 a now) as [H1 H2].
    destruct (H1 Hc1) as [d1 Hd1].
    destruct (H2 d1 d1 Hd1) as (_ & [es1 He1] & Hf1 & _).
    assert (Hct : is_Some (d1 !! "connection_time")).
    { pose proof (SFTP_check_preserves _ L1 a has_connection_time_closed
                    (SFTPChecker.__init__ a now) (mk_is_Some _ _ eq_refl)) as H.
      by rewrite Hd1 in H. }
    exists d1, es1. split; [|split; [done|]].
    { rewrite (SFTPChecker_check_heap L1 (Object.Instance a l) _
                 (SFTPChecker.__init__ a now)) by apply lookup_insert_eq.
      simpl. rewrite Hd1. by rewrite insert_insert_eq. }
    intros L2 Hc2.
    destruct (SFTP_check_spec L2 a d1 (ex_intro _ es1 He1) Hf1 Hct) as [H3 _].
    destruct (H3 Hc2) as [d2 Hd2].
    pose proof (SFTP_check_preserves _ L2 a (errors_extend_closed es1) d1
                  (errors_extend_refl d1 es1 He1)) as [es2 He2].
    rewrite Hd2 in He2. simpl in He2.
    exists d2, es2. split; [|split; [done|]].
    + rewrite (SFTPChecker_check_heap L2 (Object.Instance a l) _ d1)
        by apply lookup_insert_eq.
      simpl. rewrite Hd2. by rewrite !insert_insert_eq.
    + by apply (SFTP_check_total_time L2 a d1 d2 d2).
  - intros self h L l. split.
    + unfold Object.FTPChecker_check, Object.on_self_results.
      destruct (h !! Object.self_results self) as [d|]; [|done].
      destruct (FTPChecker.check L (Object.attrs self) d) as [[r|e] d'] eqn:E.
      * rewrite (FTP_check_then_ok _ _ _ _ _ _ E). simpl. congruence.
      * by rewrite (FTP_check_then_raise _ _ _ _ _ _ E).
    + apply on_self_results_frame.
  - intros self h L l. split.
    + unfold Object.SFTPChecker_check, Object.on_self_results.
      destruct (h !! Object.self_results self) as [d|]; [|done].
      destruct (SFTPChecker.check L (Object.attrs self) d) as [[r|e] d'] eqn:E.
      * rewrite (SFTP_check_then_ok _ _ _ _ _ _ E). simpl. congruence.
      * by rewrite (SFTP_check_then_raise _ _ _ _ _ _ E).
    + apply on_self_results_frame.
Qed.

(** The theorem at a first [FTPChecker] in the empty heap, checked twice
    against an unreachable host: both calls return the same address, and the
    record there has one more entry in [errors] after the second. *)
Lemma returned_record_belongs_to_its_instance_witness :
  ∃ d1 es1 d2 es2,
    Object.FTPChecker_check ftp_unreachable first_instance.1 first_instance.2
    = (Ok (Object.self_results first_instance.1),
       <[Object.self_results first_instance.1 := d1]> first_instance.2)
    ∧ d1 !! "errors" = Some (VList es1)
    ∧ Object.FTPChecker_check ftp_unreachable first_instance.1
        (<[Object.self_results first_instance.1 := d1]> first_instance.2)
      = (Ok (Object.self_results first_instance.1),
         <[Object.self_results first_instance.1 := d2]> first_instance.2)
    ∧ d2 !! "errors" = Some (VList (es1 ++ es2))
    ∧ d2 !! "total_time"
      = Some (VFloat (FTPChecker.total_time ftp_unreachable))
    ∧ length es2 = 1%nat.
Proof.
  destruct (proj2 (proj2 (proj1 (returned_record_belongs_to_its_instance
                                   anonymous_probe "2024-01-01T00:00:00" ∅)))
              ftp_unreachable) as (d1 & es1 & H1 & He1 & H2).
  destruct (H2 ftp_unreachable) as (d2 & es2 & Hd2 & He2 & Ht2 & Hlen).
  exists d1, es1, d2, es2. repeat (split; [assumption|]).
  apply Hlen. right. by eexists.
Defined.

(** C9 as stated fails: calling [check] again on the same instance changes
    the record the first call returned; its [errors] grows. *)
Lemma second_check_changes_returned_record :
  after_first_check.1 = Ok (Object.self_results first_instance.1)
  ∧ after_second_check.1 = Ok (Object.self_results first_instance.1)
  ∧ errors_at after_first_check.2 (Object.self_results first_instance.1)
    = Some (VList ["FTP error: timed out"])
  ∧ errors_at after_second_check.2 (Object.self_results first_instance.1)
    = Some (VList ["FTP error: timed out"; "FTP error: timed out"]).
Proof. repeat split; vm_compute; reflexivity. Qed.

(** * The reports *)

Lemma string_app_assoc (a b c : string) : (a +:+ b) +:+ c = a +:+ (b +:+ c).
Proof.
  induction a as [|x a IH]; [done|].
  change (String x ((a +:+ b) +:+ c) = String x (a +:+ b +:+ c)).
  by rewrite IH.
Qed.

Lemma string_app_empty_r (a : string) : a +:+ EmptyString = a.
Proof.
  induction a as [|x a IH]; [done|].
  change (String x (a +:+ EmptyString) = String x a). by rewrite IH.
Qed.

Lemma connection_and_authentication_is_success r b :
  connection_and_authentication r = Ok b → is_success r = b.
Proof.
  unfold connection_and_authentication, getitem, is_success, dict_get.
  destruct (r !! "connection") as [c|]; [|done].
  destruct (truthy c); simpl.
  - destruct (r !! "authentication") as [a|]; [|done]. by intros [= <-].
  - by intros [= <-].
Qed.

Lemma count_successful_spec results n :
  count_successful results = Ok n →
  n = length (List.filter is_success results) ∧ (n ≤ length results)%nat.
Proof.
  revert n. induction results as [|r rest IH]; simpl; intros n.
  - intros [= <-]. done.
  - destruct (connection_and_authentication r) as [b|] eqn:Eb; [|done].
    destruct (count_successful rest) as [m|]; [|done].
    intros [= <-]. destruct (IH m eq_refl) as [-> Hle].
    rewrite (connection_and_authentication_is_success r b Eb).
    destruct b; simpl; lia.
Qed.

Lemma txt_header_run results now n :
  count_successful results = Ok n →
  AdvancedFTPChecker.txt_header results now EmptyString
  = (Ok tt, txt_header_text now (Z.of_nat (length results)) (Z.of_nat n)).
Proof.
  intros H. unfold AdvancedFTPChecker.txt_header, AdvancedFTPChecker.emit, bind, modify, call.
  rewrite H. reflexivity.
Qed.

Lemma preserves_prefix_emit pre s :
  preserves (λ content, ∃ rest, content = pre +:+ rest) (AdvancedFTPChecker.emit s).
Proof.
  apply preserves_modify. intros content [rest ->].
  exists (rest +:+ s). apply string_app_assoc.
Qed.

Lemma txt_block_appends pre it :
  preserves (λ content, ∃ rest, content = pre +:+ rest) (AdvancedFTPChecker.txt_block it).
Proof.
  destruct it as [i result]. unfold AdvancedFTPChecker.txt_block, AdvancedFTPChecker.emit_ms.
  preserve ltac:(apply preserves_prefix_emit).
Qed.

Lemma save_txt_header results now n content :
  count_successful results = Ok n →
  AdvancedFTPChecker._save_txt results now = Ok content →
  ∃ rest,
    content
    = txt_header_text now (Z.of_nat (length results)) (Z.of_nat n) +:+ rest.
Proof.
  intros Hn. unfold AdvancedFTPChecker._save_txt. unfold bind at 1.
  rewrite (txt_header_run results now n Hn).
  match goal with
  | |- context [for_each ?l ?body ?c0] =>
      pose proof (preserves_for_each
                    (λ content, ∃ rest, content = c0 +:+ rest) l body
                    (txt_block_appends c0) c0) as Hp;
      destruct (for_each l body c0) as [[[]|e] c1]
  end; [|done].
  intros [= <-]. apply Hp. exists EmptyString.
  by rewrite string_app_empty_r.
Qed.

Lemma save_xml_header results now n root :
  count_successful results = Ok n →
  AdvancedFTPChecker._save_xml results now = Ok root →
  ∃ servers,
    root = AdvancedFTPChecker.Element "ftp_check_results" VNone
             (xml_header_elements now (Z.of_nat (length results)) (Z.of_nat n)
              ++ [AdvancedFTPChecker.Element "servers" VNone servers]).
Proof.
  intros Hn. unfold AdvancedFTPChecker._save_xml, AdvancedFTPChecker.xml_header.
  unfold bind, AdvancedFTPChecker.sub_text, modify, call, AdvancedFTPChecker.sub_element.
  rewrite Hn. simpl.
  destruct (for_each results AdvancedFTPChecker.xml_server []) as [[[]|e] servers]; [|done].
  intros [= <-]. by exists servers.
Qed.

Lemma save_json_header results now n :
  count_successful results = Ok n →
  AdvancedFTPChecker._save_json results now
  = Ok (AdvancedFTPChecker.Json now (Z.of_nat (length results)) (Z.of_nat n)
          (Z.of_nat (length results) - Z.of_nat n) results).
Proof. intros Hn. unfold AdvancedFTPChecker._save_json. by rewrite Hn. Qed.

Lemma csv_rows_length results rows :
  AdvancedFTPChecker.csv_rows results = Ok rows → length rows = length results.
Proof.
  revert rows. induction results as [|r rest IH]; simpl; intros rows.
  - by intros [= <-].
  - destruct (AdvancedFTPChecker.csv_row r) as [row|]; [|done].
    destruct (AdvancedFTPChecker.csv_rows rest) as [rows'|]; [|done].
    intros [= <-]. simpl. by rewrite (IH rows' eq_refl).
Qed.

(** C6 as stated fails for CSV: the report of the empty result list is the
    row of column names alone, and the counts (all 0 here) appear
    nowhere in it. *)
Lemma csv_report_has_no_header_block :
  AdvancedFTPChecker._save_csv [] = Ok [AdvancedFTPChecker.csv_columns]
  ∧ csv_mentions "0" [AdvancedFTPChecker.csv_columns] = false
  ∧ csv_mentions "Generated" [AdvancedFTPChecker.csv_columns] = false.
Proof. repeat split; vm_compute; reflexivity. Qed.

(** ** Reports of a list that holds a record of a failed invocation *)

(** The text and XML writers read [result['connection_time']], which such
    a record does not have. *)
Lemma synthetic_record_breaks_txt_and_xml d now e r now' :
  error_result d now e = Ok r →
  AdvancedFTPChecker._save_txt [r] now' = Raise (KeyError "connection_time")
  ∧ AdvancedFTPChecker._save_xml [r] now' = Raise (KeyError "connection_time")
  ∧ count_successful [r] = Ok 0%nat.
Proof.
  intros H. destruct (error_result_inv d now e r H) as (h & p & u & proto & _ & ->).
  repeat split; vm_compute; reflexivity.
Qed.

(** C7 (the code departs from it).  For the result list that holds the
    record built when the probe of [admin:1234] raised, the text and the
    XML writer raise [KeyError: 'connection_time'] instead of producing a
    report, while the JSON and the CSV writer succeed and count the failure;
    and a brute-force run over SFTP with [--txt], in which [ssh.close()]
    raises, ends in that uncaught exception with no report written. *)
Theorem failed_probe_aborts_text_and_xml_reports :
  AdvancedFTPChecker._save_txt [admin_error_record] "2024-01-01T00:01:00"
  = Raise (KeyError "connection_time")
  ∧ AdvancedFTPChecker._save_xml [admin_error_record] "2024-01-01T00:01:00"
    = Raise (KeyError "connection_time")
  ∧ AdvancedFTPChecker.failed_connections
      <$> (match AdvancedFTPChecker._save_json [admin_error_record] "2024-01-01T00:01:00"
           with Ok data => Some data | Raise _ => None end)
    = Some 1
  ∧ (match AdvancedFTPChecker._save_csv [admin_error_record] with
     | Ok rows => csv_mentions "Check failed: Socket is closed" rows
     | Raise _ => false
     end) = true
  ∧ (Main.main empty_os closing_world frozen_clock sftp_txt_args).1.1
    = Main.Crashed (KeyError "connection_time")
  ∧ length (Main.main empty_os closing_world frozen_clock sftp_txt_args).1.2
    = 1%nat
  ∧ (Main.main empty_os closing_world frozen_clock sftp_txt_args).2 = []
  ∧ Main.exit_status
      (Main.main empty_os closing_world frozen_clock sftp_txt_args).1.1 = 1.
Proof. repeat split; vm_compute; reflexivity. Qed.

(** * The configuration stage *)











(** * The FileZilla parser *)

Lemma getitem_insert_eq (d : dict) k v : getitem (<[k := v]> d) k = Ok v.
Proof. unfold getitem. by rewrite lookup_insert_eq. Qed.

Lemma getitem_insert_ne (d : dict) k k' v :
  k ≠ k' → getitem (<[k := v]> d) k' = getitem d k'.
Proof. intros H. unfold getitem. by rewrite lookup_insert_ne. Qed.

Lemma text_str_or_None c : str_or_None (FileZillaParser.text c) = true.
Proof. by destruct c as [t a [s|] cs]. Qed.

Lemma child_text_str_or_None e t default :
  str_or_None default = true →
  str_or_None (FileZillaParser.child_text e t default) = true.
Proof.
  intros H. unfold FileZillaParser.child_text.
  destruct (FileZillaParser.find e t); [apply text_str_or_None|done].
Qed.

(** The dictionary the loop body builds from the values it computed. *)
Lemma server_record_run L e p q :
  FileZillaParser.child_int e "Port" 21 = Ok p →
  FileZillaParser.child_int e "Protocol" 0 = Ok q →
  ∃ pw,
    str_or_None pw = true ∧
    FileZillaParser.server_record L e ∅
    = (Ok tt,
       let h := FileZillaParser.child_text e "Host" VNone in
       let u := FileZillaParser.child_text e "User" VNone in
       <["logontype" := FileZillaParser.child_text e "Logontype" (VStr "1")]> (
       <["type" := VStr (if q =? 0 then "FTP" else "SFTP")]> (
       <["name" := VStr (py_str u +:+ "@" +:+ py_str h +:+ ":" +:+ str_of_Z p)]> (
       <["password" := pw]> (
       <["username" := u]> (
       <["protocol" := VInt q]> (
       <["port" := VInt p]> (
       <["host" := h]> ∅)))))))).
Proof.
  intros Hp Hq. unfold FileZillaParser.server_record.
  assert (Htail : ∀ pw d,
    d = <["password" := pw]> (
        <["username" := FileZillaParser.child_text e "User" VNone]> (
        <["protocol" := VInt q]> (
        <["port" := VInt p]> (
        <["host" := FileZillaParser.child_text e "Host" VNone]> ∅)))) →
    (server <- get;;
     u <- call (getitem server "username");;
     h <- call (getitem server "host");;
     p <- call (getitem server "port");;
     setitem "name" (VStr (py_str u +:+ "@" +:+ py_str h +:+ ":" +:+ py_str p));;;
     server <- get;;
     proto <- call (getitem server "protocol");;
     setitem "type" (VStr (if py_eq_int proto 0 then "FTP" else "SFTP"));;;
     setitem "logontype" (FileZillaParser.child_text e "Logontype" (VStr "1"))) d
    = (Ok tt,
       <["logontype" := FileZillaParser.child_text e "Logontype" (VStr "1")]> (
       <["type" := VStr (if q =? 0 then "FTP" else "SFTP")]> (
       <["name" := VStr (py_str (FileZillaParser.child_text e "User" VNone)
                         +:+ "@"
                         +:+ py_str (FileZillaParser.child_text e "Host" VNone)
                         +:+ ":" +:+ str_of_Z p)]> d)))).
  { intros pw d ->. unfold bind, get, call, setitem, modify.
    rewrite !getitem_insert_ne, getitem_insert_eq by done.
    rewrite !getitem_insert_ne, getitem_insert_eq by done.
    rewrite !getitem_insert_ne, getitem_insert_eq by done.
    rewrite !getitem_insert_ne, getitem_insert_eq by done.
    reflexivity. }
  unfold bind at 1, setitem at 1, modify at 1.
  unfold bind at 1, call at 1. rewrite Hp.
  unfold bind at 1, setitem at 1, modify at 1.
  unfold bind at 1, call at 1. rewrite Hq.
  unfold bind at 1, setitem at 1, modify at 1.
  unfold bind at 1, setitem at 1, modify at 1.
  unfold bind at 1.
  destruct (FileZillaParser.find e "Pass") as [pass_elem|].
  - cbv zeta.
    destruct (String.eqb _ "base64" && truthy (FileZillaParser.text pass_elem)).
    + unfold try_except, bind at 1, call at 1.
      destruct (FileZillaParser.b64decode L (FileZillaParser.text pass_elem))
        as [decoded|x].
      * exists (VStr decoded). split; [done|].
        unfold setitem at 1, modify at 1. cbv beta iota.
        by rewrite (Htail (VStr decoded) _ eq_refl).
      * exists (FileZillaParser.text pass_elem).
        split; [apply text_str_or_None|].
        unfold any_exception. cbv beta iota.
        unfold setitem at 1, modify at 1. cbv beta iota.
        by rewrite (Htail (FileZillaParser.text pass_elem) _ eq_refl).
    + exists (FileZillaParser.text pass_elem).
      split; [apply text_str_or_None|].
      unfold setitem at 1, modify at 1. cbv beta iota.
      by rewrite (Htail (FileZillaParser.text pass_elem) _ eq_refl).
  - exists VNone. split; [done|].
    unfold setitem at 1, modify at 1. cbv beta iota.
    by rewrite (Htail VNone _ eq_refl).
Qed.

Lemma server_record_raises L e :
  (∀ x, FileZillaParser.child_int e "Port" 21 = Raise x →
        (FileZillaParser.server_record L e ∅).1 = Raise x)
  ∧ (∀ p x, FileZillaParser.child_int e "Port" 21 = Ok p →
            FileZillaParser.child_int e "Protocol" 0 = Raise x →
            (FileZillaParser.server_record L e ∅).1 = Raise x).
Proof.
  unfold FileZillaParser.server_record. split.
  - intros x Hx.
    unfold bind at 1, setitem at 1, modify at 1.
    unfold bind at 1, call at 1. by rewrite Hx.
  - intros p x Hp Hx.
    unfold bind at 1, setitem at 1, modify at 1.
    unfold bind at 1, call at 1. rewrite Hp.
    unfold bind at 1, setitem at 1, modify at 1.
    unfold bind at 1, call at 1. by rewrite Hx.
Qed.

Lemma parsed_record_built h u pw lt p q :
  str_or_None h = true → str_or_None u = true → str_or_None pw = true →
  str_or_None lt = true →
  parsed_record
    (<["logontype" := lt]> (
     <["type" := VStr (if q =? 0 then "FTP" else "SFTP")]> (
     <["name" := VStr (py_str u +:+ "@" +:+ py_str h +:+ ":" +:+ str_of_Z p)]> (
     <["password" := pw]> (
     <["username" := u]> (
     <["protocol" := VInt q]> (
     <["port" := VInt p]> (
     <["host" := h]> ∅)))))))).
Proof.
  intros Hh Hu Hpw Hlt. split.
  - rewrite !dom_insert_L, dom_empty_L. unfold parser_keys. simpl. set_solver.
  - exists h, u, pw, lt.
    repeat (split; [by simplify_map_eq|]).
    repeat (split; [done|]).
    exists p, q. repeat split; by simplify_map_eq.
Qed.

(** A [Server] element whose [Port] and [Protocol] are integers gets its
    record; any other makes the body raise a [TypeError] or a
    [ValueError]. *)
Lemma new_server_numeric L e :
  numeric e = true →
  ∃ r, FileZillaParser.new_server L e = Ok r ∧ parsed_record r.
Proof.
  unfold numeric. intros H.
  destruct (FileZillaParser.child_int e "Port" 21) as [p|] eqn:Hp; [|done].
  destruct (FileZillaParser.child_int e "Protocol" 0) as [q|] eqn:Hq; [|done].
  destruct (server_record_run L e p q Hp Hq) as (pw & Hpw & Hrun).
  unfold FileZillaParser.new_server. rewrite Hrun. eexists. split; [done|].
  cbv zeta. apply parsed_record_built; try done;
    by apply child_text_str_or_None.
Qed.

Lemma py_int_raises s x : py_int s = Raise x → exn_cls x = ValueErrorC.
Proof.
  unfold py_int.
  destruct (match strip s with
            | EmptyString => None
            | String c r => _
            end); [done|]. by intros [= <-].
Qed.

Lemma child_int_raises e t default x :
  FileZillaParser.child_int e t default = Raise x →
  exn_cls x = TypeErrorC ∨ exn_cls x = ValueErrorC.
Proof.
  unfold FileZillaParser.child_int.
  destruct (FileZillaParser.find e t) as [c|]; [|done].
  destruct (FileZillaParser.text c) as [|b|z|h|s|l]; simpl; try done;
    try (intros [= <-]; by left).
  intros H. right. by eapply py_int_raises.
Qed.

Lemma new_server_inv L e :
  match FileZillaParser.new_server L e with
  | Ok r => numeric e = true ∧ parsed_record r
  | Raise x =>
      numeric e = false ∧ (exn_cls x = TypeErrorC ∨ exn_cls x = ValueErrorC)
  end.
Proof.
  destruct (numeric e) eqn:Hn.
  - destruct (new_server_numeric L e Hn) as (r & -> & Hr). done.
  - unfold numeric in Hn. unfold FileZillaParser.new_server.
    destruct (server_record_raises L e) as [H1 H2].
    destruct (FileZillaParser.child_int e "Port" 21) as [p|x] eqn:Hp.
    + destruct (FileZillaParser.child_int e "Protocol" 0) as [q|x] eqn:Hq;
        [done|].
      specialize (H2 p x eq_refl eq_refl).
      destruct (FileZillaParser.server_record L e ∅) as [[[]|x'] d];
        simpl in H2; [done|]. injection H2 as ->.
      split; [done|]. by eapply child_int_raises.
    + specialize (H1 x eq_refl).
      destruct (FileZillaParser.server_record L e ∅) as [[[]|x'] d];
        simpl in H1; [done|]. injection H1 as ->.
      split; [done|]. by eapply child_int_raises.
Qed.

(** The loop over the [Server] elements: it appends one record per element
    as long as the elements are numeric, and stops at the first that is
    not. *)
Lemma parse_loop L elems servers :
  match for_each elems
          (λ server_elem,
             server <- call (FileZillaParser.new_server L server_elem);;
             modify (λ servers, (servers ++ [server])%list)) servers with
  | (Ok _, servers') =>
      forallb numeric elems = true
      ∧ ∃ rs, servers' = servers ++ rs
              ∧ Forall2 (λ e r, FileZillaParser.new_server L e = Ok r) elems rs
              ∧ Forall parsed_record rs
  | (Raise x, _) =>
      forallb numeric elems = false
      ∧ (exn_cls x = TypeErrorC ∨ exn_cls x = ValueErrorC)
  end.
Proof.
  revert servers. induction elems as [|e elems IH]; intros servers.
  - simpl. split; [done|]. exists []. rewrite app_nil_r.
    split; [done|]. split; constructor.
  - simpl. unfold bind at 1. unfold bind at 1, call at 1.
    pose proof (new_server_inv L e) as He.
    destruct (FileZillaParser.new_server L e) as [r|x] eqn:Hnew.
    + destruct He as [-> Hr]. unfold modify at 1. cbv beta iota.
      specialize (IH (servers ++ [r])).
      destruct (for_each elems _ (servers ++ [r])) as [[[]|x] servers'].
      * destruct IH as (Hn & rs & -> & Hrs & Hp). split; [exact Hn|].
        exists (r :: rs). rewrite <- app_assoc. split; [reflexivity|].
        split; by constructor.
      * destruct IH as [Hn Hx]. split; [exact Hn|exact Hx].
    + destruct He as [-> Hx]. split; [reflexivity|exact Hx].
Qed.

Lemma parse_filezilla_xml_inv L xml_file :
  match FileZillaParser.parse_filezilla_xml L xml_file with
  | Ok servers =>
      ∃ root, FileZillaParser.ET_parse L xml_file = Ok root
        ∧ forallb numeric (FileZillaParser.findall root "Server") = true
        ∧ Forall2 (λ e r, FileZillaParser.new_server L e = Ok r)
            (FileZillaParser.findall root "Server") servers
        ∧ Forall parsed_record servers
  | Raise e =>
      ∃ cause,
        e = Exn OtherException ("Error parsing FileZilla XML: " +:+ exn_str cause)
        ∧ (FileZillaParser.ET_parse L xml_file = Raise cause
           ∨ ∃ root, FileZillaParser.ET_parse L xml_file = Ok root
               ∧ forallb numeric (FileZillaParser.findall root "Server") = false
               ∧ (exn_cls cause = TypeErrorC ∨ exn_cls cause = ValueErrorC))
  end.
Proof.
  unfold FileZillaParser.parse_filezilla_xml, try_except, FileZillaParser.parse.
  unfold bind at 1, call at 1.
  destruct (FileZillaParser.ET_parse L xml_file) as [root|cause].
  - unfold bind at 1.
    pose proof (parse_loop L (FileZillaParser.findall root "Server") []) as H.
    destruct (for_each _ _ []) as [[[]|x] servers'].
    + destruct H as (Hn & rs & -> & Hrs & Hp). simpl.
      exists root. done.
    + destruct H as [Hn Hx]. simpl. exists x. split; [done|]. right.
      exists root. done.
  - simpl. exists cause. split; [done|]. by left.
Qed.

(** X1.  When [ET.parse] returns a tree and the [Port] and [Protocol]
    children of its [Server] elements hold integer literals,
    [parse_filezilla_xml] returns one record per [Server] descendant of the
    root, in document order, and every record has the eight keys host,
    port, protocol, username, password, name, type and logontype, with an
    integer port and protocol, type FTP exactly for protocol 0, and the
    name put together from the record's own username, host and port.  An
    undecodable password never makes the parser fail. *)
Theorem parser_returns_one_record_per_Server_element
    (L : FileZillaParser.lib) (xml_file : string)
    (root : FileZillaParser.element) :
  FileZillaParser.ET_parse L xml_file = Ok root →
  forallb numeric (FileZillaParser.findall root "Server") = true →
  ∃ servers,
    FileZillaParser.parse_filezilla_xml L xml_file = Ok servers
    ∧ Forall2 (λ e r, FileZillaParser.new_server L e = Ok r)
        (FileZillaParser.findall root "Server") servers
    ∧ length servers = length (FileZillaParser.findall root "Server")
    ∧ Forall parsed_record servers.
Proof.
  intros Hroot Hnum. pose proof (parse_filezilla_xml_inv L xml_file) as H.
  destruct (FileZillaParser.parse_filezilla_xml L xml_file) as [servers|e].
  - destruct H as (root' & Hroot' & _ & Hrs & Hp).
    rewrite Hroot in Hroot'. injection Hroot' as <-.
    exists servers. split; [done|]. split; [done|]. split; [|done].
    symmetry. by eapply Forall2_length_eq.
  - destruct H as (cause & _ & [Hc|(root' & Hroot' & Hn & _)]).
    + congruence.
    + rewrite Hroot in Hroot'. injection Hroot' as <-. congruence.
Qed.

(** The theorem at the two sites of [sites.xml]. *)
Lemma parser_returns_one_record_per_Server_element_witness :
  ∃ servers,
    FileZillaParser.parse_filezilla_xml sites_lib "sites.xml" = Ok servers
    ∧ Forall2 (λ e r, FileZillaParser.new_server sites_lib e = Ok r)
        (FileZillaParser.findall sites_xml "Server") servers
    ∧ length servers = length (FileZillaParser.findall sites_xml "Server")
    ∧ Forall parsed_record servers.
Proof.
  apply (parser_returns_one_record_per_Server_element sites_lib "sites.xml"
           sites_xml); reflexivity.
Defined.

(** X2.  Whatever makes [parse_filezilla_xml] fail, it raises a plain
    [Exception] whose text is "Error parsing FileZilla XML: " followed by
    the text of the cause; and the cause is either what [ET.parse] raised or
    the [TypeError] / [ValueError] of a [Server] element whose [Port] or
    [Protocol] is not an integer literal: one such element fails the whole
    file. *)
Theorem parser_failure_is_raised_again
    (L : FileZillaParser.lib) (xml_file : string) (e : exn) :
  FileZillaParser.parse_filezilla_xml L xml_file = Raise e →
  ∃ cause,
    e = Exn OtherException ("Error parsing FileZilla XML: " +:+ exn_str cause)
    ∧ (FileZillaParser.ET_parse L xml_file = Raise cause
       ∨ ∃ root, FileZillaParser.ET_parse L xml_file = Ok root
           ∧ forallb numeric (FileZillaParser.findall root "Server") = false
           ∧ (exn_cls cause = TypeErrorC ∨ exn_cls cause = ValueErrorC)).
Proof.
  intros H. pose proof (parse_filezilla_xml_inv L xml_file) as Hinv.
  rewrite H in Hinv. exact Hinv.
Qed.

(** The theorem at a file that does not exist. *)
Lemma parser_failure_is_raised_again_witness :
  ∃ cause,
    Exn OtherException
      ("Error parsing FileZilla XML: "
       +:+ "[Errno 2] No such file or directory: 'missing.xml'")
    = Exn OtherException ("Error parsing FileZilla XML: " +:+ exn_str cause)
    ∧ (FileZillaParser.ET_parse sites_lib "missing.xml" = Raise cause
       ∨ ∃ root, FileZillaParser.ET_parse sites_lib "missing.xml" = Ok root
           ∧ forallb numeric (FileZillaParser.findall root "Server") = false
           ∧ (exn_cls cause = TypeErrorC ∨ exn_cls cause = ValueErrorC)).
Proof.
  apply (parser_failure_is_raised_again sites_lib "missing.xml"). reflexivity.
Defined.

(** * [check_servers] on the records of the parser and of single-host mode *)

Lemma parsed_record_has_keys r : parsed_record r → has_keys server_keys r.
Proof.
  intros [Hdom _]. unfold has_keys, server_keys.
  repeat constructor; apply elem_of_dom; rewrite Hdom; compute_done.
Qed.

(** The submitting loop on a server record that has the five keys it reads
    and a protocol of 0 or 1. *)
Lemma AdvancedFTPChecker_submit_supported W timeout check_path fs server :
  has_keys combo_keys server → supported server = true →
  ∃ f, AdvancedFTPChecker.submit W timeout check_path fs server = Ok (fs ++ [f])
       ∧ descriptor f = server
       ∧ ∀ r, outcome f = Ok r → readable r.
Proof.
  intros Hk Hs. unfold AdvancedFTPChecker.submit, supported, dict_get in *.
  destruct (has_keys_getitem _ _ "protocol" Hk) as [proto Hproto]; [set_solver|].
  destruct (has_keys_getitem _ _ "host" Hk) as [h ->]; [set_solver|].
  destruct (has_keys_getitem _ _ "username" Hk) as [u ->]; [set_solver|].
  destruct (has_keys_getitem _ _ "password" Hk) as [pw ->]; [set_solver|].
  destruct (has_keys_getitem _ _ "port" Hk) as [p Hp]; [set_solver|].
  rewrite Hproto, Hp. unfold getitem in Hproto.
  destruct (server !! "protocol") as [proto'|]; [|done].
  injection Hproto as ->.
  destruct (py_eq_int proto 0); simpl in *.
  - eexists. split; [reflexivity|]. split; [done|]. apply submit_FTP_readable.
  - rewrite Hs. eexists. split; [reflexivity|]. split; [done|].
    apply submit_SFTP_readable.
Qed.

(** The collecting loop on a server record without ['type']: both branches
    and the [except] clause print [server['type']], so the iteration ends in
    [KeyError], after one or two records were appended. *)
Lemma AdvancedFTPChecker_collect_without_type W i f s :
  has_keys combo_keys (descriptor f) →
  descriptor f !! "type" = None →
  (∀ r, outcome f = Ok r → readable r) →
  ∃ rs out,
    AdvancedFTPChecker.collect W (i, f) s
    = (Raise (KeyError "type"), Run (results s ++ rs) out)
    ∧ (length rs = 1 ∨ length rs = 2)%nat.
Proof.
  intros Hk Hty Hr.
  destruct (has_keys_getitem _ _ "username" Hk) as [u Hu]; [set_solver|].
  destruct (has_keys_getitem _ _ "password" Hk) as [pw Hpw]; [set_solver|].
  destruct (has_keys_getitem _ _ "host" Hk) as [h Hh]; [set_solver|].
  destruct (has_keys_getitem _ _ "port" Hk) as [p Hp]; [set_solver|].
  assert (Hty' : getitem (descriptor f) "type" = Raise (KeyError "type"))
    by (unfold getitem; by rewrite Hty).
  unfold AdvancedFTPChecker.collect, try_except, bind, call, results_append,
    modify, ret.
  destruct (outcome f) as [result|e] eqn:E; simpl.
  - destruct (connection_and_authentication_ok result (Hr _ eq_refl)) as [b ->].
    destruct (error_result_ok combo_keys (descriptor f) (now_collect W i)
                (KeyError "type") Hk) as [r Hre]; [set_solver|].
    rewrite Hu, Hh, Hp, Hty'. destruct b.
    + rewrite Hpw. simpl. rewrite Hre. simpl.
      exists [result; r]. eexists. rewrite <- app_assoc. split; [reflexivity|].
      by right.
    + simpl. rewrite Hre. simpl.
      exists [result; r]. eexists. rewrite <- app_assoc. split; [reflexivity|].
      by right.
  - destruct (error_result_ok combo_keys (descriptor f) (now_collect W i) e Hk)
      as [r Hre]; [set_solver|].
    rewrite Hre, Hu, Hh, Hp, Hty'. simpl.
    exists [r]. eexists. split; [reflexivity|]. by left.
Qed.

Lemma Permutation_singleton_eq {A} (x : A) l : l ≡ₚ [x] → l = [x].
Proof. intros H. symmetry in H. by apply Permutation_singleton_l in H. Qed.

(** [check_servers] on one server record without ['type']. *)
Lemma check_servers_without_type W server max_workers check_path timeout :
  fair W → 0 < max_workers →
  has_keys combo_keys server → supported server = true →
  server !! "type" = None →
  ∃ rs out,
    AdvancedFTPChecker.check_servers W [server] max_workers check_path timeout
      (Run [] [])
    = (Raise (KeyError "type"), Run rs out)
    ∧ (length rs = 1 ∨ length rs = 2)%nat.
Proof.
  intros Hfair Hw Hk Hs Hty. unfold AdvancedFTPChecker.check_servers.
  unfold bind at 1. unfold ThreadPoolExecutor.
  replace (max_workers <=? 0) with false by (symmetry; apply Z.leb_gt; lia).
  unfold ret at 1. cbv beta iota.
  unfold bind at 1, call at 1. simpl AdvancedFTPChecker.submit_all.
  destruct (AdvancedFTPChecker_submit_supported W timeout check_path [] server
              Hk Hs) as (f & -> & Hd & Hr).
  cbv beta iota. simpl app.
  rewrite (Permutation_singleton_eq f _ (Hfair [f])).
  rewrite <- Hd in Hk, Hty.
  destruct (AdvancedFTPChecker_collect_without_type W 0 f (Run [] []) Hk Hty Hr)
    as (rs & out & Hc & Hlen).
  unfold bind at 1, enumerate. simpl for_each. unfold bind at 1.
  unfold AdvancedFTPChecker.collect in Hc. rewrite Hc.
  by exists rs, out.
Qed.

(** X3.  A site without a [Port] element gets port 21 from the parser,
    whatever its protocol.  For an SFTP site (protocol 1) the record
    therefore has the key ['port'], the default 22 of
    [server.get('port', 22)] in [check_servers] does not apply, and the
    site is probed with [SFTPChecker] on port 21. *)
Theorem sftp_site_without_port_is_probed_on_port_21
    (L : FileZillaParser.lib) (e : FileZillaParser.element) :
  FileZillaParser.find e "Port" = None →
  FileZillaParser.child_int e "Protocol" 0 = Ok 1 →
  ∃ r, FileZillaParser.new_server L e = Ok r
       ∧ r !! "port" = Some (VInt 21)
       ∧ ∀ W timeout check_path fs,
           ∃ h u pw,
             AdvancedFTPChecker.submit W timeout check_path fs r
             = Ok (fs ++ [Future r
                            (submit_SFTP W (length fs)
                               (Checker h u pw (VInt 21) timeout check_path))]).
Proof.
  intros Hport Hproto.
  assert (Hp : FileZillaParser.child_int e "Port" 21 = Ok 21)
    by (unfold FileZillaParser.child_int; by rewrite Hport).
  destruct (server_record_run L e 21 1 Hp Hproto) as (pw & _ & Hrun).
  unfold FileZillaParser.new_server. rewrite Hrun. cbv zeta.
  eexists. split; [reflexivity|]. split.
  - by rewrite !lookup_insert_ne, lookup_insert_eq by done.
  - intros W timeout check_path fs.
    exists (FileZillaParser.child_text e "Host" VNone),
           (FileZillaParser.child_text e "User" VNone), pw.
    unfold AdvancedFTPChecker.submit, dict_get.
    rewrite !getitem_insert_ne, getitem_insert_eq by done.
    change (py_eq_int (VInt 1) 0) with false.
    change (py_eq_int (VInt 1) 1) with true. cbv iota.
    rewrite !getitem_insert_ne, getitem_insert_eq by done.
    rewrite !getitem_insert_ne, getitem_insert_eq by done.
    rewrite !getitem_insert_ne, getitem_insert_eq by done.
    by rewrite !lookup_insert_ne, lookup_insert_eq by done.
Qed.

(** The theorem at the second site of [sites.xml]. *)
Lemma sftp_site_without_port_is_probed_on_port_21_witness :
  ∃ r, FileZillaParser.new_server sites_lib sftp_site = Ok r
       ∧ r !! "port" = Some (VInt 21)
       ∧ ∀ W timeout check_path fs,
           ∃ h u pw,
             AdvancedFTPChecker.submit W timeout check_path fs r
             = Ok (fs ++ [Future r
                            (submit_SFTP W (length fs)
                               (Checker h u pw (VInt 21) timeout check_path))]).
Proof.
  apply (sftp_site_without_port_is_probed_on_port_21 sites_lib sftp_site);
    reflexivity.
Defined.

(** X4.  FileZilla mode from end to end.  If the parser fails, [main]
    exits with status 1 and nothing is probed or written.  If it returns the
    servers, then with a pool that can be created and futures that all
    complete, [main] goes through [check_servers]: one future is submitted
    for each parsed server of protocol 0 or 1, whose outcome is that of
    [check] on a new checker built from the server's fields; [main] holds
    one record per future, in the order of completion, the checker's own or,
    for an invocation that raised, the one built in the [except] clause;
    and the run ends as the report writers end on these records: normally
    when they return, in their exception when one of them raises. *)
Theorem filezilla_mode_probes_the_parsed_servers
    (L : FileZillaParser.lib) (open_lines : string → res (list string))
    (isfile : string → bool) (files : string → AdvancedFTPChecker.files)
    (W : world) (now : string → string)
    (A : Main.args) (xml_file : string) :
  Main.brute_force A = false →
  Main.given (Main.filezilla_xml A) = Some xml_file →
  fair W → 0 < Main.max_workers A →
  let O := os_with_parser L open_lines isfile files in
  match FileZillaParser.parse_filezilla_xml L xml_file with
  | Raise _ => Main.main O W now A = (Main.Exited 1, [], [])
  | Ok servers =>
      ∃ fs rs,
        AdvancedFTPChecker.submit_all W (Main.timeout A) (Main.check_path A) []
          servers = Ok fs
        ∧ map descriptor fs = List.filter supported servers
        ∧ (∀ j f, fs !! j = Some f →
             server_probe W (Main.timeout A) (Main.check_path A) j f)
        ∧ length rs = length (List.filter supported servers)
        ∧ (∀ i f, as_completed W fs !! i = Some f →
             ∃ r, rs !! i = Some r ∧ collected W i f r)
        ∧ Main.main O W now A
          = (ending_of (Main.save_all O A rs now []).1, rs,
             (Main.save_all O A rs now []).2)
  end.
Proof.
  intros Hb Hx Hfair Hw O.
  pose proof (parse_filezilla_xml_inv L xml_file) as Hinv.
  unfold Main.main, Main.configure. rewrite Hb, Hx.
  subst O.
  change (parse_filezilla_xml (os_with_parser L open_lines isfile files) xml_file)
    with (FileZillaParser.parse_filezilla_xml L xml_file).
  destruct (FileZillaParser.parse_filezilla_xml L xml_file) as [servers|e];
    [|done].
  destruct Hinv as (root & _ & _ & _ & Hp).
  assert (Hk : Forall (has_keys server_keys) servers).
  { eapply Forall_impl; [exact Hp|]. apply parsed_record_has_keys. }
  destruct (check_servers_run W servers (Main.max_workers A) (Main.check_path A)
              (Main.timeout A) (Run [] []) Hfair Hw Hk)
    as (fs & rs & out & Hsub & Hd & Hat & -> & Hlen & Hrs).
  simpl app.
  exists fs, rs. repeat (split; [done|]).
  split; [by rewrite Hlen, <- Hd, length_map|]. split; [done|].
  by destruct (Main.save_all _ A rs now []) as [[[]|e] written].
Qed.

(** The theorem at [--filezilla-xml sites.xml], a file of two sites: the
    run ends normally with two records. *)
Lemma filezilla_mode_probes_the_parsed_servers_witness :
  let O := os_with_parser sites_lib (open_lines empty_os) (isfile empty_os)
             (λ _, writable) in
  match FileZillaParser.parse_filezilla_xml sites_lib "sites.xml" with
  | Raise _ =>
      Main.main O reversed_world frozen_clock sites_args
      = (Main.Exited 1, [], [])
  | Ok servers =>
      ∃ fs rs,
        AdvancedFTPChecker.submit_all reversed_world (Main.timeout sites_args)
          (Main.check_path sites_args) [] servers = Ok fs
        ∧ map descriptor fs = List.filter supported servers
        ∧ (∀ j f, fs !! j = Some f →
             server_probe reversed_world (Main.timeout sites_args)
               (Main.check_path sites_args) j f)
        ∧ length rs = length (List.filter supported servers)
        ∧ (∀ i f, as_completed reversed_world fs !! i = Some f →
             ∃ r, rs !! i = Some r ∧ collected reversed_world i f r)
        ∧ Main.main O reversed_world frozen_clock sites_args
          = (ending_of (Main.save_all O sites_args rs frozen_clock []).1, rs,
             (Main.save_all O sites_args rs frozen_clock []).2)
        ∧ (Main.main O reversed_world frozen_clock sites_args).1.1
          = Main.Finished
        ∧ length (Main.main O reversed_world frozen_clock sites_args).1.2
          = 2%nat
  end.
Proof.
  pose proof (filezilla_mode_probes_the_parsed_servers sites_lib
                (open_lines empty_os) (isfile empty_os) (λ _, writable)
                reversed_world frozen_clock sites_args "sites.xml"
                eq_refl eq_refl reversed_world_fair eq_refl) as H.
  cbv zeta in H |- *.
  destruct (FileZillaParser.parse_filezilla_xml sites_lib "sites.xml")
    as [servers|e]; [|exact H].
  destruct H as (fs & rs & H1 & H2 & H3 & H4 & H5 & H6).
  exists fs, rs. repeat (split; [assumption|]).
  split; vm_compute; reflexivity.
Defined.

(** X5.  Single-host mode ([--host] with [--username] and [--password], no
    [--brute-force], no [--filezilla-xml]) never gets to a report: the
    server record [main] builds has no ['type'] key, which every branch of
    the collecting loop of [check_servers] prints, so with a pool that can
    be created the run always ends in the uncaught [KeyError: 'type'],
    after one or two records for the one server, and nothing is written. *)
Theorem single_host_mode_never_reports
    (O : os) (W : world) (now : string → string) (A : Main.args)
    (h u p : string) :
  Main.brute_force A = false →
  Main.given (Main.filezilla_xml A) = None →
  Main.given (Main.host A) = Some h →
  Main.given (Main.username A) = Some u →
  Main.given (Main.password A) = Some p →
  Main.protocol A = 0 ∨ Main.protocol A = 1 →
  fair W → 0 < Main.max_workers A →
  ∃ rs,
    Main.main O W now A = (Main.Crashed (KeyError "type"), rs, [])
    ∧ (length rs = 1 ∨ length rs = 2)%nat
    ∧ Main.exit_status (Main.main O W now A).1.1 = 1.
Proof.
  intros Hb Hx Hh Hu Hp Hproto Hfair Hw.
  unfold Main.main, Main.configure. rewrite Hb, Hx, Hh, Hu, Hp.
  match goal with
  | |- context [AdvancedFTPChecker.check_servers W [?server] _ _ _ _] =>
      destruct (check_servers_without_type W server (Main.max_workers A)
                  (Main.check_path A) (Main.timeout A) Hfair Hw)
        as (rs & out & -> & Hlen)
  end.
  - repeat constructor; eexists;
      rewrite ?lookup_insert_ne by done; apply lookup_insert_eq.
  - unfold supported.
    rewrite !lookup_insert_ne, lookup_insert_eq by done.
    by destruct Hproto as [-> | ->].
  - by rewrite !lookup_insert_ne, lookup_empty by done.
  - exists rs. simpl. done.
Qed.

(** The theorem at [--host ftp.example.test --username admin --password
    secret]. *)
Lemma single_host_mode_never_reports_witness :
  ∃ rs,
    Main.main empty_os reversed_world frozen_clock single_host_args
    = (Main.Crashed (KeyError "type"), rs, [])
    ∧ (length rs = 1 ∨ length rs = 2)%nat
    ∧ Main.exit_status
        (Main.main empty_os reversed_world frozen_clock single_host_args).1.1 = 1.
Proof.
  apply (single_host_mode_never_reports empty_os reversed_world frozen_clock
           single_host_args "ftp.example.test" "admin" "secret");
    [ reflexivity | reflexivity | reflexivity | reflexivity | reflexivity
    | left; reflexivity | exact reversed_world_fair | reflexivity ].
Defined.

(** * Strings: [strip], [split] and [join] *)

Lemma rstrip_not_space c s :
  is_space c = false → rstrip (String c s) = String c (rstrip s).
Proof. intros H. simpl. rewrite H. by destruct (rstrip s). Qed.

Lemma rstrip_idemp s : rstrip (rstrip s) = rstrip s.
Proof.
  induction s as [|c s IH]; [done|].
  simpl. destruct (rstrip s) as [|c' t] eqn:E.
  - destruct (is_space c) eqn:Hc; [done|]. simpl. by rewrite Hc.
  - change (rstrip (String c (String c' t)) = String c (String c' t)).
    simpl. simpl in IH. by rewrite IH.
Qed.

(** [lstrip] leaves nothing or a string that starts with a character that
    is not white space. *)
Lemma lstrip_head s :
  lstrip s = EmptyString
  ∨ ∃ c t, lstrip s = String c t ∧ is_space c = false.
Proof.
  induction s as [|c s IH]; [by left|].
  simpl. destruct (is_space c) eqn:Hc; [done|]. right. by exists c, s.
Qed.

Lemma lstrip_not_space c s : is_space c = false → lstrip (String c s) = String c s.
Proof. intros H. simpl. by rewrite H. Qed.

Lemma strip_idemp s : strip (strip s) = strip s.
Proof.
  unfold strip. destruct (lstrip_head s) as [->|(c & t & -> & Hc)]; [done|].
  rewrite (rstrip_not_space c t Hc), (lstrip_not_space c _ Hc).
  by rewrite <- (rstrip_not_space c t Hc), rstrip_idemp.
Qed.

Lemma nonempty_spec s : nonempty s = true ↔ s ≠ EmptyString.
Proof. by destruct s. Qed.

(** [sep.join(s.split(sep)) == s]. *)
Lemma split_on_nonempty sep s : split_on sep s ≠ [].
Proof.
  destruct s as [|c s]; [done|]. simpl.
  destruct (Ascii.eqb c sep); [done|]. by destruct (split_on sep s).
Qed.

Lemma join_cons sep x y l :
  join sep (x :: y :: l) = x +:+ sep +:+ join sep (y :: l).
Proof. done. Qed.

Lemma string_cons_app c s t : String c s +:+ t = String c (s +:+ t).
Proof. done. Qed.

Lemma join_split_on sep s :
  join (String sep EmptyString) (split_on sep s) = s.
Proof.
  induction s as [|c s IH]; [done|].
  simpl. destruct (Ascii.eqb_spec c sep) as [->|Hne].
  - pose proof (split_on_nonempty sep s) as Hs.
    destruct (split_on sep s) as [|y l]; [done|].
    rewrite join_cons, IH. done.
  - pose proof (split_on_nonempty sep s) as Hs.
    destruct (split_on sep s) as [|y l]; [done|].
    destruct l as [|z l].
    + simpl in *. by rewrite IH.
    + rewrite join_cons in *. rewrite string_cons_app. by rewrite IH.
Qed.

(** * Word lists and combo lines *)

(** X6.  [read_wordlist] never hands out an empty entry or one with
    white space around it; a file that cannot be read gives the empty list
    instead of an error, and a file that can be read gives at most one entry
    per line. *)
Theorem read_wordlist_entries_are_stripped (O : os) (file_path : string) :
  Forall (λ w, w ≠ EmptyString ∧ strip w = w) (read_wordlist O file_path)
  ∧ match open_lines O file_path with
    | Raise _ => read_wordlist O file_path = []
    | Ok lines => (length (read_wordlist O file_path) ≤ length lines)%nat
    end.
Proof.
  unfold read_wordlist. destruct (open_lines O file_path) as [lines|e].
  - split.
    + apply Forall_forall. intros w Hw.
      apply list_elem_of_In, in_map_iff in Hw as (line & <- & Hline).
      apply filter_In in Hline as [_ Hline].
      apply andb_true_iff in Hline as [Hne _].
      split; [by apply nonempty_spec|apply strip_idemp].
    + rewrite length_map. apply filter_length_le.
  - split; [constructor|done].
Qed.

Lemma split_colon_once_spec c :
  has_colon c = true →
  c = (split_colon_once c).1 +:+ ":" +:+ (split_colon_once c).2
  ∧ has_colon (split_colon_once c).1 = false.
Proof.
  induction c as [|a c IH]; [done|].
  simpl. destruct (Ascii.eqb_spec a ":") as [->|Hne]; [done|].
  simpl. intros H. destruct (IH H) as [IH1 IH2].
  destruct (split_colon_once c) as [u p]. simpl in *.
  split; [by rewrite IH1 at 1|].
  rewrite IH2. by apply Ascii.eqb_neq in Hne as ->.
Qed.

Lemma load_combos_fold combos : ∀ usernames passwords,
  fold_left
    (λ '(usernames, passwords) combo,
       if has_colon combo then
         let '(u, p) := split_colon_once combo in
         ((usernames ++ [strip u])%list, (passwords ++ [strip p])%list)
       else (usernames, passwords))
    combos (usernames, passwords)
  = (usernames ++ map (λ c, strip (split_colon_once c).1)
                    (List.filter has_colon combos),
     passwords ++ map (λ c, strip (split_colon_once c).2)
                    (List.filter has_colon combos)).
Proof.
  induction combos as [|c combos IH]; intros us ps; simpl.
  - by rewrite !app_nil_r.
  - destruct (has_colon c); [|apply IH].
    simpl. destruct (split_colon_once c) as [u p]. rewrite IH. simpl.
    rewrite <- !app_assoc. reflexivity.
Qed.

(** X7.  Combo lines are split at their first colon: every line with a
    colon contributes the text before its first colon as a username and
    all the text after it as a password, so a password may itself contain
    colons; both are stripped of surrounding white space; lines without a
    colon are skipped; the order of the lines is kept and the two lists
    have the same length. *)
Theorem combo_lines_are_split_at_the_first_colon (combos : list string) :
  let lines := List.filter has_colon combos in
  Main.load_combos combos
  = (map (λ c, strip (split_colon_once c).1) lines,
     map (λ c, strip (split_colon_once c).2) lines)
  ∧ Forall (λ c, c = (split_colon_once c).1 +:+ ":" +:+ (split_colon_once c).2
                 ∧ has_colon (split_colon_once c).1 = false) lines
  ∧ length (Main.load_combos combos).1 = length (Main.load_combos combos).2.
Proof.
  cbv zeta. unfold Main.load_combos. rewrite load_combos_fold. simpl.
  split; [done|]. split; [|by rewrite !length_map].
  apply Forall_forall. intros c Hc.
  apply list_elem_of_In, filter_In in Hc as [_ Hc].
  by apply split_colon_once_spec.
Qed.

(** * The path check: how the path is taken apart *)

Lemma split_on_pieces sep s :
  Forall (λ p, has_char sep p = false) (split_on sep s).
Proof.
  induction s as [|c s IH]; simpl; [by repeat constructor|].
  destruct (Ascii.eqb c sep) eqn:Hc; [by constructor|].
  destruct (split_on sep s) as [|p ps]; [by repeat constructor; simpl; rewrite Hc|].
  apply Forall_cons in IH as [Hp Hps]. constructor; [|done].
  simpl. by rewrite Hc.
Qed.

Lemma split_on_without_sep sep s :
  has_char sep s = false → split_on sep s = [s].
Proof.
  induction s as [|c s IH]; simpl; [done|].
  intros H. apply orb_false_iff in H as [-> H]. by rewrite (IH H).
Qed.

Lemma split_on_with_sep sep s :
  has_char sep s = true → (2 ≤ length (split_on sep s))%nat.
Proof.
  induction s as [|c s IH]; simpl; [done|].
  pose proof (split_on_nonempty sep s) as Hne.
  destruct (Ascii.eqb c sep); simpl.
  - intros _. destruct (split_on sep s); [done|simpl; lia].
  - intros H. specialize (IH H). destruct (split_on sep s); simpl in *; lia.
Qed.

Lemma join_snoc sep l x :
  l ≠ [] → join sep (l ++ [x]) = join sep l +:+ sep +:+ x.
Proof.
  induction l as [|y l IH]; [done|]. intros _.
  destruct l as [|z l]; [done|].
  change (y +:+ sep +:+ join sep ((z :: l) ++ [x])
          = (y +:+ sep +:+ join sep (z :: l)) +:+ sep +:+ x).
  rewrite IH by done. by rewrite !string_app_assoc.
Qed.

Lemma last_elem_of {A} (l : list A) d : l ≠ [] → List.last l d ∈ l.
Proof.
  intros H. apply list_elem_of_In.
  rewrite (app_removelast_last d H) at 2. apply in_or_app. right. by left.
Qed.

(** X8.  The FTP path check takes [check_path] apart at its last slash:
    [filename] is what follows it and contains no slash; [parent_dir] is
    what precedes it, or [/] when nothing does.  A path without any slash
    is looked up under its own name in [/]. *)
Theorem check_path_is_split_at_its_last_slash (check_path : string) :
  has_char "/" (filename check_path) = false
  ∧ (has_char "/" check_path = false →
     filename check_path = check_path ∧ parent_dir check_path = "/")
  ∧ (has_char "/" check_path = true →
     ∃ dir, check_path = dir +:+ "/" +:+ filename check_path
            ∧ parent_dir check_path = (if nonempty dir then dir else "/")).
Proof.
  unfold filename, parent_dir, last_piece, drop_last.
  pose proof (split_on_nonempty "/" check_path) as Hne.
  split; [|split].
  - pose proof (split_on_pieces "/" check_path) as H.
    rewrite Forall_forall in H. apply H. by apply last_elem_of.
  - intros H. by rewrite (split_on_without_sep _ _ H).
  - intros H. apply split_on_with_sep in H.
    exists (join "/" (removelast (split_on "/" check_path))).
    split; [|done].
    rewrite <- (join_split_on "/" check_path) at 1.
    rewrite (app_removelast_last EmptyString Hne) at 1.
    apply join_snoc. intros Hnil.
    rewrite (app_removelast_last EmptyString Hne), Hnil in H. simpl in H. lia.
Qed.

(** The theorem at a file name without a directory. *)
Lemma check_path_is_split_at_its_last_slash_witness :
  filename "motd.txt" = "motd.txt" ∧ parent_dir "motd.txt" = "/".
Proof.
  apply (proj1 (proj2 (check_path_is_split_at_its_last_slash "motd.txt"))).
  reflexivity.
Defined.

(** * What [SFTPChecker.check] does after the session *)

(** The [except] clauses, [ssh.close()] and the closing assignments keep
    every property of the record that is kept by appending to [errors], by
    setting [total_time] to a duration and by setting [auth_time] to the
    record's own [connection_time]; and a record that is returned has had
    [auth_time] set to its [connection_time]. *)
Lemma SFTP_check_frame_invariant_gen L self (P0 : dict → Prop) f :
  (∀ msg l d, d !! "errors" = Some (VList l) → P0 d →
              P0 (<["errors" := VList (l ++ [msg])]> d)) →
  (∀ t d, P0 d → P0 (<["total_time" := VFloat t]> d)) →
  (∀ ct d, P0 d → d !! "connection_time" = Some ct →
           P0 (<["auth_time" := ct]> d)) →
  (∀ d, P0 d → errors_is_list d) →
  wp (SFTPChecker.session L self) (λ _ f', P0 (SFTPChecker.results f')) f →
  wp (SFTPChecker.check_frame L self)
     (λ r f', P0 (SFTPChecker.results f')
              ∧ (∀ a, r = Ok a →
                      SFTPChecker.results f' !! "auth_time"
                      = SFTPChecker.results f' !! "connection_time")) f.
Proof.
  intros Happ Htot Hauth Herr Hsession. unfold SFTPChecker.check_frame, SFTPChecker.check_frame_then.
  pose (Inv := λ f : SFTPChecker.frame, P0 (SFTPChecker.results f)).
  set (Post := λ (r : res dict) (f' : SFTPChecker.frame),
                 P0 (SFTPChecker.results f')
                 ∧ (∀ a, r = Ok a →
                         SFTPChecker.results f' !! "auth_time"
                         = SFTPChecker.results f' !! "connection_time")).
  assert (Htail : ∀ f0, Inv f0 →
    wp (SFTPChecker.on_results
          (setitem "total_time" (VFloat (SFTPChecker.total_time L)));;;
        ct <- SFTPChecker.on_results
                (d <- get;; call (getitem d "connection_time"));;
        SFTPChecker.on_results (setitem "auth_time" ct);;;
        SFTPChecker.on_results get) Post f0).
  { intros [d b] H0. unfold Inv in H0. simpl in H0.
    unfold wp, bind, SFTPChecker.on_results, setitem, modify, get, call, getitem,
      Post.
    simpl. rewrite lookup_insert_ne by done.
    assert (H1 : P0 (<["total_time" := VFloat (SFTPChecker.total_time L)]> d))
      by (by apply Htot).
    destruct (d !! "connection_time") as [ct|] eqn:Hct; simpl.
    - split.
      + apply Hauth; [done|]. by rewrite lookup_insert_ne.
      + intros _ _.
        by rewrite lookup_insert_eq, !lookup_insert_ne, Hct by done.
    - split; [done|]. by intros a [=]. }
  assert (Hraise : ∀ e f0, Inv f0 → Post (Raise e) f0).
  { intros e f0 H0. split; [exact H0|]. by intros a [=]. }
  assert (Hclose : ∀ (r : res unit) f0, Inv f0 →
    wp (f <- get;; if SFTPChecker.ssh f then call (SFTPChecker.ssh_close L)
                   else ret tt)
       (λ rf f',
          match rf with
          | Ok _ =>
              match r with
              | Ok _ =>
                  wp (SFTPChecker.on_results
                        (setitem "total_time" (VFloat (SFTPChecker.total_time L)));;;
                      ct <- SFTPChecker.on_results
                              (d <- get;; call (getitem d "connection_time"));;
                      SFTPChecker.on_results (setitem "auth_time" ct);;;
                      SFTPChecker.on_results get) Post f'
              | Raise e => Post (Raise e) f'
              end
          | Raise e => Post (Raise e) f'
          end) f0).
  { intros r f0 H0. apply (wp_preserved Inv); [|exact H0|].
    - preserve fail.
    - intros rf f' H'. destruct rf; [|by apply Hraise].
      destruct r; [by apply Htail|by apply Hraise]. }
  apply wp_bind, wp_try_finally, wp_try_clauses.
  eapply wp_mono; [exact Hsession|].
  cbv beta. intros r f' H. destruct r as [[]|e].
  - exact (Hclose (Ok tt) f' H).
  - destruct (Herr _ H) as [l Hl]. simpl select_clause.
    repeat case_match;
      (eapply wp_on_results_errors_append; [exact Hl|]);
      apply (Hclose (Ok tt));
      exact (Happ _ l _ Hl H).
Qed.

Lemma SFTP_check_frame_invariant L self (P0 : dict → Prop) f :
  update_closed written_after_session P0 →
  (∀ d, P0 d → errors_is_list d) →
  wp (SFTPChecker.session L self) (λ _ f', P0 (SFTPChecker.results f')) f →
  wp (SFTPChecker.check_frame L self)
     (λ r f', P0 (SFTPChecker.results f')
              ∧ (∀ a, r = Ok a →
                      SFTPChecker.results f' !! "auth_time"
                      = SFTPChecker.results f' !! "connection_time")) f.
Proof.
  intros [Hset Happ]. apply SFTP_check_frame_invariant_gen.
  - exact Happ.
  - intros t d. by apply Hset.
  - intros ct d H _. by apply Hset.
Qed.

(** * The path check of [FTPChecker] *)

(** What the path check does, case by case. *)
Lemma FTP_path_block_run (L : FTPChecker.lib) (path : string) (d : dict)
    (l : list string) :
  d !! "errors" = Some (VList l) →
  ∃ d',
    FTPChecker.path_block L path d = (Ok tt, d')
    ∧ d' !! "path_check_time" = Some (VFloat (FTPChecker.path_check_time L))
    ∧ ((FTPChecker.cwd_path L path = Ok tt
        ∧ d' !! "path_exists" = Some (VBool true)
        ∧ d' !! "path_type" = Some (VStr "directory")
        ∧ d' !! "errors" = Some (VList l))
       ∨ (∃ e files,
            FTPChecker.cwd_path L path = Raise e ∧ is_error_perm e = true
            ∧ FTPChecker.cwd_parent L (parent_dir path) = Ok tt
            ∧ FTPChecker.retrlines_NLST L = Ok files
            ∧ filename path ∈ files
            ∧ d' !! "path_exists" = Some (VBool true)
            ∧ d' !! "path_type" = Some (VStr "file")
            ∧ d' !! "errors" = Some (VList l))
       ∨ (FTPChecker.cwd_path L path ≠ Ok tt
          ∧ (∀ files, FTPChecker.cwd_parent L (parent_dir path) = Ok tt →
                      FTPChecker.retrlines_NLST L = Ok files →
                      (∃ e, FTPChecker.cwd_path L path = Raise e
                            ∧ is_error_perm e = true) →
                      filename path ∉ files)
          ∧ d' !! "path_exists" = Some (VBool false)
          ∧ d' !! "path_type" = d !! "path_type"
          ∧ ∃ msg, d' !! "errors" = Some (VList (l ++ [msg])))).
Proof.
  intros Hl. unfold parent_dir, filename.
  assert (Herr : ∀ msg v,
    errors_append msg (<["path_exists" := v]> d)
    = (Ok tt, <["errors" := VList (l ++ [msg])]> (<["path_exists" := v]> d))).
  { intros. apply errors_append_ok. by rewrite lookup_insert_ne. }
  assert (Hmissing : ∀ msg,
    let d' := <["path_check_time" := VFloat (FTPChecker.path_check_time L)]> (
              <["errors" := VList (l ++ [msg])]> (
              <["path_exists" := VBool false]> d)) in
    d' !! "path_check_time" = Some (VFloat (FTPChecker.path_check_time L))
    ∧ d' !! "path_exists" = Some (VBool false)
    ∧ d' !! "path_type" = d !! "path_type"
    ∧ ∃ msg, d' !! "errors" = Some (VList (l ++ [msg]))).
  { intros msg d'. subst d'. split; [by rewrite lookup_insert_eq|].
    split; [by rewrite !lookup_insert_ne, lookup_insert_eq by done|].
    split; [by rewrite !lookup_insert_ne by done|].
    exists msg. by rewrite lookup_insert_ne, lookup_insert_eq by done. }
  unfold FTPChecker.path_block, try_finally, try_except, bind, call, setitem,
    modify, any_exception.
  cbv beta iota zeta.
  destruct (FTPChecker.cwd_path L path) as [[]|e] eqn:Hcwd; cbv beta iota.
  - eexists. split; [reflexivity|]. split; [by rewrite lookup_insert_eq|].
    left. split; [done|].
    split; [by rewrite !lookup_insert_ne, lookup_insert_eq by done|].
    split; [by rewrite !lookup_insert_ne, lookup_insert_eq by done|].
    by rewrite !lookup_insert_ne by done.
  - destruct (is_error_perm e) eqn:Hperm; cbv beta iota.
    + destruct (FTPChecker.cwd_parent L _) as [[]|e1] eqn:Hpar; cbv beta iota.
      * destruct (FTPChecker.retrlines_NLST L) as [files|e2] eqn:Hls;
          cbv beta iota.
        -- destruct (str_in _ files) eqn:Hin; cbv beta iota.
           ++ eexists. split; [reflexivity|].
              split; [by rewrite lookup_insert_eq|].
              right. left. exists e, files.
              repeat (split; [done|]).
              split; [by apply bool_decide_eq_true in Hin|].
              split; [by rewrite !lookup_insert_ne, lookup_insert_eq by done|].
              split; [by rewrite !lookup_insert_ne, lookup_insert_eq by done|].
              by rewrite !lookup_insert_ne by done.
           ++ rewrite Herr. cbv beta iota.
              destruct (Hmissing ("Path '" +:+ path +:+ "' not found"))
                as (H1 & H2 & H3 & H4).
              eexists. split; [reflexivity|]. split; [exact H1|].
              right. right. split; [done|]. split; [|done].
              intros files' _ [= <-] _.
              by apply bool_decide_eq_false in Hin.
        -- destruct (is_error_perm e2); cbv beta iota; rewrite Herr;
             cbv beta iota;
             match goal with
             | |- context [VList (l ++ [?msg])] =>
                 destruct (Hmissing msg) as (H1 & H2 & H3 & H4)
             end;
             (eexists; split; [reflexivity|]; split; [exact H1|];
              right; right; split; [done|]; split; [|done];
              by intros files' _ [=] _).
      * destruct (is_error_perm e1); cbv beta iota; rewrite Herr;
          cbv beta iota;
          match goal with
          | |- context [VList (l ++ [?msg])] =>
              destruct (Hmissing msg) as (H1 & H2 & H3 & H4)
          end;
          (eexists; split; [reflexivity|]; split; [exact H1|];
           right; right; split; [done|]; split; [|done];
           by intros files' [=] _ _).
    + rewrite Herr. cbv beta iota.
      destruct (Hmissing ("Path check error: " +:+ exn_str e))
        as (H1 & H2 & H3 & H4).
      eexists. split; [reflexivity|]. split; [exact H1|].
      right. right. split; [done|]. split; [|done].
      intros files' _ _ (e' & [= <-] & He'). congruence.
Qed.

(** X9.  The verdict of the FTP path check.  The check never raises and
    always records its duration.  The path is reported as existing in two
    cases only: [cwd(check_path)] succeeds (type directory), or it fails
    with a permanent error, [cwd(parent_dir)] succeeds and the listing of
    that directory has an entry equal to [filename] (type file).  In every
    other case [path_exists] is [False], [path_type] is left as it was and
    one message is appended to [errors]. *)
Theorem FTP_path_check_verdict (L : FTPChecker.lib) (path : string) (d : dict)
    (l : list string) :
  d !! "errors" = Some (VList l) →
  ∃ d',
    FTPChecker.path_block L path d = (Ok tt, d')
    ∧ d' !! "path_check_time" = Some (VFloat (FTPChecker.path_check_time L))
    ∧ ((FTPChecker.cwd_path L path = Ok tt
        ∧ d' !! "path_exists" = Some (VBool true)
        ∧ d' !! "path_type" = Some (VStr "directory")
        ∧ d' !! "errors" = Some (VList l))
       ∨ (∃ e files,
            FTPChecker.cwd_path L path = Raise e ∧ is_error_perm e = true
            ∧ FTPChecker.cwd_parent L (parent_dir path) = Ok tt
            ∧ FTPChecker.retrlines_NLST L = Ok files
            ∧ filename path ∈ files
            ∧ d' !! "path_exists" = Some (VBool true)
            ∧ d' !! "path_type" = Some (VStr "file")
            ∧ d' !! "errors" = Some (VList l))
       ∨ (FTPChecker.cwd_path L path ≠ Ok tt
          ∧ (∀ files, FTPChecker.cwd_parent L (parent_dir path) = Ok tt →
                      FTPChecker.retrlines_NLST L = Ok files →
                      (∃ e, FTPChecker.cwd_path L path = Raise e
                            ∧ is_error_perm e = true) →
                      filename path ∉ files)
          ∧ d' !! "path_exists" = Some (VBool false)
          ∧ d' !! "path_type" = d !! "path_type"
          ∧ ∃ msg, d' !! "errors" = Some (VList (l ++ [msg])))).
Proof. apply FTP_path_block_run. Qed.

(** The theorem at a server on which [/pub] is a directory. *)
Lemma FTP_path_check_verdict_witness :
  ∃ d',
    FTPChecker.path_block ftp_without_FEAT "/pub"
      (FTPChecker.__init__ pub_probe "2024-01-01T00:00:00") = (Ok tt, d')
    ∧ d' !! "path_check_time"
      = Some (VFloat (FTPChecker.path_check_time ftp_without_FEAT))
    ∧ ((FTPChecker.cwd_path ftp_without_FEAT "/pub" = Ok tt
        ∧ d' !! "path_exists" = Some (VBool true)
        ∧ d' !! "path_type" = Some (VStr "directory")
        ∧ d' !! "errors" = Some (VList []))
       ∨ (∃ e files,
            FTPChecker.cwd_path ftp_without_FEAT "/pub" = Raise e
            ∧ is_error_perm e = true
            ∧ FTPChecker.cwd_parent ftp_without_FEAT (parent_dir "/pub") = Ok tt
            ∧ FTPChecker.retrlines_NLST ftp_without_FEAT = Ok files
            ∧ filename "/pub" ∈ files
            ∧ d' !! "path_exists" = Some (VBool true)
            ∧ d' !! "path_type" = Some (VStr "file")
            ∧ d' !! "errors" = Some (VList []))
       ∨ (FTPChecker.cwd_path ftp_without_FEAT "/pub" ≠ Ok tt
          ∧ (∀ files,
               FTPChecker.cwd_parent ftp_without_FEAT (parent_dir "/pub") = Ok tt →
               FTPChecker.retrlines_NLST ftp_without_FEAT = Ok files →
               (∃ e, FTPChecker.cwd_path ftp_without_FEAT "/pub" = Raise e
                     ∧ is_error_perm e = true) →
               filename "/pub" ∉ files)
          ∧ d' !! "path_exists" = Some (VBool false)
          ∧ d' !! "path_type"
            = FTPChecker.__init__ pub_probe "2024-01-01T00:00:00" !! "path_type"
          ∧ ∃ msg, d' !! "errors" = Some (VList ([] ++ [msg])))).
Proof.
  apply (FTP_path_check_verdict ftp_without_FEAT "/pub"
           (FTPChecker.__init__ pub_probe "2024-01-01T00:00:00") []).
  reflexivity.
Defined.

(** ** The path fields of the record [FTPChecker.check] returns *)

Lemma written_outside_path_check_written k :
  written_outside_path_check k = true → written k = true.
Proof.
  unfold written_outside_path_check, written.
  rewrite !bool_decide_eq_true, !elem_of_cons, !elem_of_nil. tauto.
Qed.

Lemma written_after_session_inv k :
  written_after_session k = true → k = "total_time" ∨ k = "auth_time".
Proof.
  unfold written_after_session.
  rewrite bool_decide_eq_true, !elem_of_cons, elem_of_nil. tauto.
Qed.

Lemma path_untouched_closed :
  update_closed written_outside_path_check path_untouched.
Proof. unfold path_untouched. closed_by_lookup. Qed.

Lemma errors_is_list_closed_block : update_closed block_written errors_is_list.
Proof.
  apply (update_closed_weaken written); [|apply errors_is_list_closed].
  apply block_written_written.
Qed.

(** The record after a path check that started from untouched fields. *)
Lemma FTP_path_block_fields L self path d :
  check_path_requested self = Some path →
  path_untouched d → errors_is_list d → both_flags d →
  wp (FTPChecker.path_block L path)
     (λ _ d', path_fields_ok self d' ∧ type_follows_verdict d'
              ∧ errors_is_list d') d.
Proof.
  intros Hreq (_ & Hty & _) [l Hl] Hboth.
  pose proof (FTP_path_block_preserves both_flags L path both_flags_closed d Hboth)
    as Hboth'.
  destruct (FTP_path_block_run L path d l Hl) as (d' & Hrun & Htime & Hcases).
  unfold wp. rewrite Hrun in *. simpl in *.
  destruct Hcases as [(_ & He & Ht & Herr)
                     |[(e & files & _ & _ & _ & _ & _ & He & Ht & Herr)
                      |(_ & _ & He & Ht & msg & Herr)]].
  - split; [|split; [by left; auto|by exists l]].
    right. split; [by rewrite Hreq|]. split; [done|].
    exists true, (FTPChecker.path_check_time L). done.
  - split; [|split; [by left; auto|by exists l]].
    right. split; [by rewrite Hreq|]. split; [done|].
    exists true, (FTPChecker.path_check_time L). done.
  - split; [|split; [|by eexists]].
    + right. split; [by rewrite Hreq|]. split; [done|].
      exists false, (FTPChecker.path_check_time L). split; [done|].
      split; [done|]. intros _. by exists l, msg.
    + right. rewrite He, Ht. split; [done|exact Hty].
Qed.

Lemma type_follows_untouched d : path_untouched d → type_follows_verdict d.
Proof. intros (He & Ht & _). right. by rewrite He. Qed.

(** A session leaves the path fields untouched unless it got as far as the
    path check. *)
Lemma FTP_session_path_fields L self d :
  path_untouched d → errors_is_list d →
  wp (FTPChecker.session L self)
     (λ _ d', path_fields_ok self d' ∧ type_follows_verdict d'
              ∧ errors_is_list d') d.
Proof.
  intros Hu He.
  assert (Hleft : ∀ d', path_untouched d' ∧ errors_is_list d' →
                        path_fields_ok self d' ∧ type_follows_verdict d'
                        ∧ errors_is_list d').
  { intros d' [H1 H2]. split; [by left|]. split; [|done].
    by apply type_follows_untouched. }
  unfold FTPChecker.session.
  apply wp_bind, wp_call. destruct (FTPChecker.connect L) as [[]|e]; [|by apply Hleft].
  apply wp_bind, wp_setitem. apply wp_bind, wp_setitem; cbv beta iota.
  set (d2 := <["connection" := _]> _).
  assert (H2 : (path_untouched d2 ∧ errors_is_list d2) ∧ flag "connection" d2).
  { subst d2. split; [split|].
    - do 2 (apply (proj1 path_untouched_closed); [done|]). done.
    - do 2 (apply errors_is_list_insert; [done|]). done.
    - unfold flag. by rewrite lookup_insert_eq. }
  clearbody d2. clear Hu He d.
  apply wp_bind.
  apply (wp_preserved
           (λ d, (path_untouched d ∧ errors_is_list d) ∧ flag "connection" d));
    [|exact H2|].
  { apply preserves_and; [apply preserves_and|].
    - preserve ltac:(closed_leaf path_untouched_closed).
    - preserve ltac:(closed_leaf errors_is_list_closed).
    - preserve ltac:(apply preserves_setitem; intros ? ?; unfold flag;
                     by rewrite lookup_insert_ne). }
  intros r d3 [H3 Hc3]. destruct r as [[]|e]; [|by apply Hleft].
  apply wp_bind, wp_call. destruct (FTPChecker.login L) as [[]|e]; [|by apply Hleft].
  apply wp_bind, wp_setitem. apply wp_bind, wp_setitem; cbv beta iota.
  set (d5 := <["authentication" := _]> _).
  assert (H5 : (path_untouched d5 ∧ errors_is_list d5) ∧ both_flags d5).
  { subst d5. destruct H3 as [Hu3 He3]. split; [split|].
    - do 2 (apply (proj1 path_untouched_closed); [done|]). done.
    - do 2 (apply errors_is_list_insert; [done|]). done.
    - unfold both_flags, flag in *.
      by rewrite lookup_insert_eq, !lookup_insert_ne by done. }
  clearbody d5. clear H3 Hc3 d3.
  apply wp_bind.
  apply (wp_preserved
           (λ d, (path_untouched d ∧ errors_is_list d) ∧ both_flags d));
    [|exact H5|].
  { apply preserves_and; [apply preserves_and|].
    - unfold FTPChecker.features_block.
      preserve ltac:(closed_leaf path_untouched_closed).
    - apply FTP_features_block_preserves, errors_is_list_closed_block.
    - apply FTP_features_block_preserves, both_flags_closed. }
  intros r d6 [[Hu6 He6] Hb6]. destruct r as [[]|e]; [|by apply Hleft].
  destruct (check_path_requested self) as [path|] eqn:Hreq.
  - by apply FTP_path_block_fields.
  - apply wp_ret. by apply Hleft.
Qed.

(** Nothing [check] does after the session disturbs what was established
    about the path fields. *)
Lemma path_fields_closed self :
  update_closed written_after_session
    (λ d, path_fields_ok self d ∧ type_follows_verdict d ∧ errors_is_list d).
Proof.
  split.
  - intros k v d Hk (Hp & Ht & He).
    unfold path_fields_ok, path_untouched, path_checked, both_flags, flag,
      type_follows_verdict, errors_is_list in *.
    apply written_after_session_inv in Hk as [-> | ->];
      by rewrite !lookup_insert_ne by done.
  - intros msg l d Hl (Hp & Ht & He).
    unfold path_fields_ok, path_untouched, path_checked, both_flags, flag,
      type_follows_verdict, errors_is_list in *.
    rewrite !lookup_insert_ne by done. rewrite lookup_insert_eq.
    split; [|split; [done|by eexists]].
    destruct Hp as [Hp|(Hr & Hb & b & t & H1 & H2 & H3)]; [by left|].
    right. split; [done|]. split; [done|]. exists b, t.
    split; [done|]. split; [done|]. intros _. by exists l, msg.
Qed.

Lemma FTP_check_path_fields_wp L self d :
  path_untouched d → errors_is_list d →
  wp (FTPChecker.check L self)
     (λ _ d', path_fields_ok self d' ∧ type_follows_verdict d') d.
Proof.
  intros Hu He. unfold FTPChecker.check, FTPChecker.check_then.
  destruct (path_fields_closed self) as [Hset Happ].
  apply wp_bind, wp_try_clauses.
  apply wp_bind, wp_call. destruct (FTPChecker.FTP_new L) as [[]|e].
  - apply wp_try_finally.
    eapply wp_mono; [by apply FTP_session_path_fields|].
    intros r d' H. apply wp_call.
    assert (Hgoal : ∀ r' : res unit,
      match r' with
      | Ok _ =>
          wp (setitem "total_time" (VFloat (FTPChecker.total_time L));;; get)
            (λ _ d'', path_fields_ok self d'' ∧ type_follows_verdict d'') d'
      | Raise e =>
          wp (select_clause
                [ (is_ftplib_all_errors,
                   λ e, errors_append ("FTP error: " +:+ exn_str e));
                  (is_socket_timeout,
                   λ _, errors_append "Connection timed out");
                  (is_socket_gaierror,
                   λ _, errors_append "Hostname resolution failed");
                  (any_exception,
                   λ e, errors_append ("Unexpected error: " +:+ exn_str e)) ] e)
            (λ r d'', match r with
                      | Ok _ =>
                          wp (setitem "total_time"
                                (VFloat (FTPChecker.total_time L));;; get)
                            (λ _ d3, path_fields_ok self d3
                                     ∧ type_follows_verdict d3) d''
                      | Raise _ =>
                          path_fields_ok self d'' ∧ type_follows_verdict d''
                      end) d'
      end).
    { intros [[]|e].
      - apply wp_bind, wp_setitem, wp_get.
        destruct (Hset "total_time" (VFloat (FTPChecker.total_time L)) d' eq_refl H)
          as (? & ? & _). done.
      - destruct H as (Hp & Ht & [l Hl]). simpl select_clause.
        repeat case_match;
          (eapply wp_errors_append; [exact Hl|]);
          apply wp_bind, wp_setitem, wp_get;
          match goal with
          | |- context [VList (l ++ [?msg])] =>
              destruct (Hset "total_time" (VFloat (FTPChecker.total_time L)) _
                          eq_refl
                          (Happ msg l d' Hl (conj Hp (conj Ht (ex_intro _ l Hl)))))
                as (? & ? & _)
          end; done. }
    destruct r as [[]|e0]; destruct (FTPChecker.FTP_exit L) as [[]|e1];
      first [exact (Hgoal (Ok tt)) | exact (Hgoal (Raise e0))
            | exact (Hgoal (Raise e1))].
  - destruct He as [l Hl]. simpl select_clause.
    assert (H : path_fields_ok self d ∧ type_follows_verdict d ∧ errors_is_list d).
    { split; [by left|]. split; [by apply type_follows_untouched|by exists l]. }
    repeat case_match;
      (eapply wp_errors_append; [exact Hl|]);
      apply wp_bind, wp_setitem, wp_get;
      match goal with
      | |- context [VList (l ++ [?msg])] =>
          destruct (Hset "total_time" (VFloat (FTPChecker.total_time L)) _
                      eq_refl (Happ msg l d Hl H))
            as (? & ? & _)
      end; done.
Qed.

Lemma path_untouched_init self protocol now :
  path_untouched (init_results self protocol now).
Proof. by repeat split. Qed.

(** * The path check of [SFTPChecker] *)

(** What the path check does, case by case. *)
Lemma SFTP_path_block_run (L : SFTPChecker.lib) (path : string) (d : dict)
    (b : bool) (l : list string) :
  d !! "errors" = Some (VList l) →
  ∃ d',
    SFTPChecker.path_block L path (SFTPChecker.Frame d b)
    = (Ok tt, SFTPChecker.Frame d' b)
    ∧ d' !! "path_check_time" = Some (VFloat (SFTPChecker.path_check_time L))
    ∧ ((SFTPChecker.open_sftp L = Ok tt ∧ SFTPChecker.sftp_close L = Ok tt
        ∧ ∃ st_mode,
            SFTPChecker.stat L path = Ok st_mode
            ∧ d' !! "path_exists" = Some (VBool true)
            ∧ d' !! "path_type"
              = match st_mode with
                | Some mode =>
                    Some (VStr (if negb (Z.land mode 16384 =? 0)
                                then "directory" else "file"))
                | None => d !! "path_type"
                end
            ∧ d' !! "errors" = Some (VList l))
       ∨ (¬ (SFTPChecker.open_sftp L = Ok tt ∧ SFTPChecker.sftp_close L = Ok tt
             ∧ ∃ st_mode, SFTPChecker.stat L path = Ok st_mode)
          ∧ d' !! "path_exists" = Some (VBool false)
          ∧ ∃ msg rest, d' !! "errors" = Some (VList (l ++ msg :: rest)))).
Proof.
  intros Hl.
  unfold SFTPChecker.path_block, try_finally, try_except, bind, call,
    SFTPChecker.on_results, setitem, modify, any_exception, ret.
  cbv beta iota zeta. cbn [SFTPChecker.results SFTPChecker.ssh].
  destruct (SFTPChecker.open_sftp L) as [[]|e0] eqn:Hopen; cbv beta iota;
    cbn [SFTPChecker.results SFTPChecker.ssh].
  - destruct (SFTPChecker.stat L path) as [st_mode|e1] eqn:Hstat; cbv beta iota;
      cbn [SFTPChecker.results SFTPChecker.ssh].
    + destruct st_mode as [mode|]; cbv beta iota;
        cbn [SFTPChecker.results SFTPChecker.ssh];
        (destruct (SFTPChecker.sftp_close L) as [[]|e2] eqn:Hclose; cbv beta iota;
           cbn [SFTPChecker.results SFTPChecker.ssh];
           [|erewrite errors_append_ok
               by (rewrite ?lookup_insert_ne by done; exact Hl);
             cbv beta iota; cbn [SFTPChecker.results SFTPChecker.ssh]]);
        (eexists; split; [reflexivity|]; split; [by rewrite lookup_insert_eq|]).
      * left. split; [done|]. split; [done|]. eexists. split; [done|].
        split; [by rewrite !lookup_insert_ne, lookup_insert_eq by done|].
        split; [by rewrite !lookup_insert_ne, lookup_insert_eq by done|].
        by rewrite !lookup_insert_ne by done.
      * right. split; [by intros (_ & [=] & _)|].
        split; [by rewrite !lookup_insert_ne, lookup_insert_eq by done|].
        eexists _, []. by rewrite lookup_insert_ne, lookup_insert_eq by done.
      * left. split; [done|]. split; [done|]. eexists. split; [done|].
        split; [by rewrite !lookup_insert_ne, lookup_insert_eq by done|].
        split; [by rewrite !lookup_insert_ne by done|].
        by rewrite !lookup_insert_ne by done.
      * right. split; [by intros (_ & [=] & _)|].
        split; [by rewrite !lookup_insert_ne, lookup_insert_eq by done|].
        eexists _, []. by rewrite lookup_insert_ne, lookup_insert_eq by done.
    + destruct (is_OSError e1); cbv beta iota;
        cbn [SFTPChecker.results SFTPChecker.ssh].
      * erewrite errors_append_ok
          by (rewrite ?lookup_insert_ne by done; exact Hl).
        cbv beta iota. cbn [SFTPChecker.results SFTPChecker.ssh].
        destruct (SFTPChecker.sftp_close L) as [[]|e2] eqn:Hclose; cbv beta iota;
          cbn [SFTPChecker.results SFTPChecker.ssh].
        -- eexists. split; [reflexivity|]. split; [by rewrite lookup_insert_eq|].
           right. split; [by intros (_ & _ & ? & [=])|].
           split; [by rewrite !lookup_insert_ne, lookup_insert_eq by done|].
           eexists _, []. by rewrite lookup_insert_ne, lookup_insert_eq by done.
        -- erewrite errors_append_ok
             by (rewrite ?lookup_insert_ne by done; apply lookup_insert_eq).
           cbv beta iota. cbn [SFTPChecker.results SFTPChecker.ssh].
           eexists. split; [reflexivity|]. split; [by rewrite lookup_insert_eq|].
           right. split; [by intros (_ & [=] & _)|].
           split; [by rewrite !lookup_insert_ne, lookup_insert_eq by done|].
           eexists _, [_]. rewrite lookup_insert_ne, lookup_insert_eq by done.
           by rewrite <- app_assoc.
      * destruct (SFTPChecker.sftp_close L) as [[]|e2] eqn:Hclose; cbv beta iota;
          cbn [SFTPChecker.results SFTPChecker.ssh];
          erewrite errors_append_ok
            by (rewrite ?lookup_insert_ne by done; exact Hl);
          cbv beta iota; cbn [SFTPChecker.results SFTPChecker.ssh];
          (eexists; split; [reflexivity|]; split; [by rewrite lookup_insert_eq|];
           right; split; [by intros (_ & _ & ? & [=])|];
           split; [by rewrite !lookup_insert_ne, lookup_insert_eq by done|];
           eexists _, []; by rewrite lookup_insert_ne, lookup_insert_eq by done).
  - erewrite errors_append_ok by (rewrite ?lookup_insert_ne by done; exact Hl).
    cbv beta iota. cbn [SFTPChecker.results SFTPChecker.ssh].
    eexists. split; [reflexivity|]. split; [by rewrite lookup_insert_eq|].
    right. split; [by intros ([=] & _)|].
    split; [by rewrite !lookup_insert_ne, lookup_insert_eq by done|].
    eexists _, []. by rewrite lookup_insert_ne, lookup_insert_eq by done.
Qed.

(** X10.  The verdict of the SFTP path check.  The check never raises
    and always records its duration.  The path is reported as existing
    exactly when [open_sftp], [stat] and [sftp.close()] all succeed; its
    type is then directory or file by bit 0o40000 of [st_mode], and is left
    as it was when [st_mode] is [None].  In every other case, also when
    only [sftp.close()] failed after a successful [stat], [path_exists] is
    [False] and at least one message is appended to [errors]. *)
Theorem SFTP_path_check_verdict (L : SFTPChecker.lib) (path : string) (d : dict)
    (b : bool) (l : list string) :
  d !! "errors" = Some (VList l) →
  ∃ d',
    SFTPChecker.path_block L path (SFTPChecker.Frame d b)
    = (Ok tt, SFTPChecker.Frame d' b)
    ∧ d' !! "path_check_time" = Some (VFloat (SFTPChecker.path_check_time L))
    ∧ ((SFTPChecker.open_sftp L = Ok tt ∧ SFTPChecker.sftp_close L = Ok tt
        ∧ ∃ st_mode,
            SFTPChecker.stat L path = Ok st_mode
            ∧ d' !! "path_exists" = Some (VBool true)
            ∧ d' !! "path_type"
              = match st_mode with
                | Some mode =>
                    Some (VStr (if negb (Z.land mode 16384 =? 0)
                                then "directory" else "file"))
                | None => d !! "path_type"
                end
            ∧ d' !! "errors" = Some (VList l))
       ∨ (¬ (SFTPChecker.open_sftp L = Ok tt ∧ SFTPChecker.sftp_close L = Ok tt
             ∧ ∃ st_mode, SFTPChecker.stat L path = Ok st_mode)
          ∧ d' !! "path_exists" = Some (VBool false)
          ∧ ∃ msg rest, d' !! "errors" = Some (VList (l ++ msg :: rest)))).
Proof. apply SFTP_path_block_run. Qed.

(** The theorem at a server on which [/pub] is a directory. *)
Lemma SFTP_path_check_verdict_witness :
  ∃ d',
    SFTPChecker.path_block sftp_with_directories "/pub"
      (SFTPChecker.Frame (SFTPChecker.__init__ pub_probe "2024-01-01T00:00:00")
         true)
    = (Ok tt, SFTPChecker.Frame d' true)
    ∧ d' !! "path_check_time"
      = Some (VFloat (SFTPChecker.path_check_time sftp_with_directories))
    ∧ ((SFTPChecker.open_sftp sftp_with_directories = Ok tt
        ∧ SFTPChecker.sftp_close sftp_with_directories = Ok tt
        ∧ ∃ st_mode,
            SFTPChecker.stat sftp_with_directories "/pub" = Ok st_mode
            ∧ d' !! "path_exists" = Some (VBool true)
            ∧ d' !! "path_type"
              = match st_mode with
                | Some mode =>
                    Some (VStr (if negb (Z.land mode 16384 =? 0)
                                then "directory" else "file"))
                | None =>
                    SFTPChecker.__init__ pub_probe "2024-01-01T00:00:00"
                      !! "path_type"
                end
            ∧ d' !! "errors" = Some (VList []))
       ∨ (¬ (SFTPChecker.open_sftp sftp_with_directories = Ok tt
             ∧ SFTPChecker.sftp_close sftp_with_directories = Ok tt
             ∧ ∃ st_mode, SFTPChecker.stat sftp_with_directories "/pub" = Ok st_mode)
          ∧ d' !! "path_exists" = Some (VBool false)
          ∧ ∃ msg rest, d' !! "errors" = Some (VList ([] ++ msg :: rest)))).
Proof.
  apply (SFTP_path_check_verdict sftp_with_directories "/pub"
           (SFTPChecker.__init__ pub_probe "2024-01-01T00:00:00") true []).
  reflexivity.
Defined.

(** ** The path fields of the record [SFTPChecker.check] returns *)

Lemma nonempty_list_snoc {A} (l : list A) x rest :
  ∃ l' y, l ++ x :: rest = l' ++ [y].
Proof.
  destruct (exists_last (l := x :: rest)) as (l0 & y & Heq); [done|].
  exists (l ++ l0), y. by rewrite Heq, app_assoc.
Qed.

Lemma SFTP_path_block_fields L self path f :
  check_path_requested self = Some path →
  errors_is_list (SFTPChecker.results f) → both_flags (SFTPChecker.results f) →
  wp (SFTPChecker.path_block L path)
     (λ _ f', path_fields_ok self (SFTPChecker.results f')
              ∧ errors_is_list (SFTPChecker.results f')) f.
Proof.
  intros Hreq [l Hl] Hboth. destruct f as [d b]. simpl in *.
  pose proof (SFTP_path_block_preserves both_flags L path both_flags_closed
                (SFTPChecker.Frame d b) Hboth) as Hboth'.
  destruct (SFTP_path_block_run L path d b l Hl) as (d' & Hrun & Htime & Hcases).
  unfold wp. rewrite Hrun in *. simpl in *.
  destruct Hcases as [(_ & _ & m & _ & He & _ & Herr)
                     |(_ & He & msg & rest & Herr)].
  - split; [|by exists l].
    right. split; [by rewrite Hreq|]. split; [done|].
    exists true, (SFTPChecker.path_check_time L). done.
  - split; [|by eexists].
    right. split; [by rewrite Hreq|]. split; [done|].
    exists false, (SFTPChecker.path_check_time L). split; [done|].
    split; [done|]. intros _.
    destruct (nonempty_list_snoc l msg rest) as (l' & y & Heq).
    exists l', y. by rewrite Herr, Heq.
Qed.

Lemma SFTP_session_path_fields L self f :
  path_untouched (SFTPChecker.results f) →
  errors_is_list (SFTPChecker.results f) →
  wp (SFTPChecker.session L self)
     (λ _ f', path_fields_ok self (SFTPChecker.results f')
              ∧ errors_is_list (SFTPChecker.results f')) f.
Proof.
  intros Hu He.
  unfold SFTPChecker.session, SFTPChecker.set_ssh.
  apply wp_bind, wp_call.
  destruct (SFTPChecker.SSHClient_new L) as [[]|e]; [|by split; [left|]].
  apply wp_bind, wp_modify.
  apply wp_bind, wp_call.
  destruct (SFTPChecker.set_missing_host_key_policy L) as [[]|e];
    [|by split; [left|]].
  apply wp_bind, wp_call.
  destruct (SFTPChecker.connect L) as [[]|e]; [|by split; [left|]].
  apply wp_bind, wp_on_results_setitem.
  apply wp_bind, wp_on_results_setitem.
  apply wp_bind, wp_on_results_setitem; cbv beta iota.
  match goal with |- wp _ _ ?f0 => set (f3 := f0) end.
  assert (H3 : path_untouched (SFTPChecker.results f3)
               ∧ errors_is_list (SFTPChecker.results f3)
               ∧ both_flags (SFTPChecker.results f3)).
  { subst f3. simpl. split; [|split].
    - do 3 (apply (proj1 path_untouched_closed); [done|]). done.
    - do 3 (apply errors_is_list_insert; [done|]). done.
    - unfold both_flags, flag. split; by simplify_map_eq. }
  clearbody f3. destruct H3 as (Hu3 & He3 & Hb3).
  destruct (check_path_requested self) as [path|] eqn:Hreq.
  - by apply SFTP_path_block_fields.
  - apply wp_ret. by split; [left|].
Qed.

Lemma path_fields_closed_frame self :
  update_closed written_after_session
    (λ d, path_fields_ok self d ∧ errors_is_list d).
Proof.
  destruct (path_fields_closed self) as [Hset Happ].
  assert (Hdrop : ∀ d, path_fields_ok self d ∧ errors_is_list d →
                       path_fields_ok self d ∧ errors_is_list d) by done.
  split.
  - intros k v d Hk (Hp & He).
    unfold path_fields_ok, path_untouched, path_checked, both_flags, flag,
      errors_is_list in *.
    apply written_after_session_inv in Hk as [-> | ->];
      by rewrite !lookup_insert_ne by done.
  - intros msg l d Hl (Hp & He).
    unfold path_fields_ok, path_untouched, path_checked, both_flags, flag,
      errors_is_list in *.
    rewrite !lookup_insert_ne by done. rewrite lookup_insert_eq.
    split; [|by eexists].
    destruct Hp as [Hp|(Hr & Hb & b & t & H1 & H2 & H3)]; [by left|].
    right. split; [done|]. split; [done|]. exists b, t.
    split; [done|]. split; [done|]. intros _. by exists l, msg.
Qed.

Lemma SFTP_check_frame_path_fields L self f :
  path_untouched (SFTPChecker.results f) →
  errors_is_list (SFTPChecker.results f) →
  wp (SFTPChecker.check_frame L self)
     (λ _ f', path_fields_ok self (SFTPChecker.results f')) f.
Proof.
  intros Hu He.
  eapply wp_mono.
  - apply (SFTP_check_frame_invariant L self
             (λ d, path_fields_ok self d ∧ errors_is_list d));
      [apply path_fields_closed_frame|by intros ? [_ ?]|].
    by apply SFTP_session_path_fields.
  - by intros r f' [[H _] _].
Qed.

(** * The path fields of a returned record *)

(** X11.  In every record a checker returns, the three path fields are
    still [None] unless a check path was requested, connection and
    authentication both succeeded and the path check ran; in that case
    [path_exists] is a boolean, [path_check_time] a duration, and a
    [path_exists] of [False] comes with a message in [errors].  For FTP,
    moreover, [path_type] is directory or file when [path_exists] is [True]
    and [None] otherwise. *)
Theorem path_fields_of_a_returned_record (self : checker) (now : string) :
  (∀ L r d',
     FTPChecker.check L self (FTPChecker.__init__ self now) = (Ok r, d') →
     path_fields_ok self r ∧ type_follows_verdict r)
  ∧ (∀ L r d',
       SFTPChecker.check L self (SFTPChecker.__init__ self now) = (Ok r, d') →
       path_fields_ok self r).
Proof.
  split.
  - intros L r d' H.
    destruct (FTP_check_fresh L self now) as (r0 & Hr & _).
    pose proof (FTP_check_path_fields_wp L self (FTPChecker.__init__ self now)
                  (path_untouched_init self "FTP" now)
                  (errors_is_list_init self "FTP" now)) as Hwp.
    unfold wp in Hwp. rewrite Hr in H, Hwp. injection H as <- _. exact Hwp.
  - intros L r d' H.
    destruct (SFTP_check_fresh L self now) as [_ H2].
    destruct (H2 r d' H) as (-> & _).
    pose proof (SFTP_check_frame_path_fields L self
                  (SFTPChecker.Frame (SFTPChecker.__init__ self now) false)
                  (path_untouched_init self "SFTP" now)
                  (errors_is_list_init self "SFTP" now)) as Hwp.
    unfold wp in Hwp. rewrite SFTP_check_unfold in H.
    destruct (SFTPChecker.check_frame L self _) as [r1 f1].
    simpl in *. by injection H as _ <-.
Qed.

(** The theorem at a probe of [/pub] on a server where it is a directory. *)
Lemma path_fields_of_a_returned_record_witness :
  path_fields_ok pub_probe pub_result ∧ type_follows_verdict pub_result.
Proof.
  assert (H : FTPChecker.check ftp_without_FEAT pub_probe
                (FTPChecker.__init__ pub_probe "2024-01-01T00:00:00")
              = (Ok pub_result, pub_result)).
  { unfold pub_result.
    destruct (FTP_check_fresh ftp_without_FEAT pub_probe "2024-01-01T00:00:00")
      as (r & -> & _).
    reflexivity. }
  exact (proj1 (path_fields_of_a_returned_record pub_probe "2024-01-01T00:00:00")
           ftp_without_FEAT pub_result pub_result H).
Defined.

(** * Connection and authentication over SFTP *)

Lemma stages_agree_closed :
  update_closed written_after_session
    (λ d, stages_agree d ∧ errors_is_list d).
Proof.
  split.
  - intros k v d Hk (Hs & He).
    unfold stages_agree, both_flags, flag, errors_is_list in *.
    apply written_after_session_inv in Hk as [-> | ->];
      by rewrite !lookup_insert_ne by done.
  - intros msg l d Hl (Hs & He).
    unfold stages_agree, both_flags, flag, errors_is_list in *.
    rewrite !lookup_insert_ne by done. rewrite lookup_insert_eq.
    split; [done|by eexists].
Qed.

Lemma SFTP_session_stages L self f :
  stages_agree (SFTPChecker.results f) →
  errors_is_list (SFTPChecker.results f) →
  wp (SFTPChecker.session L self)
     (λ _ f', stages_agree (SFTPChecker.results f')
              ∧ errors_is_list (SFTPChecker.results f')) f.
Proof.
  intros Hs He.
  unfold SFTPChecker.session, SFTPChecker.set_ssh.
  apply wp_bind, wp_call.
  destruct (SFTPChecker.SSHClient_new L) as [[]|e]; [|done].
  apply wp_bind, wp_modify.
  apply wp_bind, wp_call.
  destruct (SFTPChecker.set_missing_host_key_policy L) as [[]|e]; [|done].
  apply wp_bind, wp_call.
  destruct (SFTPChecker.connect L) as [[]|e]; [|done].
  apply wp_bind, wp_on_results_setitem.
  apply wp_bind, wp_on_results_setitem.
  apply wp_bind, wp_on_results_setitem; cbv beta iota.
  match goal with |- wp _ _ ?f0 => set (f3 := f0) end.
  assert (H3 : both_flags (SFTPChecker.results f3)
               ∧ errors_is_list (SFTPChecker.results f3)).
  { subst f3. simpl. split.
    - unfold both_flags, flag. split; by simplify_map_eq.
    - do 3 (apply errors_is_list_insert; [done|]). done. }
  clearbody f3.
  apply (wp_preserved (λ f, both_flags (SFTPChecker.results f)
                            ∧ errors_is_list (SFTPChecker.results f)));
    [|exact H3|by intros ? ? [? ?]; split; [right|]].
  apply preserves_and.
  - preserve ltac:(first [ frame_leaf both_flags_closed
                         | by apply SFTP_path_block_preserves, both_flags_closed ]).
  - preserve ltac:(first [ frame_leaf errors_is_list_closed_block
                         | by apply SFTP_path_block_preserves,
                                errors_is_list_closed_block ]).
Qed.

(** X12.  Over SFTP the two stages are one: in every record
    [SFTPChecker.check] returns, connection and authentication are both
    [True] or both [False], so a reachable server that rejects the password
    is reported with connection [False]; and [auth_time] is the record's
    own [connection_time]. *)
Theorem SFTP_connection_and_authentication_agree
    (L : SFTPChecker.lib) (self : checker) (now : string) (r d' : dict) :
  SFTPChecker.check L self (SFTPChecker.__init__ self now) = (Ok r, d') →
  stages_agree r
  ∧ r !! "connection" = r !! "authentication"
  ∧ r !! "auth_time" = r !! "connection_time".
Proof.
  intros H.
  destruct (SFTP_check_fresh L self now) as [_ H2].
  destruct (H2 r d' H) as (-> & _).
  assert (Hinit : stages_agree (SFTPChecker.__init__ self now)) by (by left).
  pose proof (SFTP_check_frame_invariant L self
                (λ d, stages_agree d ∧ errors_is_list d)
                (SFTPChecker.Frame (SFTPChecker.__init__ self now) false)
                stages_agree_closed (λ d H, proj2 H)
                (SFTP_session_stages L self
                   (SFTPChecker.Frame (SFTPChecker.__init__ self now) false)
                   Hinit (errors_is_list_init self "SFTP" now))) as Hwp.
  unfold wp in Hwp. rewrite SFTP_check_unfold in H.
  destruct (SFTPChecker.check_frame L self _) as [r1 f1].
  simpl in *. injection H as -> <-.
  destruct Hwp as [[Hs _] Ht]. split; [done|]. split; [|by eapply Ht].
  destruct Hs as [[-> ->]|[Hc Ha]]; [done|].
  unfold flag in *. by rewrite Hc, Ha.
Qed.

(** The theorem at a server that rejects the password. *)
Lemma SFTP_connection_and_authentication_agree_witness :
  stages_agree wrong_password_result
  ∧ wrong_password_result !! "connection"
    = wrong_password_result !! "authentication"
  ∧ wrong_password_result !! "auth_time"
    = wrong_password_result !! "connection_time".
Proof.
  assert (H : SFTPChecker.check sftp_wrong_password anonymous_probe
                (SFTPChecker.__init__ anonymous_probe "2024-01-01T00:00:00")
              = (Ok wrong_password_result, wrong_password_result)).
  { unfold wrong_password_result.
    destruct (proj1 (SFTP_check_fresh sftp_wrong_password anonymous_probe
                       "2024-01-01T00:00:00") eq_refl) as [r ->].
    reflexivity. }
  exact (SFTP_connection_and_authentication_agree sftp_wrong_password
           anonymous_probe "2024-01-01T00:00:00" wrong_password_result
           wrong_password_result H).
Defined.

(** * The types of the fields of a record *)

Lemma well_typed_insert k v d :
  field_type k v = true → well_typed d → well_typed (<[k := v]> d).
Proof.
  intros Hv Hd k' v' H. destruct (decide (k = k')) as [<-|Hne].
  - rewrite lookup_insert_eq in H. by injection H as <-.
  - rewrite lookup_insert_ne in H by done. by apply Hd.
Qed.

Lemma well_typed_init self protocol now :
  well_typed (init_results self protocol now).
Proof.
  unfold init_results.
  repeat (apply well_typed_insert; [reflexivity|]).
  intros k v H. by rewrite lookup_empty in H.
Qed.

Ltac typed_leaf :=
  first
    [ apply preserves_setitem; intros ? ?; apply well_typed_insert;
      [reflexivity|assumption]
    | apply preserves_errors_append; intros ? ? ? ?; apply well_typed_insert;
      [reflexivity|assumption] ].

Lemma FTP_check_well_typed L self :
  preserves well_typed (FTPChecker.check L self).
Proof.
  unfold FTPChecker.check, FTPChecker.check_then, FTPChecker.session, FTPChecker.features_block,
    FTPChecker.path_block.
  preserve typed_leaf.
Qed.

Lemma SFTP_session_well_typed L self :
  preserves (λ f, well_typed (SFTPChecker.results f)) (SFTPChecker.session L self).
Proof.
  unfold SFTPChecker.session, SFTPChecker.path_block, SFTPChecker.set_ssh.
  preserve ltac:(first [ apply preserves_on_results; preserve typed_leaf
                       | apply preserves_modify; intros ? ?; assumption ]).
Qed.

Lemma SFTP_check_frame_well_typed L self f :
  well_typed (SFTPChecker.results f) →
  errors_is_list (SFTPChecker.results f) →
  wp (SFTPChecker.check_frame L self)
     (λ _ f', well_typed (SFTPChecker.results f')) f.
Proof.
  intros Hw He. eapply wp_mono.
  - apply (SFTP_check_frame_invariant_gen L self
             (λ d, well_typed d ∧ errors_is_list d)).
    + intros msg l d Hl [H1 H2]. split.
      * by apply well_typed_insert.
      * eexists. apply lookup_insert_eq.
    + intros t d [H1 H2]. split.
      * by apply well_typed_insert.
      * by apply errors_is_list_insert.
    + intros ct d [H1 H2] Hct. split.
      * apply well_typed_insert; [|done]. exact (H1 _ _ Hct).
      * by apply errors_is_list_insert.
    + by intros d [_ H].
    + apply (wp_preserved (λ f, well_typed (SFTPChecker.results f)
                                ∧ errors_is_list (SFTPChecker.results f)));
        [|done|done].
      apply preserves_and; [apply SFTP_session_well_typed|].
      apply (SFTP_session_preserves errors_is_list), errors_is_list_closed.
  - by intros r f' [[H _] _].
Qed.

(** A record a checker returns has all sixteen keys, each of its type. *)
Lemma FTP_check_complete L self now r d' :
  FTPChecker.check L self (FTPChecker.__init__ self now) = (Ok r, d') →
  complete r.
Proof.
  intros H. split; [by eapply dom_FTP_check|].
  destruct (FTP_check_fresh L self now) as (r0 & Hr & _).
  pose proof (FTP_check_well_typed L self _ (well_typed_init self "FTP" now))
    as Hw.
  unfold FTPChecker.__init__ in *. rewrite Hr in H, Hw.
  by injection H as <- _.
Qed.

Lemma SFTP_check_complete L self now r d' :
  SFTPChecker.check L self (SFTPChecker.__init__ self now) = (Ok r, d') →
  complete r.
Proof.
  intros H. split; [by eapply dom_SFTP_check|].
  destruct (SFTP_check_fresh L self now) as [_ H2].
  destruct (H2 r d' H) as (-> & _).
  pose proof (SFTP_check_frame_well_typed L self
                (SFTPChecker.Frame (SFTPChecker.__init__ self now) false)
                (well_typed_init self "SFTP" now)
                (errors_is_list_init self "SFTP" now)) as Hwp.
  unfold wp in Hwp. rewrite SFTP_check_unfold in H.
  destruct (SFTPChecker.check_frame L self _) as [r1 f1].
  simpl in *. by injection H as _ <-.
Qed.

(** ** The entries of [features] *)

Lemma features_clean_set l (d : dict) :
  features_clean
    (<["features" := VList (map strip
                              (List.filter (λ f, nonempty (strip f)) l))]> d).
Proof.
  eexists. split; [apply lookup_insert_eq|].
  apply Forall_forall. intros w Hw.
  apply list_elem_of_In, in_map_iff in Hw as (f & <- & Hf).
  apply filter_In in Hf as [_ Hf].
  split; [by apply nonempty_spec|apply strip_idemp].
Qed.

Lemma features_clean_other k v d :
  k ≠ "features" → features_clean d → features_clean (<[k := v]> d).
Proof.
  intros Hne (l & Hl & H). exists l. by rewrite lookup_insert_ne.
Qed.

Lemma FTP_check_features_clean L self :
  preserves features_clean (FTPChecker.check L self).
Proof.
  unfold FTPChecker.check, FTPChecker.check_then, FTPChecker.session, FTPChecker.features_block,
    FTPChecker.path_block.
  preserve ltac:(first
    [ apply preserves_setitem; intros ? ?; apply features_clean_set
    | apply preserves_setitem; intros ? ?; by apply features_clean_other
    | apply preserves_errors_append; intros ? ? ? ?; by apply features_clean_other ]).
Qed.

(** * The report writers on complete records *)

Section Succeeds.
Context {S : Type}.

Lemma succeeds_ret {A} (a : A) : succeeds (ret (S:=S) a).
Proof. intros s. by exists a, s. Qed.

Lemma succeeds_modify (f : S → S) : succeeds (modify f).
Proof. intros s. by exists tt, (f s). Qed.

Lemma succeeds_bind {A B} (m : M S A) (k : A → M S B) :
  succeeds m → (∀ a, succeeds (k a)) → succeeds (bind m k).
Proof.
  intros Hm Hk s. unfold bind. destruct (Hm s) as (a & s' & ->). apply Hk.
Qed.

Lemma succeeds_bind_call {A B} (r : res A) (a : A) (k : A → M S B) :
  r = Ok a → succeeds (k a) → succeeds (bind (call r) k).
Proof. intros -> Hk s. unfold bind, call. apply Hk. Qed.

Lemma succeeds_if {A} (b : bool) (m1 m2 : M S A) :
  succeeds m1 → succeeds m2 → succeeds (if b then m1 else m2).
Proof. by destruct b. Qed.

Lemma succeeds_for_each {A} (l : list A) (body : A → M S unit) :
  (∀ x, succeeds (body x)) → succeeds (for_each l body).
Proof.
  intros Hbody. induction l as [|x l IH]; simpl.
  - apply succeeds_ret.
  - apply succeeds_bind; [apply Hbody|by intros _].
Qed.

End Succeeds.

Lemma getitem_Some (d : dict) k v : d !! k = Some v → getitem d k = Ok v.
Proof. intros H. unfold getitem. by rewrite H. Qed.

Lemma complete_field r k :
  complete r → k ∈ checker_keys →
  ∃ v, r !! k = Some v ∧ field_type k v = true.
Proof.
  intros [Hdom Hw] Hk. rewrite <- Hdom in Hk.
  apply elem_of_dom in Hk as [v Hv]. exists v. split; [done|by apply Hw].
Qed.

Ltac ok_get H :=
  eapply succeeds_bind_call; [apply getitem_Some, H|].

Ltac ok_emit :=
  apply succeeds_bind; [apply succeeds_modify|intros _].

Lemma emit_ms_succeeds result k v :
  result !! k = Some v → succeeds (AdvancedFTPChecker.emit_ms result k).
Proof.
  intros H. unfold AdvancedFTPChecker.emit_ms, AdvancedFTPChecker.emit.
  ok_get H. destruct (truthy v); [|apply succeeds_ret].
  ok_get H. apply succeeds_modify.
Qed.

Lemma sub_ms_succeeds result k tag v :
  result !! k = Some v → succeeds (AdvancedFTPChecker.sub_ms result k tag).
Proof.
  intros H. unfold AdvancedFTPChecker.sub_ms, AdvancedFTPChecker.sub_text.
  ok_get H. destruct (truthy v); [|apply succeeds_ret].
  ok_get H. apply succeeds_modify.
Qed.

Lemma sub_element_succeeds tag body :
  succeeds body → succeeds (AdvancedFTPChecker.sub_element tag body).
Proof.
  intros Hb parent. unfold AdvancedFTPChecker.sub_element.
  destruct (Hb []) as ([] & children & ->). by eexists _, _.
Qed.

Lemma txt_block_succeeds it :
  complete it.2 → succeeds (AdvancedFTPChecker.txt_block it).
Proof.
  destruct it as [i r]. simpl. intros Hr.
  destruct (complete_field r "username" Hr) as (u & Hu & _); [compute_done|].
  destruct (complete_field r "host" Hr) as (h & Hh & _); [compute_done|].
  destruct (complete_field r "port" Hr) as (p & Hp & _); [compute_done|].
  destruct (complete_field r "connection" Hr) as (c & Hc & _); [compute_done|].
  destruct (complete_field r "authentication" Hr) as (a & Ha & _);
    [compute_done|].
  destruct (complete_field r "connection_time" Hr) as (ct & Hct & _);
    [compute_done|].
  destruct (complete_field r "auth_time" Hr) as (at_ & Hat & _); [compute_done|].
  destruct (complete_field r "path_check_time" Hr) as (pct & Hpct & _);
    [compute_done|].
  destruct (complete_field r "path_exists" Hr) as (pe & Hpe & _);
    [compute_done|].
  destruct (complete_field r "path_type" Hr) as (pt & Hpt & _); [compute_done|].
  destruct (complete_field r "welcome_message" Hr) as (wm & Hwm & Twm);
    [compute_done|].
  destruct (complete_field r "features" Hr) as (ft & Hft & Tft); [compute_done|].
  destruct (complete_field r "errors" Hr) as (er & Her & Ter); [compute_done|].
  unfold AdvancedFTPChecker.txt_block, AdvancedFTPChecker.emit.
  ok_get Hu. ok_get Hh. ok_get Hp. ok_emit.
  ok_get Hc. ok_emit.
  apply succeeds_bind; [by eapply emit_ms_succeeds|intros _]. ok_emit.
  ok_get Ha. ok_emit.
  apply succeeds_bind; [by eapply emit_ms_succeeds|intros _]. ok_emit.
  ok_get Hpe.
  apply succeeds_bind; [|intros _].
  { assert (Hrest : succeeds
      (pe <- call (getitem r "path_exists");;
       modify (λ content, content +:+ "  Path check: "
                          +:+ (if truthy pe then "Exists" else "Missing"));;;
       AdvancedFTPChecker.emit_ms r "path_check_time";;;
       pt <- call (getitem r "path_type");;
       (if truthy pt then
          pt <- call (getitem r "path_type");;
          modify (λ content, content +:+ " [Type: " +:+ py_str pt +:+ "]")
        else ret tt);;;
       modify (λ content, content +:+ nl))).
    { ok_get Hpe. ok_emit.
      apply succeeds_bind; [by eapply emit_ms_succeeds|intros _].
      ok_get Hpt.
      apply succeeds_bind; [|intros _; apply succeeds_modify].
      destruct (truthy pt); [|apply succeeds_ret].
      ok_get Hpt. apply succeeds_modify. }
    destruct pe; first [apply succeeds_ret | exact Hrest]. }
  ok_get Hwm.
  apply succeeds_bind; [|intros _].
  { destruct wm; try (by vm_compute in Twm); [apply succeeds_ret|].
    destruct (truthy (VStr s)); [|apply succeeds_ret].
    ok_get Hwm.
    eapply succeeds_bind_call; [reflexivity|]. ok_emit.
    ok_get Hwm.
    eapply succeeds_bind_call; [reflexivity|].
    apply succeeds_bind; [|intros _; apply succeeds_modify].
    destruct (100 <? String.length s)%nat;
      [apply succeeds_modify|apply succeeds_ret]. }
  ok_get Hft.
  apply succeeds_bind; [|intros _].
  { destruct ft; try (by vm_compute in Tft).
    destruct (truthy (VList l)); [|apply succeeds_ret].
    ok_get Hft.
    eapply succeeds_bind_call; [reflexivity|]. apply succeeds_modify. }
  ok_emit.
  ok_get Her.
  apply succeeds_bind; [|intros _; apply succeeds_modify].
  destruct er; try (by vm_compute in Ter).
  destruct (truthy (VList l)); [|apply succeeds_ret].
  ok_emit. ok_get Her.
  eapply succeeds_bind_call; [reflexivity|].
  apply succeeds_for_each. intros x. apply succeeds_modify.
Qed.

Lemma xml_server_succeeds result :
  complete result → succeeds (AdvancedFTPChecker.xml_server result).
Proof.
  intros Hr. rename result into r.
  destruct (complete_field r "username" Hr) as (u & Hu & _); [compute_done|].
  destruct (complete_field r "host" Hr) as (h & Hh & _); [compute_done|].
  destruct (complete_field r "port" Hr) as (p & Hp & _); [compute_done|].
  destruct (complete_field r "timestamp" Hr) as (ts & Hts & _); [compute_done|].
  destruct (complete_field r "connection" Hr) as (c & Hc & _); [compute_done|].
  destruct (complete_field r "authentication" Hr) as (a & Ha & _);
    [compute_done|].
  destruct (complete_field r "connection_time" Hr) as (ct & Hct & _);
    [compute_done|].
  destruct (complete_field r "auth_time" Hr) as (at_ & Hat & _); [compute_done|].
  destruct (complete_field r "path_check_time" Hr) as (pct & Hpct & _);
    [compute_done|].
  destruct (complete_field r "path_exists" Hr) as (pe & Hpe & _);
    [compute_done|].
  destruct (complete_field r "path_type" Hr) as (pt & Hpt & _); [compute_done|].
  destruct (complete_field r "welcome_message" Hr) as (wm & Hwm & _);
    [compute_done|].
  destruct (complete_field r "features" Hr) as (ft & Hft & Tft); [compute_done|].
  destruct (complete_field r "errors" Hr) as (er & Her & Ter); [compute_done|].
  unfold AdvancedFTPChecker.xml_server, AdvancedFTPChecker.sub_text.
  apply sub_element_succeeds.
  ok_get Hh. ok_emit. ok_get Hp. ok_emit. ok_get Hu. ok_emit. ok_emit.
  ok_get Hts. ok_emit.
  apply succeeds_bind; [|intros _].
  { apply sub_element_succeeds.
    ok_get Hc. ok_emit.
    apply succeeds_bind; [by eapply sub_ms_succeeds|intros _].
    ok_get Ha. ok_emit. by eapply sub_ms_succeeds. }
  ok_get Hpe.
  apply succeeds_bind; [|intros _].
  { assert (Hrest : succeeds
      (AdvancedFTPChecker.sub_element "path_check"
         (pe <- call (getitem r "path_exists");;
          modify (λ parent,
                    (parent
                     ++ [AdvancedFTPChecker.Element "exists" (VStr (py_str pe)) []])%list);;;
          pt <- call (getitem r "path_type");;
          (if truthy pt then
             pt <- call (getitem r "path_type");;
             modify (λ parent,
                       (parent ++ [AdvancedFTPChecker.Element "type" pt []])%list)
           else ret tt);;;
          AdvancedFTPChecker.sub_ms r "path_check_time" "check_time_ms"))).
    { apply sub_element_succeeds.
      ok_get Hpe. ok_emit. ok_get Hpt.
      apply succeeds_bind; [|intros _; by eapply sub_ms_succeeds].
      destruct (truthy pt); [|apply succeeds_ret].
      ok_get Hpt. apply succeeds_modify. }
    destruct pe; first [apply succeeds_ret | exact Hrest]. }
  ok_get Hwm.
  apply succeeds_bind; [|intros _].
  { destruct (truthy wm); [|apply succeeds_ret].
    ok_get Hwm. apply succeeds_modify. }
  ok_get Hft.
  apply succeeds_bind; [|intros _].
  { destruct ft; try (by vm_compute in Tft).
    destruct (truthy (VList l)); [|apply succeeds_ret].
    apply sub_element_succeeds. ok_get Hft.
    eapply succeeds_bind_call; [reflexivity|].
    apply succeeds_for_each. intros x. apply succeeds_modify. }
  ok_emit.
  ok_get Her.
  destruct er; try (by vm_compute in Ter).
  destruct (truthy (VList l)); [|apply succeeds_ret].
  apply sub_element_succeeds. ok_get Her.
  eapply succeeds_bind_call; [reflexivity|].
  apply succeeds_for_each. intros x. apply succeeds_modify.
Qed.

Lemma csv_row_succeeds result :
  complete result →
  ∃ row, AdvancedFTPChecker.csv_row result = Ok row ∧ length row = 13%nat.
Proof.
  intros Hr. rename result into r.
  destruct (complete_field r "username" Hr) as (u & Hu & _); [compute_done|].
  destruct (complete_field r "host" Hr) as (h & Hh & _); [compute_done|].
  destruct (complete_field r "port" Hr) as (p & Hp & _); [compute_done|].
  destruct (complete_field r "connection" Hr) as (c & Hc & _); [compute_done|].
  destruct (complete_field r "authentication" Hr) as (a & Ha & _);
    [compute_done|].
  destruct (complete_field r "errors" Hr) as (er & Her & Ter); [compute_done|].
  unfold AdvancedFTPChecker.csv_row.
  rewrite (getitem_Some _ _ _ Hu), (getitem_Some _ _ _ Hh),
    (getitem_Some _ _ _ Hp), (getitem_Some _ _ _ Hc), (getitem_Some _ _ _ Ha),
    (getitem_Some _ _ _ Her).
  destruct er; try (by vm_compute in Ter).
  destruct (truthy (VList l)); simpl; by eexists.
Qed.

Lemma csv_rows_succeeds results :
  Forall complete results →
  ∃ rows, AdvancedFTPChecker.csv_rows results = Ok rows
          ∧ Forall (λ row, length row = 13%nat) rows.
Proof.
  induction 1 as [|r rest Hr Hrest (rows & IH & Hlen)]; simpl.
  - by exists [].
  - destruct (csv_row_succeeds r Hr) as (row & -> & Hrow). rewrite IH.
    exists (row :: rows). split; [done|by constructor].
Qed.

Lemma count_successful_succeeds results :
  Forall complete results → ∃ n, count_successful results = Ok n.
Proof.
  induction 1 as [|r rest Hr Hrest [n IH]]; simpl; [by exists 0%nat|].
  destruct (complete_field r "connection" Hr) as (c & Hc & _); [compute_done|].
  destruct (complete_field r "authentication" Hr) as (a & Ha & _);
    [compute_done|].
  unfold connection_and_authentication.
  rewrite (getitem_Some _ _ _ Hc), (getitem_Some _ _ _ Ha), IH.
  destruct (truthy c); by eexists.
Qed.

Lemma succeeds_for_each_Forall {S A} (l : list A) (body : A → M S unit) :
  Forall (λ x, succeeds (body x)) l → succeeds (for_each l body).
Proof.
  induction 1 as [|x l Hx Hl IH]; simpl.
  - apply succeeds_ret.
  - apply succeeds_bind; [exact Hx|by intros _].
Qed.

Lemma Forall_zip_snd {A B} (P : B → Prop) (l1 : list A) (l2 : list B) :
  Forall P l2 → Forall (λ it, P it.2) (zip l1 l2).
Proof.
  intros H. revert l1. induction H as [|y l2 Hy Hl2 IH]; intros [|x l1]; simpl;
    constructor; auto.
Qed.

Lemma txt_header_succeeds results now n :
  count_successful results = Ok n →
  succeeds (AdvancedFTPChecker.txt_header results now).
Proof.
  intros Hn. unfold AdvancedFTPChecker.txt_header, AdvancedFTPChecker.emit.
  ok_emit. ok_emit. ok_emit. ok_emit.
  eapply succeeds_bind_call; [exact Hn|]. ok_emit. apply succeeds_modify.
Qed.

Lemma xml_header_succeeds results now n :
  count_successful results = Ok n →
  succeeds (AdvancedFTPChecker.xml_header results now).
Proof.
  intros Hn. unfold AdvancedFTPChecker.xml_header, AdvancedFTPChecker.sub_text.
  ok_emit. ok_emit.
  eapply succeeds_bind_call; [exact Hn|]. ok_emit. apply succeeds_modify.
Qed.

(** All four writers return on a list of complete records. *)
Lemma writers_succeed results now :
  Forall complete results →
  ∃ content root n rows,
    count_successful results = Ok n
    ∧ AdvancedFTPChecker._save_txt results now = Ok content
    ∧ AdvancedFTPChecker._save_xml results now = Ok root
    ∧ AdvancedFTPChecker._save_json results now
      = Ok (AdvancedFTPChecker.Json now (Z.of_nat (length results)) (Z.of_nat n)
              (Z.of_nat (length results) - Z.of_nat n) results)
    ∧ AdvancedFTPChecker._save_csv results
      = Ok (AdvancedFTPChecker.csv_columns :: rows)
    ∧ length rows = length results
    ∧ Forall (λ row, length row = 13%nat) rows.
Proof.
  intros Hrs.
  destruct (count_successful_succeeds results Hrs) as [n Hn].
  destruct (csv_rows_succeeds results Hrs) as (rows & Hrows & Hlen).
  assert (Htxt : succeeds
            (AdvancedFTPChecker.txt_header results now;;;
             for_each (zip (seq 1 (length results)) results)
               AdvancedFTPChecker.txt_block)).
  { apply succeeds_bind; [by eapply txt_header_succeeds|intros _].
    apply succeeds_for_each_Forall.
    eapply Forall_impl; [by apply Forall_zip_snd|].
    intros it Hit. by apply txt_block_succeeds. }
  assert (Hxml : succeeds
            (AdvancedFTPChecker.xml_header results now;;;
             AdvancedFTPChecker.sub_element "servers"
               (for_each results AdvancedFTPChecker.xml_server))).
  { apply succeeds_bind; [by eapply xml_header_succeeds|intros _].
    apply sub_element_succeeds, succeeds_for_each_Forall.
    eapply Forall_impl; [exact Hrs|]. apply xml_server_succeeds. }
  destruct (Htxt EmptyString) as ([] & content & Htxt').
  destruct (Hxml []) as ([] & children & Hxml').
  exists content, (AdvancedFTPChecker.Element "ftp_check_results" VNone children),
    n, rows.
  split; [done|]. split; [|split; [|split; [|split; [|split]]]].
  - unfold AdvancedFTPChecker._save_txt. by rewrite Htxt'.
  - unfold AdvancedFTPChecker._save_xml. by rewrite Hxml'.
  - by apply save_json_header.
  - unfold AdvancedFTPChecker._save_csv. by rewrite Hrows.
  - by eapply csv_rows_length.
  - done.
Qed.

(** X13.  Every record a checker returns has all sixteen keys, and each
    field has its type: connection and authentication are booleans, the
    four durations are numbers or [None], [path_exists] is a boolean or
    [None], [path_type], [welcome_message], [protocol] and [timestamp] are
    strings or [None], and [features] and [errors] are lists.  The entries
    of [features] that [FTPChecker.check] stores are non-empty and carry no
    white space around them. *)
Theorem checker_records_are_complete (self : checker) (now : string) :
  (∀ L r d',
     FTPChecker.check L self (FTPChecker.__init__ self now) = (Ok r, d') →
     complete r ∧ features_clean r)
  ∧ (∀ L r d',
       SFTPChecker.check L self (SFTPChecker.__init__ self now) = (Ok r, d') →
       complete r).
Proof.
  split.
  - intros L r d' H. split; [by eapply FTP_check_complete|].
    destruct (FTP_check_fresh L self now) as (r0 & Hr & _).
    assert (Hinit : features_clean (FTPChecker.__init__ self now))
      by (exists []; split; [reflexivity|constructor]).
    pose proof (FTP_check_features_clean L self _ Hinit) as Hc.
    rewrite Hr in H, Hc. by injection H as <- _.
  - intros L r d' H. by eapply SFTP_check_complete.
Qed.

(** The theorem at a server that rejects the password. *)
Lemma checker_records_are_complete_witness : complete wrong_password_result.
Proof.
  assert (H : SFTPChecker.check sftp_wrong_password anonymous_probe
                (SFTPChecker.__init__ anonymous_probe "2024-01-01T00:00:00")
              = (Ok wrong_password_result, wrong_password_result)).
  { unfold wrong_password_result.
    destruct (proj1 (SFTP_check_fresh sftp_wrong_password anonymous_probe
                       "2024-01-01T00:00:00") eq_refl) as [r ->].
    reflexivity. }
  exact (proj2 (checker_records_are_complete anonymous_probe
                  "2024-01-01T00:00:00")
           sftp_wrong_password wrong_password_result wrong_password_result H).
Defined.

Lemma without_FEAT_result_complete : complete without_FEAT_result.
Proof.
  assert (H : FTPChecker.check ftp_without_FEAT anonymous_probe
                (FTPChecker.__init__ anonymous_probe "2024-01-01T00:00:00")
              = (Ok without_FEAT_result, without_FEAT_result)).
  { unfold without_FEAT_result.
    destruct (FTP_check_fresh ftp_without_FEAT anonymous_probe
                "2024-01-01T00:00:00") as (r & -> & _).
    reflexivity. }
  by eapply FTP_check_complete.
Qed.

(** X14.  On a result list that holds only records returned by the
    checkers, none of the four writers raises: the text writer builds its
    content, the XML writer its tree, the JSON writer its data and the CSV
    writer its rows.  The CSV rows are the row of column names followed by
    one row of thirteen cells per record, and in the JSON data the
    successful and the failed connections add up to the total. *)
Theorem writers_return_on_checker_records (results : list dict) (now : string) :
  Forall complete results →
  ∃ content root data rows,
    AdvancedFTPChecker._save_txt results now = Ok content
    ∧ AdvancedFTPChecker._save_xml results now = Ok root
    ∧ AdvancedFTPChecker._save_json results now = Ok data
    ∧ AdvancedFTPChecker._save_csv results
      = Ok (AdvancedFTPChecker.csv_columns :: rows)
    ∧ length rows = length results
    ∧ Forall (λ row, length row = length AdvancedFTPChecker.csv_columns) rows
    ∧ AdvancedFTPChecker.total_servers data = Z.of_nat (length results)
    ∧ AdvancedFTPChecker.successful_connections data
      + AdvancedFTPChecker.failed_connections data
      = AdvancedFTPChecker.total_servers data
    ∧ 0 ≤ AdvancedFTPChecker.successful_connections data
    ∧ 0 ≤ AdvancedFTPChecker.failed_connections data.
Proof.
  intros Hrs.
  destruct (writers_succeed results now Hrs)
    as (content & root & n & rows & Hn & Htxt & Hxml & Hjson & Hcsv & Hlen & Hrows).
  destruct (count_successful_spec results n Hn) as [_ Hle].
  eexists content, root, _, rows.
  repeat (split; [done|]). simpl. lia.
Qed.

(** The theorem at the record of one anonymous FTP login. *)
Lemma writers_return_on_checker_records_witness :
  ∃ content root data rows,
    AdvancedFTPChecker._save_txt [without_FEAT_result] "2024-01-01T00:01:00"
    = Ok content
    ∧ AdvancedFTPChecker._save_xml [without_FEAT_result] "2024-01-01T00:01:00"
      = Ok root
    ∧ AdvancedFTPChecker._save_json [without_FEAT_result] "2024-01-01T00:01:00"
      = Ok data
    ∧ AdvancedFTPChecker._save_csv [without_FEAT_result]
      = Ok (AdvancedFTPChecker.csv_columns :: rows)
    ∧ length rows = length [without_FEAT_result]
    ∧ Forall (λ row, length row = length AdvancedFTPChecker.csv_columns) rows
    ∧ AdvancedFTPChecker.total_servers data
      = Z.of_nat (length [without_FEAT_result])
    ∧ AdvancedFTPChecker.successful_connections data
      + AdvancedFTPChecker.failed_connections data
      = AdvancedFTPChecker.total_servers data
    ∧ 0 ≤ AdvancedFTPChecker.successful_connections data
    ∧ 0 ≤ AdvancedFTPChecker.failed_connections data.
Proof.
  apply (writers_return_on_checker_records [without_FEAT_result]
           "2024-01-01T00:01:00").
  constructor; [exact without_FEAT_result_complete|constructor].
Defined.

(** * The headers of the reports *)

Lemma wrong_password_result_complete : complete wrong_password_result.
Proof.
  assert (H : SFTPChecker.check sftp_wrong_password anonymous_probe
                (SFTPChecker.__init__ anonymous_probe "2024-01-01T00:00:00")
              = (Ok wrong_password_result, wrong_password_result)).
  { unfold wrong_password_result.
    destruct (proj1 (SFTP_check_fresh sftp_wrong_password anonymous_probe
                       "2024-01-01T00:00:00") eq_refl) as [r ->].
    reflexivity. }
  by eapply SFTP_check_complete.
Qed.

(** C6 (as amended).  On a result list that holds records as the checkers
    return them, the text, the XML and the JSON writer each build a report
    that begins with a header: the generation timestamp, the total count,
    the count of results whose connection and authentication are both true,
    and the difference of the two; the three headers show the same numbers.
    On any result list whose success count can be taken, the JSON report
    has that header, and so has the text and the XML report whenever its
    writer gets to build it.  The CSV report carries no such header: it is
    the row of column names followed by one row per result, and the clock is
    not read. *)
Theorem report_headers (results : list dict) (now : string) :
  let total := Z.of_nat (length results) in
  (Forall complete results →
   ∃ n rest servers rows,
     count_successful results = Ok n
     ∧ n = length (List.filter is_success results)
     ∧ AdvancedFTPChecker._save_txt results now
       = Ok (txt_header_text now total (Z.of_nat n) +:+ rest)
     ∧ AdvancedFTPChecker._save_xml results now
       = Ok (AdvancedFTPChecker.Element "ftp_check_results" VNone
               (xml_header_elements now total (Z.of_nat n)
                ++ [AdvancedFTPChecker.Element "servers" VNone servers]))
     ∧ AdvancedFTPChecker._save_json results now
       = Ok (AdvancedFTPChecker.Json now total (Z.of_nat n)
               (total - Z.of_nat n) results)
     ∧ AdvancedFTPChecker._save_csv results
       = Ok (AdvancedFTPChecker.csv_columns :: rows)
     ∧ length rows = length results)
  ∧ (∀ n, count_successful results = Ok n →
       n = length (List.filter is_success results)
       ∧ (∀ content, AdvancedFTPChecker._save_txt results now = Ok content →
            ∃ rest, content = txt_header_text now total (Z.of_nat n) +:+ rest)
       ∧ (∀ root, AdvancedFTPChecker._save_xml results now = Ok root →
            ∃ servers,
              root = AdvancedFTPChecker.Element "ftp_check_results" VNone
                       (xml_header_elements now total (Z.of_nat n)
                        ++ [AdvancedFTPChecker.Element "servers" VNone servers]))
       ∧ AdvancedFTPChecker._save_json results now
         = Ok (AdvancedFTPChecker.Json now total (Z.of_nat n)
                 (total - Z.of_nat n) results)
       ∧ (∀ rows, AdvancedFTPChecker._save_csv results = Ok rows →
            ∃ data, rows = AdvancedFTPChecker.csv_columns :: data
                    ∧ length data = length results)).
Proof.
  intros total.
  assert (Hgen : ∀ n, count_successful results = Ok n →
    n = length (List.filter is_success results)
    ∧ (∀ content, AdvancedFTPChecker._save_txt results now = Ok content →
         ∃ rest, content = txt_header_text now total (Z.of_nat n) +:+ rest)
    ∧ (∀ root, AdvancedFTPChecker._save_xml results now = Ok root →
         ∃ servers,
           root = AdvancedFTPChecker.Element "ftp_check_results" VNone
                    (xml_header_elements now total (Z.of_nat n)
                     ++ [AdvancedFTPChecker.Element "servers" VNone servers]))
    ∧ AdvancedFTPChecker._save_json results now
      = Ok (AdvancedFTPChecker.Json now total (Z.of_nat n)
              (total - Z.of_nat n) results)
    ∧ (∀ rows, AdvancedFTPChecker._save_csv results = Ok rows →
         ∃ data, rows = AdvancedFTPChecker.csv_columns :: data
                 ∧ length data = length results)).
  { intros n Hn.
    split; [by apply count_successful_spec|].
    split; [intros content; by apply save_txt_header|].
    split; [intros root; by apply save_xml_header|].
    split; [by apply save_json_header|].
    intros rows. unfold AdvancedFTPChecker._save_csv.
    destruct (AdvancedFTPChecker.csv_rows results) as [data|] eqn:E; [|done].
    intros [= <-]. exists data. split; [done|]. by apply csv_rows_length. }
  split; [|exact Hgen].
  intros Hrs.
  destruct (writers_succeed results now Hrs)
    as (content & root & n & rows & Hn & Htxt & Hxml & Hjson & Hcsv & Hlen & _).
  destruct (Hgen n Hn) as (Hcount & Ht & Hx & Hj & _).
  destruct (Ht content Htxt) as [rest ->].
  destruct (Hx root Hxml) as [servers ->].
  by exists n, rest, servers, rows.
Qed.

(** The theorem at the list of two records, one of a successful anonymous
    FTP login and one of a rejected SFTP password: every header shows the
    total 2 and 1 success. *)
Lemma report_headers_witness :
  (∃ n rest servers rows,
     count_successful [without_FEAT_result; wrong_password_result] = Ok n
     ∧ n = length (List.filter is_success
                     [without_FEAT_result; wrong_password_result])
     ∧ AdvancedFTPChecker._save_txt [without_FEAT_result; wrong_password_result]
         "2024-01-01T00:01:00"
       = Ok (txt_header_text "2024-01-01T00:01:00" 2 (Z.of_nat n) +:+ rest)
     ∧ AdvancedFTPChecker._save_xml [without_FEAT_result; wrong_password_result]
         "2024-01-01T00:01:00"
       = Ok (AdvancedFTPChecker.Element "ftp_check_results" VNone
               (xml_header_elements "2024-01-01T00:01:00" 2 (Z.of_nat n)
                ++ [AdvancedFTPChecker.Element "servers" VNone servers]))
     ∧ AdvancedFTPChecker._save_json [without_FEAT_result; wrong_password_result]
         "2024-01-01T00:01:00"
       = Ok (AdvancedFTPChecker.Json "2024-01-01T00:01:00" 2 (Z.of_nat n)
               (2 - Z.of_nat n) [without_FEAT_result; wrong_password_result])
     ∧ AdvancedFTPChecker._save_csv [without_FEAT_result; wrong_password_result]
       = Ok (AdvancedFTPChecker.csv_columns :: rows)
     ∧ length rows = 2%nat)
  ∧ count_successful [without_FEAT_result; wrong_password_result] = Ok 1%nat.
Proof.
  split; [|vm_compute; reflexivity].
  apply (proj1 (report_headers [without_FEAT_result; wrong_password_result]
                  "2024-01-01T00:01:00")).
  constructor; [exact without_FEAT_result_complete|].
  constructor; [exact wrong_password_result_complete|constructor].
Defined.

(** * A brute-force run over FTP, from the command line to the reports *)





(** ** The writers and their files *)

Lemma with_open_run {S A} F f (body : M S A) s :
  AdvancedFTPChecker.with_open F (Some f) body s
  = match AdvancedFTPChecker.open_w F f with
    | Raise e => (Raise e, s)
    | Ok _ =>
        match body s with
        | (r, s') =>
            (match AdvancedFTPChecker.f_exit F with
             | Raise e => Raise e
             | Ok _ => r
             end, s')
        end
    end.
Proof.
  unfold AdvancedFTPChecker.with_open, bind, call, try_finally.
  destruct (AdvancedFTPChecker.open_w F f) as [[]|e]; [|done].
  destruct (body s) as [r s']. by destruct (AdvancedFTPChecker.f_exit F) as [[]|e].
Qed.






Lemma write_row_run F row rows :
  AdvancedFTPChecker.write_row F row rows
  = match AdvancedFTPChecker.writerow F (length rows) row with
    | Ok _ => (Ok tt, rows ++ [row])
    | Raise e => (Raise e, rows)
    end.
Proof.
  unfold AdvancedFTPChecker.write_row, bind, get, call, modify.
  by destruct (AdvancedFTPChecker.writerow F (length rows) row) as [[]|e].
Qed.


(** When every file operation returns, [_save_csv] writes the rows it
    builds, and fails where building them fails, on any result list. *)
Lemma csv_loop_builds F results :
  (∀ i row, AdvancedFTPChecker.writerow F i row = Ok tt) →
  ∀ rows0,
    (for_each results
       (λ result, row <- call (AdvancedFTPChecker.csv_row result);;
                  AdvancedFTPChecker.write_row F row) rows0).1
    = match AdvancedFTPChecker.csv_rows results with
      | Ok _ => Ok tt
      | Raise e => Raise e
      end
    ∧ ∀ rows, AdvancedFTPChecker.csv_rows results = Ok rows →
        (for_each results
           (λ result, row <- call (AdvancedFTPChecker.csv_row result);;
                      AdvancedFTPChecker.write_row F row) rows0).2
        = rows0 ++ rows.
Proof.
  intros HF. induction results as [|r rest IH]; intros rows0; simpl.
  - split; [done|]. intros rows [= <-]. by rewrite app_nil_r.
  - remember (bind _ _ rows0) as out eqn:Hout.
    unfold bind at 1 2, call at 1 in Hout.
    destruct (AdvancedFTPChecker.csv_row r) as [row|e]; [|by subst out].
    rewrite write_row_run, HF in Hout. subst out.
    destruct (IH (rows0 ++ [row])) as [H1 H2]. rewrite H1.
    destruct (AdvancedFTPChecker.csv_rows rest) as [rows'|e]; [|done].
    split; [done|]. intros rows [= <-].
    rewrite (H2 rows' eq_refl). by rewrite <- app_assoc.
Qed.

Lemma save_csv_builds F results f written :
  files_return F →
  AdvancedFTPChecker.save_csv F results (Some f) written
  = match AdvancedFTPChecker._save_csv results with
    | Ok rows => (Ok tt, written ++ [AdvancedFTPChecker.CSV rows])
    | Raise e => (Raise e, written)
    end.
Proof.
  intros (H1 & _ & H3 & _ & _ & H6).
  unfold AdvancedFTPChecker.save_csv, AdvancedFTPChecker._save_csv.
  unfold bind at 1. rewrite with_open_run, H1, H3.
  unfold AdvancedFTPChecker.csv_body.
  unfold bind at 1 2. rewrite write_row_run, H6. simpl app.
  destruct (csv_loop_builds F results H6 [AdvancedFTPChecker.csv_columns])
    as [Ha Hb].
  destruct (for_each results _ [AdvancedFTPChecker.csv_columns])
    as [r rows1] eqn:E.
  simpl in Ha, Hb. subst r.
  destruct (AdvancedFTPChecker.csv_rows results) as [rows|e]; [|done].
  rewrite (Hb rows eq_refl). reflexivity.
Qed.







